(** * Block-wise FP8 (E4M3FN) optimizer-state codec

    A shallow embedding of [torchao/prototype/low_bit_optim/subclass_fp8.py]:
    [quantize_fp8], the [OptimStateFp8] tensor subclass with its [dequantize]
    method, the [aten.copy_], [aten._to_copy] and [aten.view] handlers, and
    the handler of the collectives.

    Numbers.  Wide-precision tensor elements are IEEE binary32 values (the
    dtype [dequantize] widens to with [codes.float()]): a finite element is
    the rational it denotes, and every arithmetic operation is the exact
    rational result rounded to nearest, ties to even, onto the binary32 grid,
    as the CPU kernels compute it.  Signed zeros are not distinguished.  Codes are the 8-bit patterns of
    [torch.float8_e4m3fn].  Python [float] scalars are binary64. *)

From Stdlib Require Import ZArith QArith Qround Qabs Qpower Qreduction.
From Stdlib Require Import Bool List Lia Lra Psatz.
Import ListNotations.

Local Open Scope Z_scope.

(** ** Rounding to a binary floating-point grid *)

Module Rounding.

Local Open Scope Q_scope.

(** [Qlog2 q] is [floor (log2 q)] for a positive rational [q]. *)
Definition Qlog2 (q : Q) : Z :=
  let l := (Z.log2 (Qnum q) - Z.log2 (Zpos (Qden q)))%Z in
  if Qle_bool (2 ^ l) q then l else (l - 1)%Z.

(** Round to the nearest integer, ties to the even one. *)
Definition rne (t : Q) : Z :=
  let f := Qfloor t in
  match Qcompare (t - inject_Z f) (1 # 2) with
  | Lt => f
  | Gt => (f + 1)%Z
  | Eq => if Z.even f then f else (f + 1)%Z
  end.

(** The exponent of the last place of [q] in a format with [prec] bits of
    precision whose smallest subnormal is [2 ^ emin]. *)
Definition ulp_exp (prec emin : Z) (q : Q) : Z :=
  Z.max (Qlog2 (Qabs q) - (prec - 1)) emin.

(** [round_fmt prec emin q = (m, e)]: the grid point nearest to [q] is
    [m * 2 ^ e]. *)
Definition round_fmt (prec emin : Z) (q : Q) : Z * Z :=
  let e := ulp_exp prec emin q in
  (rne (q * 2 ^ (- e)), e).

Definition grid_value (me : Z * Z) : Q :=
  Qred (inject_Z (fst me) * 2 ^ (snd me)).

(** The value nearest to [q]: the magnitude is rounded, the sign kept. *)
Definition round_nearest (prec emin : Z) (q : Q) : Q :=
  let v := grid_value (round_fmt prec emin (Qabs q)) in
  if Qle_bool 0 q then v else Qred (- v).

End Rounding.

Import Rounding.

(** ** IEEE binary32 elements *)

Inductive f32 : Type :=
| Fin (q : Q)
| Inf (neg : bool)
| NaN.

Module F32.

Local Open Scope Q_scope.

Definition prec : Z := 24.
Definition emin : Z := -149.
Definition max_value : Q := (2 ^ 24 - 1) * 2 ^ 104.

Definition zero : f32 := Fin 0.
Definition one : f32 := Fin 1.

(** The unit roundoff, and half the smallest subnormal. *)
Definition u : Q := 2 ^ (-24).
Definition eta : Q := 2 ^ (-150).

Definition is_neg (q : Q) : bool := negb (Qle_bool 0 q).

(** Rounding of an exact result; a result that rounds past the largest
    finite value overflows to infinity. *)
Definition round (q : Q) : f32 :=
  let r := round_nearest prec emin q in
  if Qle_bool (Qabs r) max_value then Fin r else Inf (is_neg q).

Definition is_zero (q : Q) : bool := Qeq_bool q 0.

Definition abs (x : f32) : f32 :=
  match x with
  | Fin q => Fin (Qred (Qabs q))
  | Inf _ => Inf false
  | NaN => NaN
  end.

Definition mul (x y : f32) : f32 :=
  match x, y with
  | NaN, _ | _, NaN => NaN
  | Fin a, Fin b => round (a * b)
  | Fin a, Inf s | Inf s, Fin a =>
      if is_zero a then NaN else Inf (xorb s (is_neg a))
  | Inf s, Inf t => Inf (xorb s t)
  end.

Definition div (x y : f32) : f32 :=
  match x, y with
  | NaN, _ | _, NaN => NaN
  | Fin a, Fin b =>
      if is_zero b then (if is_zero a then NaN else Inf (is_neg a))
      else round (a / b)
  | Fin _, Inf _ => zero
  | Inf s, Fin b => Inf (xorb s (is_neg b))
  | Inf _, Inf _ => NaN
  end.

(** [a < b] on elements; any comparison with NaN is false. *)
Definition ltb (x y : f32) : bool :=
  match x, y with
  | NaN, _ | _, NaN => false
  | Fin a, Fin b => negb (Qle_bool b a)
  | Fin _, Inf s => negb s
  | Inf s, Fin _ => s
  | Inf s, Inf t => s && negb t
  end.

(** Maximum and minimum as the reductions [amax] and [amin] and [clip]
    compute them: NaN propagates. *)
Definition max (x y : f32) : f32 :=
  match x, y with
  | NaN, _ | _, NaN => NaN
  | _, _ => if ltb x y then y else x
  end.

Definition min (x y : f32) : f32 :=
  match x, y with
  | NaN, _ | _, NaN => NaN
  | _, _ => if ltb y x then y else x
  end.

(** [torch.sign]: -1, 0 or 1. *)
Definition sign (x : f32) : f32 :=
  match x with
  | Fin q => if is_zero q then zero else if is_neg q then Fin (-1) else one
  | Inf s => if s then Fin (-1) else one
  | NaN => zero
  end.

(** A Python [float] scalar operand takes the tensor's dtype. *)
Definition of_pyfloat (q : Q) : f32 := round q.

End F32.

(** ** Python [float] scalars (binary64) *)

Module PyFloat.

Local Open Scope Q_scope.

(** The value of a decimal literal. *)
Definition literal (q : Q) : Q := round_nearest 53 (-1074) q.

(** [a / b] for a non-zero divisor. *)
Definition div (a b : Q) : Q := round_nearest 53 (-1074) (a / b).

End PyFloat.

(** ** [torch.float8_e4m3fn] codes *)

(** A code is the 8-bit pattern [s eeee mmm]: bias 7, no infinities, and the
    two patterns [s 1111 111] are NaN. *)
Definition fp8 : Type := Z.

Module E4M3.

Local Open Scope Q_scope.

Definition prec : Z := 4.
Definition emin : Z := -9.

(** [torch.finfo(torch.float8_e4m3fn)]: [max] is the largest value, [min] the
    most negative one, and [tiny] (also [smallest_normal]) the smallest
    positive normal value. *)
Definition finfo_max : Q := 448.
Definition finfo_min : Q := -448.
Definition finfo_tiny : Q := 1 # 64.

Definition nan_code (neg : bool) : fp8 := (if neg then 255 else 127)%Z.

Definition sign_bit (c : fp8) : bool := Z.testbit c 7.
Definition exp_field (c : fp8) : Z := Z.land (Z.shiftr c 3) 15.
Definition man_field (c : fp8) : Z := Z.land c 7.

(** [codes.float()]: widening is exact. *)
Definition to_f32 (c : fp8) : f32 :=
  let e := exp_field c in
  let m := man_field c in
  if ((e =? 15) && (m =? 7))%Z then NaN
  else
    let mag :=
      if (e =? 0)%Z then inject_Z m * 2 ^ (-9)
      else inject_Z (8 + m) * 2 ^ (e - 10) in
    Fin (Qred (if sign_bit c then - mag else mag)).

(** The bit pattern of the grid point [m * 2 ^ e], [0 <= m <= 16]. *)
Definition pack (neg : bool) (m e : Z) : fp8 :=
  let s := (if neg then 128 else 0)%Z in
  if (m <? 8)%Z then (s + m)%Z
  else if (m =? 16)%Z then (s + (e + 11) * 8)%Z
  else (s + (e + 10) * 8 + (m - 8))%Z.

(** [input.to(torch.float8_e4m3fn)]: round to nearest, ties to even; a value
    that rounds past 448 has no code and becomes NaN. *)
Definition of_f32 (x : f32) : fp8 :=
  match x with
  | NaN => nan_code false
  | Inf s => nan_code s
  | Fin q =>
      let neg := F32.is_neg q in
      let '(m, e) := round_fmt prec emin (Qabs q) in
      if Qle_bool (grid_value (m, e)) finfo_max then pack neg m e
      else nan_code neg
  end.

End E4M3.

(** ** Exceptions and tensors *)

(** The Python exception classes the module can raise. *)
Inductive exn : Type :=
| RuntimeError
| TypeError
| AssertionError
| AttributeError
| UnboundLocalError
| ZeroDivisionError.

Inductive result (A : Type) : Type :=
| Ok (a : A)
| Raise (e : exn).

Arguments Ok {A} a.
Arguments Raise {A} e.

Definition bind {A B : Type} (m : result A) (f : A -> result B) : result B :=
  match m with
  | Ok a => f a
  | Raise e => Raise e
  end.

Declare Scope result_scope.
Delimit Scope result_scope with result.
Notation "x <- m ;; k" := (bind m (fun x => k))
  (at level 61, m at next level, right associativity) : result_scope.
Notation "' p <- m ;; k" := (bind m (fun x => let 'p := x in k))
  (at level 61, p pattern, m at next level, right associativity) : result_scope.

(** A contiguous tensor: its shape and its elements in row-major order. *)
Record tensor (A : Type) : Type := mkTensor {
  shape : list nat;
  data : list A
}.

Arguments mkTensor {A} shape data.
Arguments shape {A} t.
Arguments data {A} t.

Definition numel {A : Type} (t : tensor A) : Z := Z.of_nat (length (data t)).
Definition ndim {A : Type} (t : tensor A) : nat := length (shape t).

(** A one-dimensional tensor. *)
Definition vec {A : Type} (l : list A) : tensor A := mkTensor [length l] l.

Definition shape_eqb (s t : list nat) : bool :=
  if list_eq_dec Nat.eq_dec s t then true else false.

(** [r] rows of [n] consecutive elements each. *)
Fixpoint rows_of {A : Type} (r n : nat) (l : list A) : list (list A) :=
  match r with
  | O => []
  | S r' => firstn n l :: rows_of r' n (skipn n l)
  end.

(** [t.view(-1, block_size)] on the elements [l] of [t]: the second size must
    be positive and divide the number of elements. *)
Definition view_rows {A : Type} (l : list A) (block_size : Z)
  : result (list (list A)) :=
  let n := Z.of_nat (length l) in
  if (block_size <=? 0) || negb (n mod block_size =? 0)
  then Raise RuntimeError
  else Ok (rows_of (Z.to_nat (n / block_size)) (Z.to_nat block_size) l).

(** [rows.view(shape)] back to a shape that holds [n] elements. *)
Definition view_shape {A : Type} (rows : list (list A)) (sh : list nat) (n : Z)
  : result (tensor A) :=
  let l := concat rows in
  if Z.of_nat (length l) =? n then Ok (mkTensor sh l) else Raise RuntimeError.

(** Two lists element by element. *)
Fixpoint map2 {A B C : Type} (f : A -> B -> C) (l : list A) (l' : list B)
  : list C :=
  match l, l' with
  | a :: t, b :: t' => f a b :: map2 f t t'
  | _, _ => []
  end.

(** [rows op column.view(-1, 1)]: a [(r, n)] operand against an [(m, 1)] one
    broadcasts when [r = m] or one of the two is 1. *)
Definition broadcast_rows {A B C : Type} (f : A -> B -> C)
    (rows : list (list A)) (col : list B) : result (list (list C)) :=
  if Nat.eqb (length rows) (length col)
  then Ok (map2 (fun row b => map (fun a => f a b) row) rows col)
  else
    match col, rows with
    | [b], _ => Ok (map (map (fun a => f a b)) rows)
    | _, [row] => Ok (map (fun b => map (fun a => f a b) row) col)
    | _, _ => Raise RuntimeError
    end.

(** Expansion of a tensor of shape [src] to the shape [dst] of the same
    rank; [None] when a size differs and is not 1. *)
Fixpoint expand {A : Type} (src dst : list nat) (l : list A)
  : option (list A) :=
  match src, dst with
  | [], [] => Some l
  | s :: src', d :: dst' =>
      let inner := fold_right Nat.mul 1%nat src' in
      let step (row : list A) (acc : option (list A)) :=
        match expand src' dst' row, acc with
        | Some x, Some y => Some (x ++ y)
        | _, _ => None
        end in
      if Nat.eqb s d then fold_right step (Some []) (rows_of s inner l)
      else if Nat.eqb s 1 then
        match expand src' dst' l with
        | Some x => Some (concat (repeat x d))
        | None => None
        end
      else None
  | _, _ => None
  end.

(** [dst.copy_(src)] on plain tensors: the elements of [src], broadcast to
    the shape of [dst], overwrite those of [dst]. *)
Definition tensor_copy_ {A : Type} (dst src : tensor A) : result (tensor A) :=
  if shape_eqb (shape src) (shape dst) then Ok (mkTensor (shape dst) (data src))
  else
    let pad := (ndim dst - ndim src)%nat in
    if Nat.ltb (ndim dst) (ndim src) then Raise RuntimeError
    else
      match expand (repeat 1%nat pad ++ shape src) (shape dst) (data src) with
      | Some l => Ok (mkTensor (shape dst) l)
      | None => Raise RuntimeError
      end.

(** ** The host runtime *)

(** What the module takes from the tensor runtime without fixing it here:
    the elementwise transcendental functions, and whether the operator
    [aten.ones] accepts a bare integer where its schema asks for a list of
    sizes. *)
Record Runtime : Type := mkRuntime {
  aten_ones : nat -> result (tensor fp8);
  torch_log : f32 -> f32;
  torch_pow : f32 -> f32 -> f32
}.

(** [torch.log] takes a tensor; its argument parser rejects a Python
    [float] with [TypeError]. *)
Definition torch_log_pyfloat (x : Q) : result f32 := Raise TypeError.

(** The reductions [amax(-1)] and [amin(-1)] over one row (rows are never
    empty: [view_rows] only returns rows of a positive length). *)
Definition reduce (f : f32 -> f32 -> f32) (row : list f32) : f32 :=
  match row with
  | [] => NaN
  | x :: r => fold_left f r x
  end.

Definition amax (row : list f32) : f32 := reduce F32.max row.
Definition amin (row : list f32) : f32 := reduce F32.min row.

(** [t.clip(1e-12)]: a lower bound only. *)
Definition clip_min : f32 := F32.of_pyfloat (PyFloat.literal (1 # 1000000000000)).
Definition clip (x : f32) : f32 := F32.max x clip_min.

(** [Rdtype = torch.finfo(DTYPE).max / torch.finfo(DTYPE).min], a Python
    [float]. *)
Definition Rdtype : Q := PyFloat.div E4M3.finfo_max E4M3.finfo_min.

(** ** [quantize_fp8] *)

Section Codec.

Variable rt : Runtime.

Local Open Scope result_scope.

(** [quantize_fp8(input, block_size, dynamic_range_expansion)], statement by
    statement.  The [k] that [aten.ones] returns is overwritten before any
    use; [Rdtype] is the constant above; in
    [torch.log(Rdtype) / torch.log(Rx)] the left operand is evaluated
    first. *)
Definition quantize_fp8 (input : tensor f32) (block_size : Z)
    (dynamic_range_expansion : bool)
  : result (tensor fp8 * tensor f32 * option (tensor f32)) :=
  let shape0 := shape input in
  input <- view_rows (data input) block_size ;;
  _ <- (if dynamic_range_expansion
        then k <- aten_ones rt (length input) ;; Ok (Some k)
        else Ok None) ;;
  '(input, k) <-
    (if dynamic_range_expansion then
       let Rx :=
         map2 F32.div
           (map (fun row => clip (amax (map F32.abs row))) input)
           (map (fun row => clip (amin (map F32.abs row))) input) in
       log_Rdtype <- torch_log_pyfloat Rdtype ;;
       let k := map (fun lx => F32.div log_Rdtype lx) (map (torch_log rt) Rx) in
       let powered :=
         map2 (fun row kb => map (fun x => torch_pow rt (F32.abs x) kb) row)
           input k in
       Ok (map2 (map2 F32.mul) (map (map F32.sign) input) powered,
           Some (vec k))
     else Ok (input, None)) ;;
  let scale :=
    map (fun row =>
           F32.div (clip (amax (map F32.abs row)))
             (F32.of_pyfloat E4M3.finfo_max)) input in
  let input := map2 (fun row s => map (fun x => F32.div x s) row) input scale in
  let codes := map E4M3.of_f32 (concat input) in
  Ok (mkTensor shape0 codes, vec scale, k).

(** ** [OptimStateFp8] *)

Record OptimStateFp8 : Type := mkOptimStateFp8 {
  codes : tensor fp8;
  scale : tensor f32;
  k : option (tensor f32);
  block_size : Z
}.

(** [OptimStateFp8(codes, scale)]: [__new__] takes exactly these two
    arguments, so [__init__] always runs with [k = None].  [codes.dtype is
    DTYPE] holds by typing; [//] on a zero count raises. *)
Definition OptimStateFp8_init (codes : tensor fp8) (scale : tensor f32)
  : result OptimStateFp8 :=
  if negb (Nat.eqb (ndim scale) 1) then Raise AssertionError
  else if numel scale =? 0 then Raise ZeroDivisionError
  else Ok (mkOptimStateFp8 codes scale None (numel codes / numel scale)).

(** [if self.k:] is false for [None]; a tensor of one element is true when
    the element is not zero; any other tensor has no truth value. *)
Definition truth (k : option (tensor f32)) : result bool :=
  match k with
  | None => Ok false
  | Some t =>
      match data t with
      | [Fin q] => Ok (negb (F32.is_zero q))
      | [_] => Ok true
      | _ => Raise RuntimeError
      end
  end.

(** [output_dtype], when given, is the elementwise conversion to it. *)
Definition dequantize (self : OptimStateFp8) (output_dtype : option (f32 -> f32))
  : result (tensor f32) :=
  let float_data := map E4M3.to_f32 (data (codes self)) in
  float_data <- view_rows float_data (block_size self) ;;
  float_data <- broadcast_rows F32.mul float_data (data (scale self)) ;;
  b <- truth (k self) ;;
  float_data <-
    (if b then
       match k self with
       | Some kt =>
           float_data <- view_rows (concat float_data) (block_size self) ;;
           broadcast_rows (torch_pow rt) float_data
             (map (F32.div F32.one) (data kt))
       | None => Ok float_data
       end
     else Ok float_data) ;;
  let float_data :=
    match output_dtype with
    | Some cast => map (map cast) float_data
    | None => float_data
    end in
  view_shape float_data (shape (codes self)) (numel (codes self)).

(** [OptimStateFp8.zeros(shape, block_size)], with [n] the number of
    elements of [shape]. *)
Definition zeros (sh : list nat) (block_size : Z) : result OptimStateFp8 :=
  let n := fold_right Nat.mul 1%nat sh in
  let codes := mkTensor sh (repeat (0 : fp8) n) in
  if block_size =? 0 then Raise ZeroDivisionError
  else
    let m := numel codes / block_size in
    if m <? 0 then Raise RuntimeError
    else OptimStateFp8_init codes (vec (repeat F32.zero (Z.to_nat m))).

(** ** Operator handlers *)

(** An argument of a dispatched operator: a quantized state or a plain
    tensor. *)
Inductive pyarg : Type :=
| Quantized (s : OptimStateFp8)
| Plain (t : tensor f32).

(** A handler body mutates its destination in place: a computation threads
    the destination and may raise, leaving what it has written so far. *)
Definition mut (S A : Type) : Type := S -> S * result A.

Definition mret {S A : Type} (a : A) : mut S A := fun s => (s, Ok a).
Definition mraise {S A : Type} (e : exn) : mut S A := fun s => (s, Raise e).
Definition mlift {S A : Type} (r : result A) : mut S A := fun s => (s, r).
Definition mget {S : Type} : mut S S := fun s => (s, Ok s).
Definition mput {S : Type} (s' : S) : mut S unit := fun _ => (s', Ok tt).

Definition mbind {S A B : Type} (m : mut S A) (f : A -> mut S B) : mut S B :=
  fun s =>
    match m s with
    | (s', Ok a) => f a s'
    | (s', Raise e) => (s', Raise e)
    end.

Declare Scope mut_scope.
Delimit Scope mut_scope with mut.
Notation "x <- m ;; k" := (mbind m (fun x => k))
  (at level 61, m at next level, right associativity) : mut_scope.
Notation "m ;;; k" := (mbind m (fun _ => k))
  (at level 61, right associativity) : mut_scope.

(** [dst.codes.copy_(t)], [dst.scale.copy_(t)] and [dst.k.copy_(t)]. *)
Definition copy_codes (t : tensor fp8) : mut OptimStateFp8 unit :=
  (dst <- mget ;;
   c <- mlift (tensor_copy_ (codes dst) t) ;;
   mput (mkOptimStateFp8 c (scale dst) (k dst) (block_size dst)))%mut.

Definition copy_scale (t : tensor f32) : mut OptimStateFp8 unit :=
  (dst <- mget ;;
   s <- mlift (tensor_copy_ (scale dst) t) ;;
   mput (mkOptimStateFp8 (codes dst) s (k dst) (block_size dst)))%mut.

(** [dst.k] may be [None], which has no [copy_]; [copy_] of a tensor takes a
    tensor. *)
Definition copy_k (t : option (tensor f32)) : mut OptimStateFp8 unit :=
  (dst <- mget ;;
   match k dst with
   | None => mraise AttributeError
   | Some kd =>
       match t with
       | None => mraise TypeError
       | Some ks =>
           k' <- mlift (tensor_copy_ kd ks) ;;
           mput (mkOptimStateFp8 (codes dst) (scale dst) (Some k') (block_size dst))
       end
   end)%mut.

(** Reading a local variable: one that no statement has assigned yet is
    unbound. *)
Definition read_local {S A : Type} (v : option A) : mut S A :=
  match v with
  | Some a => mret a
  | None => mraise UnboundLocalError
  end.

(** [dst.dynamic_range_expansion]: [OptimStateFp8] sets [codes], [scale],
    [k] and [block_size] and no attribute of this name. *)
Definition get_dynamic_range_expansion (dst : OptimStateFp8) : result bool :=
  Raise AttributeError.

(** Both arguments quantized. *)
Definition copy_same_kind (src : OptimStateFp8) : mut OptimStateFp8 unit :=
  (dst <- mget ;;
   (if block_size dst =? block_size src then mret tt
    else mraise AssertionError) ;;;
   copy_codes (codes src) ;;;
   copy_scale (scale src) ;;;
   copy_k (k src))%mut.

(** Only the destination quantized.  The statement
    [codes, scale, k = quantize_fp8(codes, dst.block_size,
    dst.dynamic_range_expansion)] reads the local [codes] that it is the
    first to assign. *)
Definition copy_from_plain (src : tensor f32) : mut OptimStateFp8 unit :=
  let codes_local : option (tensor f32) := None in
  (dst <- mget ;;
   arg <- read_local codes_local ;;
   dre <- mlift (get_dynamic_range_expansion dst) ;;
   q <- mlift (quantize_fp8 arg (block_size dst) dre) ;;
   let '(codes, scale, k) := q in
   copy_codes codes ;;;
   copy_scale scale ;;;
   copy_k k)%mut.

(** The destination a plain tensor: [dst.copy_(src.dequantize())]; a plain
    source has no [dequantize]. *)
Definition copy_to_plain (src : pyarg) : mut (tensor f32) unit :=
  (dst <- mget ;;
   match src with
   | Quantized s =>
       d <- mlift (dequantize s None) ;;
       t <- mlift (tensor_copy_ dst d) ;;
       mput t
   | Plain _ => mraise AttributeError
   end)%mut.

(** The [aten.copy_.default] handler: the destination after the call, and
    how the call ended. *)
Definition copy_ (dst src : pyarg) : pyarg * result unit :=
  match dst, src with
  | Quantized d, Quantized s =>
      let '(d', r) := copy_same_kind s d in (Quantized d', r)
  | Quantized d, Plain s =>
      let '(d', r) := copy_from_plain s d in (Quantized d', r)
  | Plain d, _ =>
      let '(d', r) := copy_to_plain src d in (Plain d', r)
  end.

(** The [aten._to_copy.default] handler; a transfer to another device keeps
    the elements of a tensor. *)
Definition to_copy (self : OptimStateFp8) : result OptimStateFp8 :=
  OptimStateFp8_init (codes self) (scale self).

(** The [aten.view.default] handler. *)
Definition view (x : OptimStateFp8) (sh : list nat) : result OptimStateFp8 :=
  if Z.of_nat (fold_right Nat.mul 1%nat sh) =? numel (codes x)
  then OptimStateFp8_init (mkTensor sh (data (codes x))) (scale x)
  else Raise RuntimeError.

End Codec.

(** ** The handler of the collectives *)

(** What the handler of the collectives raises: its own [ValueError], or
    what the collective or the constructor raises. *)
Inductive gather_exn : Type :=
| ValueError
| Raised (e : exn).

(** The handler of [all_gather_into_tensor] and [wait_tensor]: [func] is
    the collective, here as it acts on the codes and on the scale. *)
Definition gathered (func_codes : tensor fp8 -> result (tensor fp8))
    (func_scale : tensor f32 -> result (tensor f32)) (x : pyarg)
  : gather_exn + OptimStateFp8 :=
  match x with
  | Plain _ => inl ValueError
  | Quantized s =>
      match func_codes (codes s) with
      | Raise e => inl (Raised e)
      | Ok c =>
          match func_scale (scale s) with
          | Raise e => inl (Raised e)
          | Ok sc =>
              match OptimStateFp8_init c sc with
              | Ok out => inr out
              | Raise e => inl (Raised e)
              end
          end
      end
  end.

(** ** Notions the statements below are written with *)

(** A finite binary32 value. *)
Definition finite32 (x : f32) : Prop :=
  match x with
  | Fin q => (Qabs q <= F32.max_value)%Q
  | _ => False
  end.

Definition positive32 (x : f32) : Prop :=
  match x with
  | Fin q => (0 < q)%Q
  | _ => False
  end.

(** A finite element of magnitude at most [A]. *)
Definition bounded_by (A : Q) (x : f32) : Prop :=
  exists q, x = Fin q /\ (Qabs q <= A)%Q.

(** The truth value [truth] gives a tensor of the one element [x]. *)
Definition nonzero (x : f32) : bool :=
  match x with
  | Fin q => negb (F32.is_zero q)
  | _ => true
  end.

(** The inverse transform as the specification words it,
    [x = sign(x') * |x'| ^ (1 / k)], to compare [dequantize] with. *)
Definition inverse_signed_power (rt : Runtime) (k x : f32) : f32 :=
  F32.mul (F32.sign x) (torch_pow rt (F32.abs x) (F32.div F32.one k)).

(** The scale [quantize_fp8] computes for one row. *)
Definition block_scale (row : list f32) : f32 :=
  F32.div (clip (amax (map F32.abs row))) (F32.of_pyfloat E4M3.finfo_max).

(** One element through [quantize_fp8] and then [dequantize], in a block of
    scale [s]. *)
Definition round_trip_elem (s x : f32) : f32 :=
  F32.mul (E4M3.to_f32 (E4M3.of_f32 (F32.div x s))) s.

(** The value of [clip_min]: the binary32 nearest to the Python float
    [1e-12]. *)
Definition clip_min_value : Q := 2305843 # 2305843009213693952.

(** The scale of an all-zero block: the floor [1e-12 / 448]. *)
Definition zero_block_scale : f32 :=
  F32.div clip_min (F32.of_pyfloat E4M3.finfo_max).

(** The block of the specification's concrete scenario. *)
Definition spec_block : tensor f32 :=
  vec [Fin 1; Fin (-2); Fin (1 # 2); Fin 4].

(** Powers of two are opaque to linear arithmetic. *)
Ltac hide_pow2 :=
  repeat match goal with
  | |- context [(2 ^ ?z)%Q] =>
      let P := fresh "P" in set (P := (2 ^ z)%Q) in *; clearbody P
  | H : context [(2 ^ ?z)%Q] |- _ =>
      let P := fresh "P" in set (P := (2 ^ z)%Q) in *; clearbody P
  end.

Ltac plra := hide_pow2; lra.

(** The rows [dequantize] computes for a state without [k] that has one
    scale for each block. *)
Definition decoded_rows (st : OptimStateFp8) : list (list f32) :=
  map2 (fun row s => map (fun a => F32.mul a s) row)
    (rows_of (length (data (scale st))) (Z.to_nat (block_size st))
       (map E4M3.to_f32 (data (codes st))))
    (data (scale st)).

(** What a copy leaves of its destination, whether or not it raises. *)
Definition same_layout (a b : pyarg) : Prop :=
  match a, b with
  | Quantized d, Quantized d' =>
      shape (codes d') = shape (codes d) /\
      shape (scale d') = shape (scale d) /\
      block_size d' = block_size d /\
      match k d, k d' with
      | Some kd, Some kd' => shape kd' = shape kd
      | None, None => True
      | _, _ => False
      end
  | Plain t, Plain t' => shape t' = shape t
  | _, _ => False
  end.

Ltac unfold_mut :=
  unfold copy_same_kind, copy_from_plain, copy_to_plain, copy_codes, copy_scale,
    copy_k, read_local, mbind, mget, mput, mlift, mret, mraise.

Ltac case_copy :=
  match goal with
  | |- context [tensor_copy_ ?a ?b] =>
      let E := fresh "E" in
      destruct (tensor_copy_ a b) eqn:E; cbn [block_size codes scale k fst snd]
  end.



(** The 8-bit patterns. *)
Definition all_codes : list fp8 := map Z.of_nat (seq 0 256).

(** What is checked of one code: only the two NaN patterns widen to NaN;
    every other code widens to a finite value of magnitude at most 448 and,
    but for the zero with the sign bit, is what that value is cast to. *)
Definition code_checks (c : fp8) : bool :=
  match E4M3.to_f32 c with
  | NaN => (c =? 127)%Z || (c =? 255)%Z
  | Inf _ => false
  | Fin w =>
      Qle_bool (Qabs w) E4M3.finfo_max &&
      ((c =? 128)%Z || (E4M3.of_f32 (Fin w) =? c)%Z)
  end.

(** * Facts *)

Local Open Scope Q_scope.

(** ** The formats on a few values *)

Example e4m3_widen :
  map E4M3.to_f32 [0; 1; 7; 8; 56; 110; 119; 126; 127; 192; 254; 255]%Z
  = [Fin 0; Fin (1 # 512); Fin (7 # 512); Fin (1 # 64); Fin 1; Fin 112;
     Fin 240; Fin 448; NaN; Fin (-2); Fin (-448); NaN].
Proof. vm_compute. reflexivity. Qed.

Example e4m3_cast :
  map E4M3.of_f32
    [Fin 0; Fin 1; Fin (-2); Fin 270; Fin 272; Fin 448; Fin 464; Fin 465;
     Fin (1 # 1024); Fin (3 # 2048); Inf true; NaN]
  = [0; 56; 192; 120; 120; 126; 126; 127; 0; 1; 255; 127]%Z.
Proof. vm_compute. reflexivity. Qed.

Example binary32_rounding :
  F32.round (1 # 3) = Fin (11184811 # 33554432) /\
  F32.round F32.max_value = Fin F32.max_value /\
  F32.round (2 ^ 128 - 2 ^ 103) = Inf false /\
  F32.div (Fin 4) (Fin 448) = Fin (9586981 # 1073741824).
Proof. repeat split; vm_compute; reflexivity. Qed.

(** ** Powers of two and the binary logarithm *)

Lemma pow2_pos (e : Z) : 0 < 2 ^ e.
Proof. apply Qpower_0_lt. reflexivity. Qed.

Lemma pow2_add (a b : Z) : 2 ^ (a + b) == 2 ^ a * 2 ^ b.
Proof. apply Qpower_plus. discriminate. Qed.

Lemma pow2_succ (a : Z) : 2 ^ (a + 1) == 2 * 2 ^ a.
Proof. rewrite pow2_add. change (2 ^ 1) with 2. ring. Qed.

Lemma pow2_cancel (e : Z) : 2 ^ e * 2 ^ (- e) == 1.
Proof.
  rewrite <- pow2_add. replace (e + - e)%Z with 0%Z by lia. reflexivity.
Qed.

Lemma pow2_le (a b : Z) : (a <= b)%Z -> 2 ^ a <= 2 ^ b.
Proof. intros H. apply Qpower_le_compat_l; [exact H | discriminate]. Qed.

Lemma pow2_lt_inv (a b : Z) : 2 ^ a < 2 ^ b -> (a < b)%Z.
Proof.
  intros H. destruct (Z_lt_le_dec a b) as [Hlt | Hle]; [exact Hlt | ].
  apply pow2_le in Hle. lra.
Qed.

Lemma pow2_inject (n : Z) : (0 <= n)%Z -> inject_Z (2 ^ n) == 2 ^ n.
Proof. intros H. rewrite Zpower_Qpower by exact H. reflexivity. Qed.

Lemma Qlog2_spec (q : Q) :
  0 < q -> 2 ^ Qlog2 q <= q /\ q < 2 ^ (Qlog2 q + 1).
Proof.
  intros Hq. destruct q as [n d]. unfold Qlog2. cbn [Qnum Qden].
  assert (Hn : (0 < n)%Z) by (unfold Qlt in Hq; cbn in Hq; lia).
  pose proof (Z.log2_spec n Hn) as [Hn1 Hn2].
  pose proof (Z.log2_spec (Z.pos d) (Pos2Z.is_pos d)) as [Hd1 Hd2].
  pose proof (Z.log2_nonneg n) as Hln.
  pose proof (Z.log2_nonneg (Z.pos d)) as Hld.
  set (ln := Z.log2 n) in *. set (ld := Z.log2 (Z.pos d)) in *.
  rewrite Zle_Qle in Hn1, Hd1. rewrite Zlt_Qlt in Hn2, Hd2.
  unfold Z.succ in Hn2, Hd2.
  rewrite pow2_inject in Hn1, Hd1, Hn2, Hd2 by lia.
  rewrite pow2_succ in Hn2, Hd2.
  assert (HP : 2 ^ (ln - ld) * 2 ^ ld == 2 ^ ln).
  { rewrite <- pow2_add. replace (ln - ld + ld)%Z with ln by lia. reflexivity. }
  pose proof (pow2_pos (ln - ld)) as HPpos.
  pose proof (pow2_pos ld) as HBpos.
  assert (HqD : (n # d) * inject_Z (Z.pos d) == inject_Z n).
  { rewrite (Qmake_Qdiv n d). field. unfold Qeq; cbn; lia. }
  set (N := inject_Z n) in *. set (D := inject_Z (Z.pos d)) in *.
  set (P := 2 ^ (ln - ld)) in *. set (B := 2 ^ ld) in *. set (A := 2 ^ ln) in *.
  set (x := n # d) in *.
  assert (HD : 0 < D) by lra.
  assert (Hup : x < 2 * P).
  { apply Qnot_le_lt; intro Hc. 
    assert (2 * P * D <= x * D) by (apply Qmult_le_compat_r; lra).
    assert (P * B <= P * D) by (apply Qmult_le_l; lra). lra. }
  assert (Hlo : P < 2 * x).
  { apply Qnot_le_lt; intro Hc.
    assert (2 * x * D <= P * D) by (apply Qmult_le_compat_r; lra).
    assert (P * D < P * (2 * B)) by (apply Qmult_lt_l; lra). lra. }
  destruct (Qle_bool P x) eqn:E.
  - apply Qle_bool_iff in E. split; [exact E | ]. rewrite pow2_succ. exact Hup.
  - assert (Hlt : x < P).
    { apply Qnot_le_lt; intro Hc. apply Qle_bool_iff in Hc. congruence. }
    replace (ln - ld - 1 + 1)%Z with (ln - ld)%Z by lia. split; [ | exact Hlt].
    assert (HP2 : 2 * 2 ^ (ln - ld - 1) == P).
    { rewrite <- pow2_succ. replace (ln - ld - 1 + 1)%Z with (ln - ld)%Z by lia.
      reflexivity. }
    lra.
Qed.

Lemma Qlog2_lt (q : Q) (b : Z) : 0 < q -> q < 2 ^ b -> (Qlog2 q < b)%Z.
Proof.
  intros Hq Hb. destruct (Qlog2_spec q Hq) as [H1 _].
  apply pow2_lt_inv. lra.
Qed.

(** ** Round to nearest even integer *)

Lemma rne_cases (t : Q) :
  let f := Qfloor t in
  (rne t = f /\ t - inject_Z f <= 1 # 2) \/
  (rne t = (f + 1)%Z /\ 1 # 2 <= t - inject_Z f).
Proof.
  intros f. unfold rne. fold f.
  destruct (Qcompare_spec (t - inject_Z f) (1 # 2)) as [H | H | H].
  - destruct (Z.even f); [left | right]; split; auto; rewrite H; apply Qle_refl.
  - left. split; [reflexivity | lra].
  - right. split; [reflexivity | lra].
Qed.

Lemma rne_error (t : Q) : Qabs (inject_Z (rne t) - t) <= 1 # 2.
Proof.
  pose proof (Qfloor_le t) as H1. pose proof (Qlt_floor t) as H2.
  rewrite inject_Z_plus in H2. change (inject_Z 1) with 1 in H2.
  apply Qabs_Qle_condition.
  destruct (rne_cases t) as [[-> H] | [-> H]].
  - lra.
  - rewrite inject_Z_plus. change (inject_Z 1) with 1. lra.
Qed.

Lemma rne_Z (n : Z) : rne (inject_Z n) = n.
Proof.
  unfold rne. rewrite Qfloor_Z.
  destruct (Qcompare_spec (inject_Z n - inject_Z n) (1 # 2)) as [H | H | H];
    [ | reflexivity | ]; lra.
Qed.

Lemma rne_ge_floor (t : Q) : (Qfloor t <= rne t)%Z.
Proof. destruct (rne_cases t) as [[-> _] | [-> _]]; lia. Qed.

Lemma rne_le_ceil (t : Q) : (rne t <= Qfloor t + 1)%Z.
Proof. destruct (rne_cases t) as [[-> _] | [-> _]]; lia. Qed.

Lemma rne_mono (t t' : Q) : t <= t' -> (rne t <= rne t')%Z.
Proof.
  intros Hle. pose proof (Qfloor_resp_le _ _ Hle) as Hf.
  destruct (Z.eq_dec (Qfloor t) (Qfloor t')) as [E | NE].
  - unfold rne. rewrite <- E.
    destruct (Qcompare_spec (t - inject_Z (Qfloor t)) (1 # 2)) as [H | H | H];
      destruct (Qcompare_spec (t' - inject_Z (Qfloor t)) (1 # 2)) as [H' | H' | H'];
      try destruct (Z.even (Qfloor t)); try lia; lra.
  - pose proof (rne_le_ceil t). pose proof (rne_ge_floor t'). lia.
Qed.

Lemma rne_nonneg (t : Q) : 0 <= t -> (0 <= rne t)%Z.
Proof. intros H. rewrite <- (rne_Z 0). apply rne_mono. exact H. Qed.


Lemma rne_compat (t t' : Q) : t == t' -> rne t = rne t'.
Proof.
  intros H. apply Z.le_antisymm; apply rne_mono; rewrite H; apply Qle_refl.
Qed.

Lemma Qabs_nonneg_eq (a : Q) : 0 <= a -> Qabs a = a.
Proof.
  destruct a as [n d]. unfold Qle, Qabs. cbn. intros H.
  f_equal. apply Z.abs_eq. lia.
Qed.

Lemma grid_value_eq (m e : Z) : grid_value (m, e) == inject_Z m * 2 ^ e.
Proof. unfold grid_value. cbn [fst snd]. apply Qred_correct. Qed.

(** ** Rounding to a format of [prec] bits *)

Section Format.

Variables prec emin : Z.
Hypothesis prec_pos : (0 < prec)%Z.

Lemma ulp_exp_ge_emin (q : Q) : (emin <= ulp_exp prec emin q)%Z.
Proof. unfold ulp_exp. lia. Qed.

(** The rounded value is within half a unit in the last place. *)
Lemma round_fmt_half_ulp (a : Q) :
  Qabs (grid_value (round_fmt prec emin a) - a)
  <= (1 # 2) * 2 ^ ulp_exp prec emin a.
Proof.
  unfold round_fmt. rewrite grid_value_eq.
  set (e := ulp_exp prec emin a).
  pose proof (rne_error (a * 2 ^ (- e))) as H.
  pose proof (pow2_pos e) as He. pose proof (pow2_cancel e) as Hc.
  set (m := inject_Z (rne (a * 2 ^ (- e)))) in *.
  apply Qabs_Qle_condition in H. apply Qabs_Qle_condition.
  set (P := 2 ^ e) in *. set (I := 2 ^ (- e)) in *.
  assert (HaIP : a * I * P == a)
    by (transitivity (a * (P * I)); [ring | rewrite Hc; ring]).
  assert (E : m * P - a == (m - a * I) * P)
    by (transitivity (m * P - a * I * P); [rewrite HaIP; ring | ring]).
  rewrite E. split.
  - assert (- (1 # 2) * P <= (m - a * I) * P) by (apply Qmult_le_compat_r; lra). lra.
  - assert ((m - a * I) * P <= (1 # 2) * P) by (apply Qmult_le_compat_r; lra). lra.
Qed.

Lemma round_fmt_zero (a : Q) :
  a == 0 -> grid_value (round_fmt prec emin a) == 0.
Proof.
  intros H. unfold round_fmt. rewrite grid_value_eq.
  rewrite (rne_compat _ (inject_Z 0)); [rewrite rne_Z; ring | ].
  transitivity (0 * 2 ^ (- ulp_exp prec emin a)); [ | ring].
  apply Qmult_comp; [exact H | reflexivity].
Qed.

Lemma round_fmt_nonneg (a : Q) :
  0 <= a -> 0 <= grid_value (round_fmt prec emin a).
Proof.
  intros H. unfold round_fmt. rewrite grid_value_eq.
  apply Qmult_le_0_compat.
  - change 0 with (inject_Z 0). rewrite <- Zle_Qle. apply rne_nonneg.
    apply Qmult_le_0_compat; [exact H | apply Qlt_le_weak, pow2_pos].
  - apply Qlt_le_weak, pow2_pos.
Qed.

(** The unit in the last place of a positive value. *)
Lemma ulp_exp_bound (a : Q) :
  0 < a -> 2 ^ ulp_exp prec emin a <= a * 2 ^ (1 - prec) + 2 ^ emin.
Proof.
  intros Ha. unfold ulp_exp. rewrite (Qabs_nonneg_eq a) by (apply Qlt_le_weak, Ha).
  destruct (Qlog2_spec a Ha) as [H1 _].
  pose proof (pow2_pos emin). pose proof (pow2_pos (1 - prec)).
  destruct (Z.max_spec (Qlog2 a - (prec - 1)) emin) as [[_ ->] | [_ ->]].
  - assert (0 <= a * 2 ^ (1 - prec)) by (apply Qmult_le_0_compat; lra). lra.
  - replace (Qlog2 a - (prec - 1))%Z with (Qlog2 a + (1 - prec))%Z by lia.
    rewrite pow2_add.
    assert (2 ^ Qlog2 a * 2 ^ (1 - prec) <= a * 2 ^ (1 - prec))
      by (apply Qmult_le_compat_r; lra).
    lra.
Qed.

(** The standard model of rounding: a relative error of [2 ^ -prec] in the
    normal range, an absolute one of half the smallest subnormal below. *)
Lemma round_fmt_error (a : Q) :
  0 <= a ->
  Qabs (grid_value (round_fmt prec emin a) - a)
  <= a * 2 ^ (- prec) + 2 ^ (emin - 1).
Proof.
  intros Ha.
  assert (Hh : forall z, (1 # 2) * 2 ^ z == 2 ^ (z - 1)).
  { intros z. replace z with (z - 1 + 1)%Z at 1 by lia. rewrite pow2_succ. field. }
  destruct (Qlt_le_dec 0 a) as [Hpos | Hz].
  - eapply Qle_trans; [apply round_fmt_half_ulp | ].
    pose proof (ulp_exp_bound a Hpos) as H.
    rewrite <- (Hh emin).
    replace (- prec)%Z with (1 - prec - 1)%Z by lia. rewrite <- (Hh (1 - prec)%Z).
    lra.
  - assert (E : a == 0) by lra.
    rewrite (round_fmt_zero a E), E.
    pose proof (pow2_pos (emin - 1)). 
    setoid_replace (0 - 0) with 0 by ring. cbn [Qabs Z.abs]. lra.
Qed.

(** The significand of a rounded positive value has at most [prec] bits (or is [2 ^ prec]). *)
Lemma round_fmt_significand_le (a : Q) :
  0 < a -> (fst (round_fmt prec emin a) <= 2 ^ prec)%Z.
Proof.
  intros Ha. unfold round_fmt. cbn [fst].
  set (e := ulp_exp prec emin a).
  rewrite <- (rne_Z (2 ^ prec)). apply rne_mono.
  rewrite pow2_inject by lia.
  destruct (Qlog2_spec a Ha) as [_ H2].
  assert (He : (Qlog2 a + 1 <= e + prec)%Z).
  { unfold e, ulp_exp. rewrite (Qabs_nonneg_eq a) by (apply Qlt_le_weak, Ha). lia. }
  apply pow2_le in He. rewrite (pow2_add e prec) in He.
  pose proof (pow2_pos e). pose proof (pow2_pos (- e)). pose proof (pow2_cancel e) as Hc.
  assert (a * 2 ^ (- e) <= 2 ^ e * 2 ^ prec * 2 ^ (- e))
    by (apply Qmult_le_compat_r; plra).
  assert (E : 2 ^ e * 2 ^ prec * 2 ^ (- e) == 2 ^ prec).
  { transitivity (2 ^ prec * (2 ^ e * 2 ^ (- e))); [ring | rewrite Hc; ring]. }
  lra.
Qed.

(** Above the subnormal range the significand is normalised. *)
Lemma round_fmt_significand_ge (a : Q) :
  0 < a -> (emin < ulp_exp prec emin a)%Z ->
  (2 ^ (prec - 1) <= fst (round_fmt prec emin a))%Z.
Proof.
  intros Ha He. unfold round_fmt. cbn [fst].
  set (e := ulp_exp prec emin a) in *.
  rewrite <- (rne_Z (2 ^ (prec - 1))). apply rne_mono.
  rewrite pow2_inject by lia.
  destruct (Qlog2_spec a Ha) as [H1 _].
  assert (E : (Qlog2 a = e + (prec - 1))%Z).
  { unfold e, ulp_exp in *. rewrite (Qabs_nonneg_eq a) in * by (apply Qlt_le_weak, Ha). lia. }
  rewrite E, pow2_add in H1.
  pose proof (pow2_pos e). pose proof (pow2_pos (- e)). pose proof (pow2_cancel e) as Hc.
  assert (2 ^ e * 2 ^ (prec - 1) * 2 ^ (- e) <= a * 2 ^ (- e))
    by (apply Qmult_le_compat_r; plra).
  assert (E' : 2 ^ e * 2 ^ (prec - 1) * 2 ^ (- e) == 2 ^ (prec - 1)).
  { transitivity (2 ^ (prec - 1) * (2 ^ e * 2 ^ (- e))); [ring | rewrite Hc; ring]. }
  lra.
Qed.

(** Rounding does not step over a bound [b] that itself rounds to the grid
    point [g * 2 ^ eg] of its binade. *)
Lemma round_fmt_le_grid (a b : Q) (g eg : Z) :
  0 <= a -> a <= b -> b < 2 ^ (prec + eg) -> (emin <= eg)%Z ->
  rne (b * 2 ^ (- eg)) = g -> (2 ^ (prec - 1) <= g)%Z ->
  grid_value (round_fmt prec emin a) <= inject_Z g * 2 ^ eg.
Proof.
  intros Ha Hab Hb Hemin Hg Hg1.
  assert (Hgq : 2 ^ (prec - 1) <= inject_Z g).
  { rewrite <- pow2_inject by lia. rewrite <- Zle_Qle. exact Hg1. }
  pose proof (pow2_pos eg) as Heg. pose proof (pow2_pos (prec - 1)) as Hp1.
  destruct (Qlt_le_dec 0 a) as [Hpos | Hz].
  - assert (HL : (Qlog2 a < prec + eg)%Z) by (apply Qlog2_lt; lra).
    assert (He : (ulp_exp prec emin a <= eg)%Z).
    { unfold ulp_exp. rewrite (Qabs_nonneg_eq a) by (apply Qlt_le_weak, Hpos). lia. }
    pose proof (round_fmt_significand_le a Hpos) as Hm.
    unfold round_fmt in *. cbn [fst] in Hm. rewrite grid_value_eq.
    set (e := ulp_exp prec emin a) in *.
    destruct (Z.eq_dec e eg) as [E | NE].
    + rewrite E. apply Qmult_le_compat_r; [ | lra].
      rewrite <- Zle_Qle, <- Hg. apply rne_mono.
      apply Qmult_le_compat_r; [exact Hab | apply Qlt_le_weak, pow2_pos].
    + rewrite Zle_Qle, pow2_inject in Hm by lia.
      assert (He' : (e + 1 <= eg)%Z) by lia.
      apply pow2_le in He'. rewrite pow2_succ in He'.
      pose proof (pow2_pos e).
      assert (Hpp : 2 ^ prec == 2 * 2 ^ (prec - 1)).
      { rewrite <- pow2_succ. replace (prec - 1 + 1)%Z with prec by lia. reflexivity. }
      set (m := inject_Z (rne (a * 2 ^ (- e)))) in *.
      assert (m * 2 ^ e <= 2 ^ prec * 2 ^ e) by (apply Qmult_le_compat_r; lra).
      assert (2 ^ (prec - 1) * (2 * 2 ^ e) <= 2 ^ (prec - 1) * 2 ^ eg)
        by (apply Qmult_le_l; lra).
      assert (2 ^ (prec - 1) * 2 ^ eg <= inject_Z g * 2 ^ eg)
        by (apply Qmult_le_compat_r; lra).
      rewrite Hpp in *. lra.
  - rewrite (round_fmt_zero a) by lra.
    apply Qmult_le_0_compat; lra.
Qed.

End Format.

(** Rounding the magnitude and keeping the sign. *)

Lemma round_nearest_spec (prec emin : Z) (q : Q) :
  let r := round_nearest prec emin q in
  Qabs r == grid_value (round_fmt prec emin (Qabs q)) /\
  Qabs (r - q) <= Qabs q * 2 ^ (- prec) + 2 ^ (emin - 1) /\
  (0 <= q -> 0 <= r) /\ (q <= 0 -> r <= 0).
Proof.
  intros r. subst r. unfold round_nearest.
  pose proof (round_fmt_nonneg prec emin (Qabs q) (Qabs_nonneg q)) as Hv.
  pose proof (round_fmt_error prec emin (Qabs q) (Qabs_nonneg q)) as He.
  set (v := grid_value (round_fmt prec emin (Qabs q))) in *.
  set (B := Qabs q * 2 ^ (- prec) + 2 ^ (emin - 1)) in *.
  destruct (Qle_bool 0 q) eqn:E.
  - apply Qle_bool_iff in E. rewrite (Qabs_pos q E) in He.
    split; [apply Qabs_pos; exact Hv | ].
    split; [exact He | ].
    split; [intros _; exact Hv | ].
    intros Hq. unfold v. rewrite round_fmt_zero; [lra | ].
    rewrite Qabs_pos by exact E. lra.
  - assert (Hq : q < 0).
    { apply Qnot_le_lt; intro Hc. apply Qle_bool_iff in Hc. congruence. }
    rewrite (Qabs_neg q) in He by lra.
    rewrite (Qred_correct (- v)).
    split; [rewrite Qabs_opp; apply Qabs_pos; exact Hv | ].
    split; [ | split; intros; lra].
    apply Qabs_Qle_condition in He. apply Qabs_Qle_condition. lra.
Qed.

(** ** Operations of binary32 *)

Module F32Facts.

(** A value within the range of binary32 rounds to a finite element, with
    the relative and absolute errors of the standard model. *)
Lemma round_finite (q : Q) :
  Qabs q <= F32.max_value ->
  exists r, F32.round q = Fin r /\ Qabs r <= F32.max_value /\
            Qabs (r - q) <= Qabs q * F32.u + F32.eta /\
            (0 <= q -> 0 <= r) /\ (q <= 0 -> r <= 0).
Proof.
  intros Hq. unfold F32.round.
  destruct (round_nearest_spec F32.prec F32.emin q) as (Ha & He & Hs).
  set (r := round_nearest F32.prec F32.emin q) in *.
  assert (Hr : Qabs r <= F32.max_value).
  { rewrite Ha.
    pose proof (round_fmt_le_grid F32.prec F32.emin eq_refl (Qabs q) F32.max_value
                  (2 ^ 24 - 1) 104 (Qabs_nonneg q) Hq) as H.
    assert (E : inject_Z (2 ^ 24 - 1) * 2 ^ 104 == F32.max_value) by reflexivity.
    rewrite <- E. apply H.
    - reflexivity.
    - unfold F32.emin. lia.
    - vm_compute. reflexivity.
    - vm_compute. discriminate. }
  exists r. apply Qle_bool_iff in Hr. rewrite Hr.
  apply Qle_bool_iff in Hr. repeat split; tauto.
Qed.

End F32Facts.

(** ** The E4M3 cast *)

Module E4M3Facts.

(** Every grid point of E4M3 up to 448 has a code, and widening the code
    gives the grid point back. *)
Lemma to_f32_pack (neg : bool) (m e : Z) :
  (0 <= m <= 16)%Z -> (-9 <= e <= 5)%Z -> (8 <= m \/ e = -9)%Z ->
  grid_value (m, e) <= E4M3.finfo_max ->
  E4M3.to_f32 (E4M3.pack neg m e)
  = Fin (Qred (if neg then - grid_value (m, e) else grid_value (m, e))).
Proof.
  intros Hm He Hn Hv.
  assert (Hm' : In m [0; 1; 2; 3; 4; 5; 6; 7; 8; 9; 10; 11; 12; 13; 14; 15; 16]%Z)
    by (cbn; lia).
  assert (He' : In e [-9; -8; -7; -6; -5; -4; -3; -2; -1; 0; 1; 2; 3; 4; 5]%Z)
    by (cbn; lia).
  cbn in Hm', He'.
  repeat (destruct Hm' as [<- | Hm']; [ | ]); try contradiction;
    repeat (destruct He' as [<- | He']; [ | ]); try contradiction;
    try (exfalso; lia);
    try (exfalso; apply Qle_bool_iff in Hv; vm_compute in Hv; discriminate);
    destruct neg; vm_compute; reflexivity.
Qed.

End E4M3Facts.

Module E4M3Cast.
Import E4M3Facts.

(** The exponent of the last place of a value the format can hold. *)
Lemma ulp_exp_le_5 (a : Q) :
  0 < a -> a <= 464 -> (ulp_exp E4M3.prec E4M3.emin a <= 5)%Z.
Proof.
  intros Ha Hb. unfold ulp_exp. rewrite (Qabs_nonneg_eq a) by lra.
  assert (Qlog2 a < 9)%Z by (apply Qlog2_lt; [exact Ha | ]; 
    apply Qle_lt_trans with (1 := Hb); reflexivity).
  unfold E4M3.prec, E4M3.emin. lia.
Qed.

(** [x.to(DTYPE).float()] on a value of magnitude at most 464: the result is
    finite, of magnitude at most 448, and within half a unit in the last
    place, which is at most [2 ^ 5]. *)
Lemma cast_spec (y : Q) :
  Qabs y <= 464 ->
  exists w, E4M3.to_f32 (E4M3.of_f32 (Fin y)) = Fin w /\
            Qabs w <= E4M3.finfo_max /\
            Qabs (w - y) <= 16.
Proof.
  intros Hy. unfold E4M3.of_f32.
  set (a := Qabs y) in *.
  assert (Ha0 : 0 <= a) by apply Qabs_nonneg.
  pose proof (round_fmt_le_grid E4M3.prec E4M3.emin eq_refl a 464 14 5 Ha0 Hy)
    as Hle.
  assert (Hv : grid_value (round_fmt E4M3.prec E4M3.emin a) <= E4M3.finfo_max).
  { apply Hle; [reflexivity | unfold E4M3.emin; lia | vm_compute; reflexivity
               | vm_compute; discriminate]. }
  clear Hle.
  pose proof (round_fmt_nonneg E4M3.prec E4M3.emin a Ha0) as Hv0.
  pose proof (round_fmt_half_ulp E4M3.prec E4M3.emin a) as Herr.
  destruct (round_fmt E4M3.prec E4M3.emin a) as [m e] eqn:Erf.
  pose proof Hv as Hvb. apply Qle_bool_iff in Hvb. rewrite Hvb. clear Hvb.
  assert (Hw : exists v, E4M3.to_f32 (E4M3.pack (F32.is_neg y) m e)
                         = Fin (Qred (if F32.is_neg y then - v else v)) /\
                         0 <= v <= E4M3.finfo_max /\ Qabs (v - a) <= 16).
  { destruct (Qlt_le_dec 0 a) as [Hpos | Hz].
    - exists (grid_value (m, e)).
      pose proof (round_fmt_significand_le E4M3.prec E4M3.emin eq_refl a Hpos) as Hm1.
      pose proof (round_fmt_significand_ge E4M3.prec E4M3.emin eq_refl a Hpos) as Hm2.
      pose proof (ulp_exp_le_5 a Hpos Hy) as He5.
      pose proof (ulp_exp_ge_emin E4M3.prec E4M3.emin a) as He9.
      assert (Hm0 : (0 <= m)%Z).
      { replace m with (fst (round_fmt E4M3.prec E4M3.emin a)) by (rewrite Erf; reflexivity).
        unfold round_fmt. cbn [fst]. apply rne_nonneg.
        apply Qmult_le_0_compat; [exact Ha0 | apply Qlt_le_weak, pow2_pos]. }
      assert (Ee : ulp_exp E4M3.prec E4M3.emin a = e).
      { unfold round_fmt in Erf. congruence. }
      rewrite Erf in Hm1, Hm2. cbn [fst] in Hm1, Hm2. rewrite Ee in *.
      unfold E4M3.prec, E4M3.emin in *.
      split; [ | split; [split; assumption | ]].
      + change (2 ^ (4 - 1))%Z with 8%Z in Hm2. change (2 ^ 4)%Z with 16%Z in Hm1.
        apply to_f32_pack; [lia | lia | lia | assumption].
      + eapply Qle_trans; [exact Herr | ].
        apply pow2_le in He5. change (2 ^ 5) with 32 in He5. 
        hide_pow2. lra.
    - exists 0. assert (Ea : a == 0) by lra.
      assert (Em : m = 0%Z).
      { replace m with (fst (round_fmt E4M3.prec E4M3.emin a)) by (rewrite Erf; reflexivity).
        unfold round_fmt. cbn [fst]. rewrite <- (rne_Z 0). apply rne_compat.
        transitivity (0 * 2 ^ (- ulp_exp E4M3.prec E4M3.emin a)); [ | ring].
        apply Qmult_comp; [exact Ea | reflexivity]. }
      subst m. split; [ | split].
      + destruct (F32.is_neg y); reflexivity.
      + unfold E4M3.finfo_max. lra.
      + apply Qabs_Qle_condition. lra. }
  destruct Hw as (v & Hw & Hvr & Hva).
  exists (Qred (if F32.is_neg y then - v else v)). split; [exact Hw | ].
  rewrite Qred_correct. unfold F32.is_neg.
  destruct (Qle_bool 0 y) eqn:E; cbn [negb].
  - apply Qle_bool_iff in E. unfold a in Hva. rewrite (Qabs_pos y E) in Hva.
    split; [rewrite Qabs_pos; lra | exact Hva].
  - assert (Hq : y < 0).
    { apply Qnot_le_lt; intro Hc. apply Qle_bool_iff in Hc. congruence. }
    unfold a in Hva. rewrite (Qabs_neg y) in Hva by lra.
    split; [rewrite Qabs_opp, Qabs_pos; lra | ].
    apply Qabs_Qle_condition in Hva. apply Qabs_Qle_condition. lra.
Qed.

End E4M3Cast.

(** ** One block *)

Lemma Qabs_mult_le (a b c : Q) :
  Qabs a <= c -> 0 <= b -> Qabs (a * b) <= c * b.
Proof.
  intros Ha Hb. rewrite Qabs_Qmult, (Qabs_pos b Hb).
  apply Qmult_le_compat_r; assumption.
Qed.

Lemma is_zero_pos (q : Q) : 0 < q -> F32.is_zero q = false.
Proof.
  intros H. unfold F32.is_zero. destruct (Qeq_bool q 0) eqn:E; [ | reflexivity].
  apply Qeq_bool_iff in E. lra.
Qed.

Module BlockFacts.
Import F32Facts E4M3Cast.

Lemma clip_min_eq : clip_min = Fin clip_min_value.
Proof. vm_compute. reflexivity. Qed.

Lemma of_pyfloat_max : F32.of_pyfloat E4M3.finfo_max = Fin 448.
Proof. vm_compute. reflexivity. Qed.

Lemma u_eq : F32.u == 1 # 16777216.
Proof. reflexivity. Qed.

Lemma eta_eq : F32.eta == 1 # 1427247692705959881058285969449495136382746624.
Proof. reflexivity. Qed.

(** The scale of a block whose clipped maximum is [C]. *)
Lemma scale_spec (C : Q) :
  clip_min_value <= C -> C <= F32.max_value ->
  exists S, F32.div (Fin C) (F32.of_pyfloat E4M3.finfo_max) = Fin S /\
            (1 # 500000000000000) <= S /\
            448 * S <= F32.max_value /\
            C <= (448 + (1 # 10000)) * S.
Proof.
  intros Hc0 Hmax. rewrite of_pyfloat_max. unfold F32.div.
  rewrite (is_zero_pos 448) by reflexivity.
  assert (Hq : 0 <= C / 448).
  { change (C / 448) with (C * (1 # 448)). unfold clip_min_value in Hc0. lra. }
  unfold F32.round.
  destruct (round_nearest_spec F32.prec F32.emin (C / 448)) as (Ha & He & Hs & _).
  set (r := round_nearest F32.prec F32.emin (C / 448)) in *.
  specialize (Hs Hq).
  assert (Hr : r <= 759558809461001919222553980992225280).
  { rewrite <- (Qabs_pos r Hs), Ha, (Qabs_nonneg_eq _ Hq).
    assert (E : inject_Z 9586980 * 2 ^ 96 == 759558809461001919222553980992225280)
      by reflexivity.
    rewrite <- E.
    apply (round_fmt_le_grid F32.prec F32.emin eq_refl (C / 448)
             759558809461001919222553980992225280 9586980 96).
    - exact Hq.
    - unfold F32.max_value in Hmax. 
      assert (Em : (2 ^ 24 - 1) * 2 ^ 104 == 340282346638528859811704183484516925440) by reflexivity.
      rewrite Em in Hmax. change (C / 448) with (C * (1 # 448)). lra.
    - reflexivity.
    - unfold F32.emin. lia.
    - vm_compute. reflexivity.
    - vm_compute. discriminate. }
  assert (Em : F32.max_value == 340282346638528859811704183484516925440) by reflexivity.
  assert (Hrm : Qabs r <= F32.max_value) by (rewrite (Qabs_pos r Hs), Em; lra).
  exists r. apply Qle_bool_iff in Hrm. rewrite Hrm. split; [reflexivity | ].
  rewrite (Qabs_pos _ Hq) in He. apply Qabs_Qle_condition in He.
  change (2 ^ (- F32.prec)) with F32.u in He.
  change (2 ^ (F32.emin - 1)) with F32.eta in He.
  rewrite u_eq, eta_eq in He. rewrite Em. unfold clip_min_value in Hc0.
  change (C / 448) with (C * (1 # 448)) in *.
  repeat split; lra.
Qed.

(** One element through [quantize_fp8] and [dequantize], in a block whose
    scale is [S]. *)
Lemma element_round_trip (C S x : Q) :
  (1 # 500000000000000) <= S -> 448 * S <= F32.max_value ->
  C <= (448 + (1 # 10000)) * S -> Qabs x <= C ->
  exists y w d,
    F32.div (Fin x) (Fin S) = Fin y /\
    E4M3.to_f32 (E4M3.of_f32 (Fin y)) = Fin w /\
    F32.mul (Fin w) (Fin S) = Fin d /\
    Qabs (d - x) <= (16 + (1 # 1000)) * S.
Proof.
  intros HS Hmax HC Hx.
  assert (HSpos : 0 < S) by lra.
  assert (Em : F32.max_value == 340282346638528859811704183484516925440) by reflexivity.
  unfold F32.div. rewrite (is_zero_pos S HSpos).
  assert (Hq : Qabs (x / S) <= 448 + (1 # 10000)).
  { unfold Qdiv. rewrite Qabs_Qmult, Qabs_Qinv, (Qabs_pos S) by lra.
    apply Qle_shift_div_r; [exact HSpos | lra]. }
  destruct (round_finite (x / S)) as (y & Ey & _ & Hy & _).
  { rewrite Em. lra. }
  rewrite u_eq, eta_eq in Hy.
  assert (Hy464 : Qabs y <= 464).
  { pose proof Hq as Hq'. apply Qabs_Qle_condition in Hq'.
    apply Qabs_Qle_condition in Hy. apply Qabs_Qle_condition.
    set (t := x / S) in *. lra. }
  destruct (cast_spec y Hy464) as (w & Ew & Hw & Hwy).
  unfold E4M3.finfo_max in Hw.
  assert (Hws : Qabs (w * S) <= 448 * S) by (apply Qabs_mult_le; lra).
  destruct (round_finite (w * S)) as (d & Ed & _ & Hd & _).
  { lra. }
  rewrite u_eq, eta_eq in Hd.
  exists y, w, d. rewrite Ey, Ew. cbn [F32.mul]. rewrite Ed.
  repeat split.
  assert (H2 : Qabs ((w - y) * S) <= 16 * S) by (apply Qabs_mult_le; lra).
  assert (H3 : Qabs ((y - x / S) * S)
               <= ((448 + (1 # 10000)) * (1 # 16777216)
                   + (1 # 1427247692705959881058285969449495136382746624)) * S).
  { apply Qabs_mult_le; [ | lra]. set (t := x / S) in *. lra. }
  assert (E : d - x == (d - w * S) + (w - y) * S + (y - x / S) * S)
    by (field; lra).
  rewrite E.
  apply Qabs_Qle_condition in Hd, H2, H3. apply Qabs_Qle_condition.
  set (e1 := d - w * S) in *. set (e2 := (w - y) * S) in *.
  set (e3 := (y - x / S) * S) in *. set (ws := w * S) in *. 
  lra.
Qed.

End BlockFacts.

(** ** Rows *)

Section Rows.

Context {A : Type}.

Lemma rows_of_spec (r n : nat) (l : list A) :
  length l = (r * n)%nat ->
  length (rows_of r n l) = r /\
  Forall (fun row => length row = n) (rows_of r n l) /\
  concat (rows_of r n l) = l.
Proof.
  revert l. induction r as [ | r IH]; intros l Hl; cbn [rows_of].
  - destruct l; [ | discriminate]. repeat split. constructor.
  - destruct (IH (skipn n l)) as (H1 & H2 & H3).
    { rewrite length_skipn. lia. }
    repeat split.
    + cbn. rewrite H1. reflexivity.
    + constructor; [ | exact H2]. rewrite length_firstn. lia.
    + cbn. rewrite H3. apply firstn_skipn.
Qed.

Lemma rows_of_concat (n : nat) (rows : list (list A)) :
  Forall (fun row => length row = n) rows ->
  rows_of (length rows) n (concat rows) = rows.
Proof.
  induction 1 as [ | row rows Hrow _ IH]; [reflexivity | ].
  cbn [length rows_of concat].
  rewrite firstn_app, skipn_app, Hrow, Nat.sub_diag, firstn_all2, skipn_all2 by lia.
  cbn. rewrite app_nil_r. f_equal. exact IH.
Qed.

Lemma length_concat_rows (n : nat) (rows : list (list A)) :
  Forall (fun row => length row = n) rows ->
  length (concat rows) = (length rows * n)%nat.
Proof.
  induction 1 as [ | row rows Hrow _ IH]; [reflexivity | ].
  cbn. rewrite length_app, IH, Hrow. reflexivity.
Qed.

Lemma nth_error_concat_rows (n : nat) (rows : list (list A)) (i : nat) :
  (0 < n)%nat -> Forall (fun row => length row = n) rows ->
  nth_error (concat rows) i
  = match nth_error rows (i / n) with
    | Some row => nth_error row (i mod n)
    | None => None
    end.
Proof.
  intros Hn Hrows. revert i.
  induction Hrows as [ | row rows Hrow _ IH]; intros i.
  - cbn. destruct (i / n)%nat; destruct i; reflexivity.
  - cbn [concat]. destruct (Nat.lt_ge_cases i n) as [Hlt | Hge].
    + rewrite nth_error_app1 by lia.
      rewrite Nat.div_small, Nat.mod_small by exact Hlt. reflexivity.
    + rewrite nth_error_app2 by lia. rewrite Hrow, IH.
      assert (Ei : i = (i - n + 1 * n)%nat) by lia.
      assert (Ed : (i / n = S ((i - n) / n))%nat).
      { rewrite Ei at 1. rewrite Nat.div_add by lia. lia. }
      assert (Em : (i mod n = (i - n) mod n)%nat).
      { rewrite Ei at 1. apply Nat.Div0.mod_add. }
      rewrite Ed, Em. reflexivity.
Qed.

(** What [view_rows] returns. *)
Lemma view_rows_spec (l : list A) (bs : Z) (rows : list (list A)) :
  view_rows l bs = Ok rows ->
  (0 < bs)%Z /\
  Z.of_nat (length rows) = (Z.of_nat (length l) / bs)%Z /\
  Forall (fun row => length row = Z.to_nat bs) rows /\
  concat rows = l.
Proof.
  unfold view_rows. intros H.
  destruct (bs <=? 0)%Z eqn:E1; [discriminate | ].
  destruct (Z.of_nat (length l) mod bs =? 0)%Z eqn:E2; [ | discriminate].
  cbn in H. injection H as <-.
  apply Z.leb_gt in E1. apply Z.eqb_eq in E2.
  assert (Hlen : length l = (Z.to_nat (Z.of_nat (length l) / bs) * Z.to_nat bs)%nat).
  { rewrite <- Z2Nat.inj_mul by (try apply Z.div_pos; lia).
    apply Z.div_exact in E2; [ | lia].
    rewrite Z.mul_comm, <- E2. rewrite Nat2Z.id. reflexivity. }
  destruct (rows_of_spec _ _ _ Hlen) as (H1 & H2 & H3).
  repeat split; try assumption.
  rewrite H1. rewrite Z2Nat.id; [reflexivity | apply Z.div_pos; lia].
Qed.

Lemma view_rows_ok (l : list A) (bs : Z) :
  (0 < bs)%Z -> (Z.of_nat (length l) mod bs = 0)%Z ->
  exists rows, view_rows l bs = Ok rows.
Proof.
  intros H1 H2. unfold view_rows.
  apply Z.leb_gt in H1. apply Z.eqb_eq in H2. rewrite H1, H2. cbn. eauto.
Qed.

(** Rows put back together are viewed as the same rows. *)
Lemma view_rows_concat (rows : list (list A)) (bs : Z) :
  (0 < bs)%Z -> Forall (fun row => length row = Z.to_nat bs) rows ->
  view_rows (concat rows) bs = Ok rows.
Proof.
  intros Hbs Hrows. unfold view_rows.
  rewrite (length_concat_rows _ _ Hrows).
  rewrite Nat2Z.inj_mul, Z2Nat.id by lia.
  rewrite Z.mod_mul, Z.div_mul by lia.
  apply Z.leb_gt in Hbs. rewrite Hbs. cbn.
  rewrite Nat2Z.id. f_equal. apply rows_of_concat. exact Hrows.
Qed.

End Rows.

(** ** Maps over rows *)

Lemma map2_map_r {A B C : Type} (f : A -> B -> C) (g : A -> B) (l : list A) :
  map2 f l (map g l) = map (fun a => f a (g a)) l.
Proof. induction l as [ | a l IH]; [reflexivity | ]. cbn. f_equal. exact IH. Qed.

Lemma map2_map_l {A A' B C : Type} (f : A' -> B -> C) (h : A -> A') (g : A -> B)
    (l : list A) :
  map2 f (map h l) (map g l) = map (fun a => f (h a) (g a)) l.
Proof. induction l as [ | a l IH]; [reflexivity | ]. cbn. f_equal. exact IH. Qed.

Lemma Forall_map_length {A B : Type} (f : list A -> list B) (n : nat)
    (rows : list (list A)) :
  (forall row, length (f row) = length row) ->
  Forall (fun row => length row = n) rows ->
  Forall (fun row => length row = n) (map f rows).
Proof.
  intros Hf H. induction H; constructor; [rewrite Hf | ]; assumption.
Qed.

(** ** The reductions over a row *)

Module CodecFacts.
Import F32Facts BlockFacts.

Lemma bounded_by_le (A B : Q) (x : f32) :
  A <= B -> bounded_by A x -> bounded_by B x.
Proof. intros H (q & -> & Hq). exists q. split; [reflexivity | lra]. Qed.

Lemma max_fin (a b : Q) :
  F32.max (Fin a) (Fin b) = if Qle_bool b a then Fin a else Fin b.
Proof. unfold F32.max, F32.ltb. destruct (Qle_bool b a); reflexivity. Qed.

Lemma fold_max_spec (r : list f32) (a : Q) :
  0 <= a -> a <= F32.max_value -> Forall finite32 r ->
  exists A, fold_left F32.max (map F32.abs r) (Fin a) = Fin A /\
            a <= A /\ A <= F32.max_value /\ Forall (bounded_by A) r.
Proof.
  intros Ha0 HaM Hr. revert a Ha0 HaM.
  induction Hr as [ | x r Hx _ IH]; intros a Ha0 HaM.
  - exists a. cbn. repeat split; try lra. constructor.
  - destruct x as [q | | ]; try contradiction. cbn in Hx.
    cbn [map fold_left F32.abs]. rewrite max_fin.
    pose proof (Qred_correct (Qabs q)) as Eq.
    destruct (Qle_bool (Qred (Qabs q)) a) eqn:E.
    + apply Qle_bool_iff in E. rewrite Eq in E.
      destruct (IH a Ha0 HaM) as (A & HA & H1 & H2 & H3).
      exists A. repeat split; try assumption.
      constructor; [ | exact H3]. exists q. split; [reflexivity | lra].
    + assert (Hlt : a < Qabs q).
      { apply Qnot_le_lt; intro Hc. rewrite <- Eq in Hc.
        apply Qle_bool_iff in Hc. congruence. }
      destruct (IH (Qred (Qabs q))) as (A & HA & H1 & H2 & H3).
      { rewrite Eq. apply Qabs_nonneg. }
      { rewrite Eq. exact Hx. }
      rewrite Eq in H1.
      exists A. repeat split; try assumption; try lra.
      constructor; [ | exact H3]. exists q. split; [reflexivity | lra].
Qed.

(** The largest magnitude of a non-empty row of finite elements. *)
Lemma amax_abs_spec (row : list f32) :
  row <> [] -> Forall finite32 row ->
  exists A, amax (map F32.abs row) = Fin A /\
            0 <= A /\ A <= F32.max_value /\ Forall (bounded_by A) row.
Proof.
  intros Hne Hrow. destruct row as [ | x r]; [contradiction | ].
  inversion Hrow as [ | ? ? Hx Hr]; subst.
  destruct x as [q | | ]; try contradiction. cbn in Hx.
  pose proof (Qred_correct (Qabs q)) as Eq.
  destruct (fold_max_spec r (Qred (Qabs q))) as (A & HA & H1 & H2 & H3).
  { rewrite Eq. apply Qabs_nonneg. }
  { rewrite Eq. exact Hx. }
  { exact Hr. }
  rewrite Eq in H1. pose proof (Qabs_nonneg q).
  exists A. repeat split; try assumption; try lra.
  constructor; [ | exact H3]. exists q. split; [reflexivity | exact H1].
Qed.

(** The scale of a non-empty block of finite elements is finite and
    positive, and the block fits 448 scales but for rounding. *)
Lemma block_scale_spec (row : list f32) :
  row <> [] -> Forall finite32 row ->
  exists S, block_scale row = Fin S /\
            (1 # 500000000000000) <= S /\
            448 * S <= F32.max_value /\
            Forall (bounded_by ((448 + (1 # 10000)) * S)) row.
Proof.
  intros Hne Hrow.
  destruct (amax_abs_spec row Hne Hrow) as (A & EA & HA0 & HAM & HA).
  unfold block_scale. rewrite EA. unfold clip. rewrite clip_min_eq, max_fin.
  assert (Hc0M : clip_min_value <= F32.max_value) by (vm_compute; discriminate).
  destruct (Qle_bool clip_min_value A) eqn:E.
  - apply Qle_bool_iff in E.
    destruct (scale_spec A E HAM) as (S & ES & H1 & H2 & H3).
    exists S. repeat split; try assumption.
    eapply Forall_impl; [ | exact HA]. intros x. apply bounded_by_le. exact H3.
  - assert (Hlt : A < clip_min_value).
    { apply Qnot_le_lt; intro Hc. apply Qle_bool_iff in Hc. congruence. }
    destruct (scale_spec clip_min_value (Qle_refl _) Hc0M) as (S & ES & H1 & H2 & H3).
    exists S. repeat split; try assumption.
    eapply Forall_impl; [ | exact HA]. intros x. apply bounded_by_le. lra.
Qed.

End CodecFacts.

(** ** Encoding and decoding, row by row *)

Module RoundTrip.
Import CodecFacts.

Section WithRuntime.

Variable rt : Runtime.

(** [quantize_fp8] without range expansion, block by block. *)
Lemma quantize_fp8_plain (input : tensor f32) (bs : Z) (rows : list (list f32)) :
  view_rows (data input) bs = Ok rows ->
  quantize_fp8 rt input bs false
  = Ok (mkTensor (shape input)
          (map E4M3.of_f32
             (concat (map (fun row => map (fun x => F32.div x (block_scale row)) row)
                        rows))),
        vec (map block_scale rows), None).
Proof.
  intros H. unfold quantize_fp8. rewrite H. cbn [bind].
  rewrite map2_map_r. reflexivity.
Qed.

(** [dequantize] of a state without [k] whose codes make as many rows as
    there are scales. *)
Lemma dequantize_plain (st : OptimStateFp8) (rows : list (list f32)) :
  k st = None ->
  view_rows (map E4M3.to_f32 (data (codes st))) (block_size st) = Ok rows ->
  length rows = length (data (scale st)) ->
  dequantize rt st None
  = view_shape (map2 (fun row s => map (fun a => F32.mul a s) row) rows
                  (data (scale st)))
      (shape (codes st)) (numel (codes st)).
Proof.
  intros Hk Hv Hlen. unfold dequantize. rewrite Hv. cbn [bind].
  unfold broadcast_rows. rewrite Hlen, Nat.eqb_refl. cbn [bind].
  rewrite Hk. reflexivity.
Qed.

(** Encoding then decoding, block by block. *)
Lemma round_trip_rows (input : tensor f32) (bs : Z) (rows : list (list f32)) :
  view_rows (data input) bs = Ok rows -> rows <> [] ->
  let enc := fun row : list f32 =>
               map (fun x => F32.div x (block_scale row)) row in
  let qc := mkTensor (shape input) (map E4M3.of_f32 (concat (map enc rows))) in
  let qs := vec (map block_scale rows) in
  let st := mkOptimStateFp8 qc qs None bs in
  quantize_fp8 rt input bs false = Ok (qc, qs, None) /\
  OptimStateFp8_init qc qs = Ok st /\
  dequantize rt st None
  = Ok (mkTensor (shape input)
          (concat (map (fun row => map (round_trip_elem (block_scale row)) row)
                     rows))).
Proof.
  intros Hv Hne enc qc qs st.
  destruct (view_rows_spec _ _ _ Hv) as (Hbs & Hlen & Hrows & Hcat).
  assert (Henc : Forall (fun row => length row = Z.to_nat bs) (map enc rows)).
  { apply Forall_map_length; [ | exact Hrows]. intros row. apply length_map. }
  assert (Hr : (0 < length rows)%nat) by (destruct rows; [contradiction | cbn; lia]).
  assert (Hn : numel qc = (Z.of_nat (length rows) * bs)%Z).
  { unfold numel, qc. cbn [data]. rewrite length_map.
    rewrite (length_concat_rows _ _ Henc), length_map, Nat2Z.inj_mul, Z2Nat.id by lia.
    reflexivity. }
  assert (Hm : numel qs = Z.of_nat (length rows)).
  { unfold numel, qs, vec. cbn [data]. rewrite length_map. reflexivity. }
  split; [exact (quantize_fp8_plain input bs rows Hv) | ].
  split.
  { unfold OptimStateFp8_init. unfold ndim at 1. unfold qs at 1.
    cbn [shape vec length Nat.eqb negb].
    rewrite Hm, Hn. replace (Z.of_nat (length rows) =? 0)%Z with false
      by (symmetry; apply Z.eqb_neq; lia).
    rewrite Z.mul_comm, Z.div_mul by lia. reflexivity. }
  set (dec := fun row : list f32 => map E4M3.to_f32 (map E4M3.of_f32 row)).
  assert (Hview : view_rows (map E4M3.to_f32 (data qc)) bs
                  = Ok (map dec (map enc rows))).
  { unfold qc. cbn [data]. rewrite !concat_map.
    rewrite (map_map (map E4M3.of_f32) (map E4M3.to_f32)).
    change (fun x => map E4M3.to_f32 (map E4M3.of_f32 x)) with dec.
    apply view_rows_concat; [exact Hbs | ].
    apply Forall_map_length; [ | exact Henc].
    intros row. unfold dec. rewrite !length_map. reflexivity. }
  rewrite (dequantize_plain st (map dec (map enc rows))).
  - unfold st. cbn [scale codes]. unfold qs at 1. cbn [data shape vec].
    unfold qc at 1. cbn [shape].
    rewrite map_map, map2_map_l.
    unfold view_shape.
    assert (E : map (fun a => map (fun a0 => F32.mul a0 (block_scale a)) (dec (enc a))) rows
                = map (fun row => map (round_trip_elem (block_scale row)) row) rows).
    { apply map_ext. intros row. unfold dec, enc. rewrite !map_map. reflexivity. }
    rewrite E.
    assert (Hl : Forall (fun row => length row = Z.to_nat bs)
                   (map (fun row => map (round_trip_elem (block_scale row)) row) rows)).
    { apply Forall_map_length; [ | exact Hrows]. intros row. apply length_map. }
    rewrite (length_concat_rows _ _ Hl), length_map, Hn.
    rewrite Nat2Z.inj_mul, Z2Nat.id, Z.eqb_refl by lia. reflexivity.
  - reflexivity.
  - exact Hview.
  - unfold st. cbn [scale]. unfold qs. cbn [vec data]. rewrite !length_map. reflexivity.
Qed.

(** With range expansion the call raises before any scale is computed. *)
Lemma quantize_fp8_expand_raises (input : tensor f32) (bs : Z) :
  exists e, quantize_fp8 rt input bs true = Raise e.
Proof.
  unfold quantize_fp8. destruct (view_rows (data input) bs) as [rows | e];
    [ | exists e; reflexivity].
  cbn [bind]. destruct (aten_ones rt (length rows)) as [t | e];
    [ | exists e; reflexivity].
  exists TypeError. reflexivity.
Qed.

End WithRuntime.

End RoundTrip.

Import CodecFacts RoundTrip.

(** * Claims *)

(** ** Helpers *)

Lemma rows_finite (l : list f32) (bs : Z) (rows : list (list f32)) :
  view_rows l bs = Ok rows -> Forall finite32 l ->
  Forall (fun row => row <> [] /\ Forall finite32 row) rows.
Proof.
  intros Hv Hl. destruct (view_rows_spec _ _ _ Hv) as (Hbs & _ & Hrows & Hcat).
  rewrite <- Hcat in Hl. apply Forall_concat in Hl.
  apply Forall_forall. intros row Hin.
  rewrite Forall_forall in Hrows, Hl. split; [ | apply Hl; exact Hin].
  specialize (Hrows row Hin). destruct row; [cbn in Hrows; lia | discriminate].
Qed.

Lemma spec_block_finite : Forall finite32 (data spec_block).
Proof. repeat constructor; vm_compute; discriminate. Qed.

Lemma view_rows_raises {A : Type} (l : list A) (bs : Z) (e : exn) :
  view_rows l bs = Raise e -> e = RuntimeError.
Proof.
  unfold view_rows.
  destruct ((bs <=? 0)%Z || negb (Z.of_nat (length l) mod bs =? 0)%Z); congruence.
Qed.

(** One block: the whole list is the only row. *)
Lemma view_rows_single {A : Type} (l : list A) :
  l <> [] -> view_rows l (Z.of_nat (length l)) = Ok [l].
Proof.
  intros Hne. rewrite <- (app_nil_r l) at 1. change (l ++ []) with (concat [l]).
  apply view_rows_concat.
  - destruct l; [contradiction | cbn; lia].
  - constructor; [ | constructor]. rewrite Nat2Z.id. reflexivity.
Qed.

Lemma concat_repeat {A : Type} (x : A) (n m : nat) :
  concat (repeat (repeat x n) m) = repeat x (m * n).
Proof.
  induction m as [ | m IH]; [reflexivity | ].
  cbn. rewrite IH, repeat_app. reflexivity.
Qed.

Lemma fold_max_zeros (b : nat) :
  fold_left F32.max (repeat F32.zero b) F32.zero = F32.zero.
Proof. induction b as [ | b IH]; [reflexivity | exact IH]. Qed.

Lemma block_scale_zeros (b : nat) :
  block_scale (repeat F32.zero (S b)) = zero_block_scale.
Proof.
  unfold block_scale, zero_block_scale, amax, reduce.
  rewrite map_repeat. change (F32.abs F32.zero) with F32.zero.
  cbn [repeat]. rewrite fold_max_zeros.
  replace (clip F32.zero) with clip_min by (vm_compute; reflexivity).
  reflexivity.
Qed.

Lemma view_rows_zeros {A : Type} (x : A) (nb b : nat) :
  view_rows (repeat x (nb * S b)) (Z.of_nat (S b))
  = Ok (repeat (repeat x (S b)) nb).
Proof.
  rewrite <- concat_repeat. apply view_rows_concat; [lia | ].
  apply Forall_forall. intros row Hin. apply repeat_spec in Hin. subst row.
  rewrite repeat_length, Nat2Z.id. reflexivity.
Qed.

Lemma zeros_codes (nb b : nat) :
  map E4M3.of_f32
    (concat (map (fun row => map (fun x => F32.div x (block_scale row)) row)
               (repeat (repeat F32.zero (S b)) nb)))
  = repeat (0%Z : fp8) (nb * S b).
Proof.
  assert (Hdiv : F32.div F32.zero zero_block_scale = F32.zero)
    by (vm_compute; reflexivity).
  assert (Hof : E4M3.of_f32 F32.zero = (0%Z : fp8)) by (vm_compute; reflexivity).
  rewrite !map_repeat. cbv beta.
  rewrite block_scale_zeros, Hdiv, concat_repeat, map_repeat, Hof. reflexivity.
Qed.

Lemma zeros_scales (nb b : nat) :
  map block_scale (repeat (repeat F32.zero (S b)) nb)
  = repeat zero_block_scale nb.
Proof. rewrite map_repeat, block_scale_zeros. reflexivity. Qed.

Lemma zeros_decoded (nb b : nat) :
  concat (map (fun row => map (round_trip_elem (block_scale row)) row)
            (repeat (repeat F32.zero (S b)) nb))
  = repeat F32.zero (nb * S b).
Proof.
  assert (Helem : round_trip_elem zero_block_scale F32.zero = F32.zero)
    by (vm_compute; reflexivity).
  rewrite !map_repeat. cbv beta.
  rewrite block_scale_zeros, Helem, concat_repeat. reflexivity.
Qed.

(** Encoding then decoding, element by element. *)
Lemma round_trip_elementwise (rt : Runtime) (input : tensor f32) (bs : Z) :
  (0 < bs)%Z -> (0 < numel input)%Z -> (numel input mod bs = 0)%Z ->
  Forall finite32 (data input) ->
  exists qc qs st out,
    quantize_fp8 rt input bs false = Ok (qc, qs, None) /\
    OptimStateFp8_init qc qs = Ok st /\
    dequantize rt st None = Ok out /\
    shape out = shape input /\
    forall (i : nat) (x : Q),
      nth_error (data input) i = Some (Fin x) ->
      exists s d,
        nth_error (data qs) (i / Z.to_nat bs) = Some (Fin s) /\
        0 < s /\
        nth_error (data qc) i = Some (E4M3.of_f32 (F32.div (Fin x) (Fin s))) /\
        nth_error (data out) i = Some (Fin d) /\
        Qabs (d - x) <= (16 + (1 # 1000)) * s.
Proof.
  intros Hbs Hpos Hmod Hfin.
  destruct (view_rows_ok (data input) bs Hbs Hmod) as (rows & Hv).
  destruct (view_rows_spec _ _ _ Hv) as (_ & Hlen & Hrows & Hcat).
  assert (Hne : rows <> []).
  { intros ->. cbn in Hcat. unfold numel in Hpos. rewrite <- Hcat in Hpos.
    cbn in Hpos. lia. }
  destruct (round_trip_rows rt input bs rows Hv Hne) as (Hq & Hi & Hd).
  eexists _, _, _, _. split; [exact Hq | ]. split; [exact Hi | ].
  split; [exact Hd | ]. split; [reflexivity | ].
  intros i x Hx. cbn [data vec].
  assert (Hn : (0 < Z.to_nat bs)%nat) by lia.
  set (n := Z.to_nat bs) in *.
  rewrite <- Hcat, (nth_error_concat_rows n rows i Hn Hrows) in Hx.
  destruct (nth_error rows (i / n)) as [row | ] eqn:Erow; [ | discriminate].
  pose proof (rows_finite _ _ _ Hv Hfin) as Hrf.
  rewrite Forall_forall in Hrf.
  destruct (Hrf row (nth_error_In _ _ Erow)) as (Hrne & Hrow).
  destruct (block_scale_spec row Hrne Hrow) as (S & ES & HS & HM & HB).
  rewrite Forall_forall in HB.
  destruct (HB _ (nth_error_In _ _ Hx)) as (q & Eq & Hq').
  injection Eq as <-.
  destruct (BlockFacts.element_round_trip _ S x HS HM (Qle_refl _) Hq')
    as (y & w & d & Ey & Ew & Ed & Hb).
  exists S, d. split; [ | split; [lra | split; [ | split; [ | exact Hb]]]].
  - rewrite (map_nth_error block_scale _ _ Erow), ES. reflexivity.
  - rewrite nth_error_map, nth_error_concat_rows with (n := n);
      [ | exact Hn | apply Forall_map_length; [ | exact Hrows];
                     intros r; apply length_map ].
    rewrite nth_error_map, Erow. cbn [option_map].
    rewrite nth_error_map, Hx. cbn [option_map]. rewrite ES. reflexivity.
  - rewrite nth_error_concat_rows with (n := n);
      [ | exact Hn | apply Forall_map_length; [ | exact Hrows];
                     intros r; apply length_map ].
    rewrite nth_error_map, Erow. cbn [option_map].
    rewrite nth_error_map, Hx. cbn [option_map].
    unfold round_trip_elem. rewrite ES, Ey, Ew, Ed. reflexivity.
Qed.

(** ** The claims *)

(** C1 (as amended).  For every non-empty input of finite values whose
    element count is a multiple of a positive [block_size], encoding without
    range expansion, building the state and decoding all succeed, the output
    has the shape of the input, each code is the element divided by its
    block's scale and cast to E4M3, each scale is positive, and each decoded
    element is within [(16 + 1/1000) * scale] of the input element: half of
    the largest E4M3 step (32, for codes between 256 and 448) at the block's
    scale, plus the binary32 rounding of the two divisions and the product.
    For the block [1.0, -2.0, 0.5, 4.0] with [block_size = 4] the scale is
    [4.0 / 448], the codes are the patterns of 112, -224, 56 and 448, and
    decoding returns the block itself. *)
Theorem round_trip_error_bound :
  (forall (rt : Runtime) (input : tensor f32) (bs : Z),
      (0 < bs)%Z -> (0 < numel input)%Z -> (numel input mod bs = 0)%Z ->
      Forall finite32 (data input) ->
      exists qc qs st out,
        quantize_fp8 rt input bs false = Ok (qc, qs, None) /\
        OptimStateFp8_init qc qs = Ok st /\
        dequantize rt st None = Ok out /\
        shape out = shape input /\
        forall (i : nat) (x : Q),
          nth_error (data input) i = Some (Fin x) ->
          exists s d,
            nth_error (data qs) (i / Z.to_nat bs) = Some (Fin s) /\
            0 < s /\
            nth_error (data qc) i
            = Some (E4M3.of_f32 (F32.div (Fin x) (Fin s))) /\
            nth_error (data out) i = Some (Fin d) /\
            Qabs (d - x) <= (16 + (1 # 1000)) * s) /\
  (forall rt : Runtime,
      let s := F32.div (Fin 4) (F32.of_pyfloat E4M3.finfo_max) in
      let qc := vec (map (fun x => E4M3.of_f32 (F32.div x s)) (data spec_block)) in
      quantize_fp8 rt spec_block 4 false = Ok (qc, vec [s], None) /\
      map E4M3.to_f32 (data qc) = [Fin 112; Fin (-224); Fin 56; Fin 448] /\
      OptimStateFp8_init qc (vec [s]) = Ok (mkOptimStateFp8 qc (vec [s]) None 4) /\
      dequantize rt (mkOptimStateFp8 qc (vec [s]) None 4) None = Ok spec_block).
Proof.
  split.
  - exact round_trip_elementwise.
  - intros rt. cbv zeta.
    split; [vm_compute; reflexivity | ].
    split; [vm_compute; reflexivity | ].
    split; vm_compute; reflexivity.
Qed.

(** The bound of C1 at the block of the specification's scenario. *)
Lemma round_trip_error_bound_witness :
  ((0 < 4)%Z /\ (0 < numel spec_block)%Z /\
   (numel spec_block mod 4 = 0)%Z /\ Forall finite32 (data spec_block)) /\
  forall rt : Runtime,
  exists qc qs st out,
    quantize_fp8 rt spec_block 4 false = Ok (qc, qs, None) /\
    OptimStateFp8_init qc qs = Ok st /\
    dequantize rt st None = Ok out /\
    shape out = shape spec_block /\
    forall (i : nat) (x : Q),
      nth_error (data spec_block) i = Some (Fin x) ->
      exists s d,
        nth_error (data qs) (i / Z.to_nat 4) = Some (Fin s) /\
        0 < s /\
        nth_error (data qc) i = Some (E4M3.of_f32 (F32.div (Fin x) (Fin s))) /\
        nth_error (data out) i = Some (Fin d) /\
        Qabs (d - x) <= (16 + (1 # 1000)) * s.
Proof.
  split.
  - split; [reflexivity | ]. split; [reflexivity | ].
    split; [reflexivity | exact spec_block_finite].
  - intros rt.
    apply (proj1 round_trip_error_bound rt spec_block 4%Z);
      [reflexivity | reflexivity | reflexivity | exact spec_block_finite].
Defined.

(** C1 fails as stated.  For the block [448, 270, 0, 0] the scale is 1, the
    element 270 is encoded as 256 (the E4M3 values around it are 256 and 288)
    and decoded as 256: the error is 14 scales, not half a scale.  And the
    empty tensor, whose element count is a multiple of every block size,
    encodes to no scale at all, so that the state cannot be built. *)
Lemma half_scale_bound_fails :
  let input := vec [Fin 448; Fin 270; Fin 0; Fin 0] in
  let qc := vec [126; 120; 0; 0]%Z in
  let qs := vec [Fin 1] in
  let st := mkOptimStateFp8 qc qs None 4 in
  (forall rt, quantize_fp8 rt input 4 false = Ok (qc, qs, None)) /\
  OptimStateFp8_init qc qs = Ok st /\
  (forall rt, dequantize rt st None
              = Ok (vec [Fin 448; Fin 256; Fin 0; Fin 0])) /\
  ~ Qabs (256 - 270) <= 1 / 2 /\
  (forall rt, quantize_fp8 rt (vec []) 4 false = Ok (vec [], vec [], None)) /\
  OptimStateFp8_init (vec []) (vec []) = Raise ZeroDivisionError.
Proof.
  cbv zeta. split; [intros rt; vm_compute; reflexivity | ].
  split; [reflexivity | ].
  split; [intros rt; vm_compute; reflexivity | ].
  split; [apply Qlt_not_le; reflexivity | ].
  split; [intros rt; reflexivity | reflexivity].
Qed.

(** C2: the code's format range.  [Rdtype] is [448.0 / -448.0 = -1.0]: it is
    not positive and is not [max / smallest_normal = 28672]; and with range
    expansion enabled [quantize_fp8] never computes an exponent: it raises
    where the runtime rejects [aten.ones] on a bare integer, and otherwise at
    [torch.log(Rdtype)], a [TypeError]. *)
Theorem range_constant_is_minus_one :
  Rdtype = -1 /\ ~ 0 < Rdtype /\
  ~ Rdtype == E4M3.finfo_max / E4M3.finfo_tiny /\
  forall rt input bs,
    match view_rows (data input) bs with
    | Ok rows =>
        match aten_ones rt (length rows) with
        | Ok _ => quantize_fp8 rt input bs true = Raise TypeError
        | Raise e => quantize_fp8 rt input bs true = Raise e
        end
    | Raise e => quantize_fp8 rt input bs true = Raise e
    end.
Proof.
  split; [vm_compute; reflexivity | ].
  split; [vm_compute; discriminate | ].
  split; [vm_compute; discriminate | ].
  intros rt input bs. unfold quantize_fp8.
  destruct (view_rows (data input) bs) as [rows | e]; [ | reflexivity].
  cbn [bind]. destruct (aten_ones rt (length rows)); reflexivity.
Qed.

(** C3: what [dequantize] raises to the power [1 / k].  For a state of one
    block whose [k] holds one non-zero element, every decoded element is
    [torch_pow (code * scale) (1 / k)]: the power is applied to the signed
    product, with neither [sign] nor [abs].  For the code of [-2.0], scale 1
    and [k = 0.5] the result is [(-2.0) ** 2.0].  A [k] of two elements has no
    truth value, and [dequantize] raises. *)
Theorem dequantize_power_on_signed_value :
  (forall rt c cs s kv,
      let n := S (length cs) in
      dequantize rt
        (mkOptimStateFp8 (vec (c :: cs)) (vec [s]) (Some (vec [kv])) (Z.of_nat n))
        None
      = Ok (vec (map (fun c => 
                        let x := F32.mul (E4M3.to_f32 c) s in
                        if nonzero kv then torch_pow rt x (F32.div F32.one kv)
                        else x) (c :: cs)))) /\
  (forall rt,
      dequantize rt
        (mkOptimStateFp8 (vec [192%Z]) (vec [Fin 1]) (Some (vec [Fin (1 # 2)])) 1)
        None
      = Ok (vec [torch_pow rt (Fin (-2)) (Fin 2)])) /\
  (forall rt,
      dequantize rt
        (mkOptimStateFp8 (vec [192; 192]%Z) (vec [Fin 1; Fin 1])
           (Some (vec [Fin (1 # 2); Fin (1 # 2)])) 1)
        None
      = Raise RuntimeError).
Proof.
  split; [ | split; intros rt; reflexivity].
  intros rt c cs s kv n. unfold dequantize. cbn [codes scale k block_size vec data shape].
  assert (Hlen : length (map E4M3.to_f32 (c :: cs)) = n)
    by (rewrite length_map; reflexivity).
  rewrite <- Hlen at 1. rewrite view_rows_single by discriminate.
  cbn [bind broadcast_rows length Nat.eqb map2].
  assert (Ht : truth (Some (vec [kv])) = Ok (nonzero kv))
    by (destruct kv; reflexivity).
  rewrite Ht. cbn [bind].
  set (row := map (fun a => F32.mul a s) (map E4M3.to_f32 (c :: cs))).
  assert (Hrow : length row = n) by (unfold row; rewrite !length_map; reflexivity).
  assert (Hne : row <> []) by (intros E; rewrite E in Hrow; discriminate).
  destruct (nonzero kv).
  - cbn [concat]. rewrite app_nil_r. rewrite <- Hrow at 1.
    rewrite (view_rows_single row Hne).
    cbn [bind broadcast_rows length Nat.eqb map2 map].
    unfold view_shape, numel. cbn [concat data]. rewrite app_nil_r, length_map, Hrow.
    cbn [length]. rewrite Z.eqb_refl. unfold row, vec.
    cbn [map length]. rewrite ?map_map, ?length_map. reflexivity.
  - cbn [bind]. unfold view_shape, numel. cbn [concat data]. rewrite app_nil_r, Hrow.
    cbn [length]. rewrite Z.eqb_refl. unfold row, vec.
    cbn [map length]. rewrite ?map_map, ?length_map. reflexivity.
Qed.

(** C3, the two formulas side by side.  On any runtime whose power function
    squares 2 and -2 to 4, as IEEE 754 fixes it, [dequantize] turns the code
    of [-2.0] with scale 1 and [k = 0.5] into [4.0], where the inverse
    signed-power transform gives [-4.0]: the sign is lost. *)
Remark signed_power_divergence (rt : Runtime) :
  torch_pow rt (Fin (-2)) (Fin 2) = Fin 4 ->
  torch_pow rt (Fin 2) (Fin 2) = Fin 4 ->
  dequantize rt
    (mkOptimStateFp8 (vec [192%Z]) (vec [Fin 1]) (Some (vec [Fin (1 # 2)])) 1)
    None
  = Ok (vec [Fin 4]) /\
  inverse_signed_power rt (Fin (1 # 2))
    (F32.mul (E4M3.to_f32 192%Z) (Fin 1))
  = Fin (-4).
Proof.
  intros Hneg Hpos. split.
  - transitivity (Ok (vec [torch_pow rt (Fin (-2)) (Fin 2)]));
      [reflexivity | rewrite Hneg; reflexivity].
  - unfold inverse_signed_power.
    replace (F32.mul (E4M3.to_f32 192%Z) (Fin 1)) with (Fin (-2))
      by (vm_compute; reflexivity).
    replace (F32.abs (Fin (-2))) with (Fin 2) by (vm_compute; reflexivity).
    replace (F32.div F32.one (Fin (1 # 2))) with (Fin 2)
      by (vm_compute; reflexivity).
    rewrite Hpos. vm_compute. reflexivity.
Qed.

(** The hypotheses of [signed_power_divergence] hold of a power function
    that multiplies its base by itself. *)
Lemma signed_power_divergence_witness :
  let rt := mkRuntime (fun _ => Raise RuntimeError) (fun x => x)
              (fun x _ => F32.mul x x) in
  torch_pow rt (Fin (-2)) (Fin 2) = Fin 4 /\
  torch_pow rt (Fin 2) (Fin 2) = Fin 4 /\
  dequantize rt
    (mkOptimStateFp8 (vec [192%Z]) (vec [Fin 1]) (Some (vec [Fin (1 # 2)])) 1)
    None
  = Ok (vec [Fin 4]).
Proof.
  intros rt.
  assert (Hneg : torch_pow rt (Fin (-2)) (Fin 2) = Fin 4)
    by (vm_compute; reflexivity).
  assert (Hpos : torch_pow rt (Fin 2) (Fin 2) = Fin 4)
    by (vm_compute; reflexivity).
  split; [exact Hneg | ]. split; [exact Hpos | ].
  exact (proj1 (signed_power_divergence rt Hneg Hpos)).
Defined.

(** C4 (as amended).  When the scale is one-dimensional and not empty and
    its length does not divide the length of the codes, the state is built
    with the floored [block_size = codes.numel() // scale.numel()], and
    [dequantize] of it, whatever [k] and the output dtype, raises the
    runtime's [RuntimeError], at the reshape or at the product with the
    scale. *)
Theorem decode_malformed_state_raises (rt : Runtime) (qc : tensor fp8)
    (qs : tensor f32) (kk : option (tensor f32)) (dt : option (f32 -> f32)) :
  ndim qs = 1%nat -> numel qs <> 0%Z -> (numel qc mod numel qs)%Z <> 0%Z ->
  OptimStateFp8_init qc qs
  = Ok (mkOptimStateFp8 qc qs None (numel qc / numel qs)) /\
  dequantize rt (mkOptimStateFp8 qc qs kk (numel qc / numel qs)) dt
  = Raise RuntimeError.
Proof.
  intros Hnd Hm Hmod. split.
  - unfold OptimStateFp8_init. rewrite Hnd. cbn [Nat.eqb negb].
    apply Z.eqb_neq in Hm. rewrite Hm. reflexivity.
  - unfold dequantize. cbn [codes scale k block_size].
    set (bs := (numel qc / numel qs)%Z).
    destruct (view_rows (map E4M3.to_f32 (data qc)) bs) as [rows | e] eqn:Ev.
    + destruct (view_rows_spec _ _ _ Ev) as (Hbs & Hlen & Hrows & Hcat).
      apply (f_equal (@length _)) in Hcat.
      rewrite (length_concat_rows _ _ Hrows), length_map in Hcat.
      assert (Hn : numel qc = (Z.of_nat (length rows) * bs)%Z).
      { unfold numel. rewrite <- Hcat, Nat2Z.inj_mul, Z2Nat.id by lia. reflexivity. }
      unfold numel in Hm, Hmod, Hn, bs. cbn [bind]. unfold broadcast_rows.
      set (n := Z.of_nat (length (data qc))) in *.
      set (m := Z.of_nat (length (data qs))) in *.
      assert (Hm0 : (0 < m)%Z) by lia.
      destruct (Nat.eqb (length rows) (length (data qs))) eqn:El.
      * exfalso. apply Nat.eqb_eq in El. apply Hmod.
        rewrite Hn, El. fold m. rewrite Z.mul_comm. apply Z.mod_mul. lia.
      * destruct (data qs) as [ | b [ | b' col]] eqn:Eqs.
        -- cbn in m. lia.
        -- exfalso. apply Hmod. subst m. cbn. apply Z.mod_1_r.
        -- destruct rows as [ | row [ | row' rows]]; try reflexivity.
           exfalso. cbn [length] in Hn. rewrite Z.mul_1_l in Hn.
           assert (Hn0 : (0 < n)%Z) by lia.
           assert (H2 : (2 <= m)%Z) by (subst m; cbn [length]; lia).
           assert (n / m < n)%Z by (apply Z.div_lt; lia). lia.
    + rewrite (view_rows_raises _ _ _ Ev). reflexivity.
Qed.

(** C4 at codes of length 10 and a scale of length 3. *)
Lemma decode_malformed_state_witness :
  let qc := vec (repeat (0%Z : fp8) 10) in
  let qs := vec (repeat F32.one 3) in
  numel qc = 10%Z /\ numel qs = 3%Z /\
  forall rt,
    OptimStateFp8_init qc qs = Ok (mkOptimStateFp8 qc qs None 3) /\
    dequantize rt (mkOptimStateFp8 qc qs None 3) None = Raise RuntimeError.
Proof.
  split; [reflexivity | ]. split; [reflexivity | ]. intros rt.
  apply (decode_malformed_state_raises rt (vec (repeat (0%Z : fp8) 10))
           (vec (repeat F32.one 3)) None None);
    [reflexivity | discriminate | discriminate].
Defined.

(** C4 fails as stated.  With codes of length 10 and a scale of length 3 the
    state is built with the floored block size 3; decoding raises
    [RuntimeError], the very error [quantize_fp8] raises for an input of 10
    elements and a block size of 3, not an error of its own. *)
Lemma malformed_state_error_not_distinct :
  let qc := vec (repeat (0%Z : fp8) 10) in
  let qs := vec (repeat F32.one 3) in
  OptimStateFp8_init qc qs = Ok (mkOptimStateFp8 qc qs None 3) /\
  (forall rt, dequantize rt (mkOptimStateFp8 qc qs None 3) None
              = Raise RuntimeError) /\
  (forall rt, quantize_fp8 rt (vec (repeat F32.zero 10)) 3 false
              = Raise RuntimeError).
Proof. cbv zeta. split; [reflexivity | ]. split; intros rt; reflexivity. Qed.

(** C5: a copy from a plain tensor into a quantized state.  The handler
    reads its local [codes] before assigning it: the call raises
    [UnboundLocalError], [quantize_fp8] is not reached, and the destination
    is left as it was. *)
Theorem copy_from_plain_source_raises (rt : Runtime) (dst : OptimStateFp8)
    (src : tensor f32) :
  copy_ rt (Quantized dst) (Plain src) = (Quantized dst, Raise UnboundLocalError).
Proof. reflexivity. Qed.

(** C6.  A copy between two quantized states of different block sizes
    raises [AssertionError] and leaves every field of the destination as it
    was. *)
Theorem copy_mismatched_block_size_rejected (rt : Runtime) (dst src : OptimStateFp8) :
  block_size dst <> block_size src ->
  copy_ rt (Quantized dst) (Quantized src) = (Quantized dst, Raise AssertionError).
Proof.
  intros H. apply Z.eqb_neq in H.
  unfold copy_, copy_same_kind, mbind, mget. rewrite H. reflexivity.
Qed.

(** C6 at a source of block size 128 and a destination of block size
    256. *)
Lemma copy_mismatched_block_size_witness :
  let A := mkOptimStateFp8 (vec (repeat 0%Z 128)) (vec [Fin 0]) None 128 in
  let B := mkOptimStateFp8 (vec (repeat 0%Z 256)) (vec [Fin 0]) None 256 in
  zeros [128%nat] 128 = Ok A /\ zeros [256%nat] 256 = Ok B /\
  forall rt, copy_ rt (Quantized B) (Quantized A)
             = (Quantized B, Raise AssertionError).
Proof.
  split; [reflexivity | ]. split; [reflexivity | ].
  intros rt. apply (copy_mismatched_block_size_rejected rt). cbn. lia.
Defined.

(** C7: a copy between two quantized states.  When the destination has no
    [k], as every state the constructor builds, the call raises whatever the
    source is; for two states of matching block size and shapes the codes and
    the scale are copied first and [dst.k.copy_] then raises
    [AttributeError]. *)
Theorem copy_same_kind_without_k_raises :
  (forall rt qc qs bs src,
      exists dst' e,
        copy_ rt (Quantized (mkOptimStateFp8 qc qs None bs)) (Quantized src)
        = (dst', Raise e)) /\
  (let z := mkOptimStateFp8 (vec [0; 0; 0; 0]%Z) (vec [Fin 0]) None 4 in
   let s := mkOptimStateFp8 (vec [56; 192; 48; 72]%Z) (vec [Fin 2]) None 4 in
   zeros [4%nat] 4 = Ok z /\
   (forall rt, copy_ rt (Quantized z) (Quantized z)
               = (Quantized z, Raise AttributeError)) /\
   (forall rt, copy_ rt (Quantized z) (Quantized s)
               = (Quantized s, Raise AttributeError))).
Proof.
  split.
  - intros rt qc qs bs src.
    unfold copy_, copy_same_kind, copy_codes, copy_scale, copy_k,
      mbind, mget, mput, mlift, mret, mraise.
    cbn [block_size codes scale k].
    destruct (bs =? block_size src)%Z; [ | eauto].
    repeat match goal with
           | |- context [tensor_copy_ ?a ?b] =>
               destruct (tensor_copy_ a b); cbn [block_size codes scale k]
           end; eauto.
  - cbv zeta. split; [reflexivity | ]. split; intros rt; reflexivity.
Qed.

(** C8: all-zero blocks.  Without range expansion, zeros encode to the codes
    0 with every scale at the floor [1e-12 / 448], which is positive, and
    decode to zeros.  With range expansion [quantize_fp8] raises. *)
Theorem zero_block_encoding :
  (forall rt (nb b : nat),
      quantize_fp8 rt (vec (repeat F32.zero (nb * S b))) (Z.of_nat (S b)) false
      = Ok (vec (repeat (0%Z : fp8) (nb * S b)),
            vec (repeat zero_block_scale nb), None)) /\
  (forall rt (nb b : nat),
      let qc := vec (repeat (0%Z : fp8) (S nb * S b)) in
      let qs := vec (repeat zero_block_scale (S nb)) in
      let st := mkOptimStateFp8 qc qs None (Z.of_nat (S b)) in
      OptimStateFp8_init qc qs = Ok st /\
      dequantize rt st None = Ok (vec (repeat F32.zero (S nb * S b)))) /\
  positive32 zero_block_scale /\
  (forall rt input bs, exists e, quantize_fp8 rt input bs true = Raise e).
Proof.
  split; [ | split; [ | split]].
  - intros rt nb b.
    rewrite (quantize_fp8_plain rt (vec (repeat F32.zero (nb * S b)))
               (Z.of_nat (S b)) _ (view_rows_zeros F32.zero nb b)).
    rewrite zeros_codes, zeros_scales.
    unfold vec. cbn [shape data]. rewrite !repeat_length. reflexivity.
  - intros rt nb b qc qs st.
    pose proof (round_trip_rows rt (vec (repeat F32.zero (S nb * S b)))
                  (Z.of_nat (S b)) (repeat (repeat F32.zero (S b)) (S nb))
                  (view_rows_zeros F32.zero (S nb) b)) as H.
    cbv zeta in H. rewrite zeros_codes, zeros_scales, zeros_decoded in H.
    assert (Es : shape (vec (repeat F32.zero (S nb * S b))) = [(S nb * S b)%nat])
      by (unfold vec; cbn [shape]; rewrite repeat_length; reflexivity).
    rewrite Es in H.
    assert (Eqc : qc = mkTensor [(S nb * S b)%nat] (repeat (0%Z : fp8) (S nb * S b)))
      by (unfold qc, vec; rewrite repeat_length; reflexivity).
    assert (Ez : vec (repeat F32.zero (S nb * S b))
                 = mkTensor [(S nb * S b)%nat] (repeat F32.zero (S nb * S b)))
      by (unfold vec; rewrite repeat_length; reflexivity).
    unfold st. rewrite Eqc, Ez. fold qs.
    destruct H as (_ & H2 & H3); [discriminate | ]. split; assumption.
  - vm_compute. reflexivity.
  - intros rt input bs. apply quantize_fp8_expand_raises.
Qed.

(** C9.  For a finite input whose element count is a multiple of a positive
    [block_size], the scale [quantize_fp8] returns is one-dimensional, holds
    [numel / block_size] entries, and every entry is a positive finite value;
    without range expansion the call does return. *)
Theorem scale_positive_one_per_block (rt : Runtime) (input : tensor f32)
    (bs : Z) (dre : bool) :
  (0 < bs)%Z -> (numel input mod bs = 0)%Z -> Forall finite32 (data input) ->
  (forall qc qs k,
      quantize_fp8 rt input bs dre = Ok (qc, qs, k) ->
      ndim qs = 1%nat /\
      numel qs = (numel input / bs)%Z /\
      Forall positive32 (data qs)) /\
  (dre = false ->
   exists qc qs, quantize_fp8 rt input bs dre = Ok (qc, qs, None)).
Proof.
  intros Hbs Hmod Hfin.
  destruct (view_rows_ok (data input) bs Hbs Hmod) as (rows & Hv).
  pose proof (quantize_fp8_plain rt input bs rows Hv) as Hq.
  split.
  - intros qc qs k H. destruct dre.
    + destruct (quantize_fp8_expand_raises rt input bs) as (e & He). congruence.
    + rewrite Hq in H. injection H as <- <- <-.
      destruct (view_rows_spec _ _ _ Hv) as (_ & Hlen & _ & _).
      split; [reflexivity | ]. split.
      * unfold numel, vec. cbn [data]. rewrite length_map. exact Hlen.
      * cbn [vec data]. apply Forall_map.
        eapply Forall_impl; [ | exact (rows_finite _ _ _ Hv Hfin)].
        intros row (Hne & Hrow).
        destruct (block_scale_spec row Hne Hrow) as (S & -> & HS & _).
        cbn. lra.
  - intros ->. eauto.
Qed.

(** C9 at the block [1.0, -2.0, 0.5, 4.0]. *)
Lemma scale_positive_witness :
  ((0 < 4)%Z /\ (numel spec_block mod 4 = 0)%Z /\
   Forall finite32 (data spec_block)) /\
  forall rt,
    (forall qc qs k,
        quantize_fp8 rt spec_block 4 false = Ok (qc, qs, k) ->
        ndim qs = 1%nat /\
        numel qs = (numel spec_block / 4)%Z /\
        Forall positive32 (data qs)) /\
    (false = false ->
     exists qc qs, quantize_fp8 rt spec_block 4 false = Ok (qc, qs, None)).
Proof.
  split; [split; [reflexivity | split; [reflexivity | exact spec_block_finite]] | ].
  intros rt.
  apply (scale_positive_one_per_block rt spec_block 4 false);
    [reflexivity | reflexivity | exact spec_block_finite].
Defined.

(** C10.  The [aten._to_copy] handler builds its result from the codes and
    the scale alone: when it returns, the result has no [k], the same codes
    and the same scale, and decoding it does not depend on the runtime's
    power function.  It only raises on a state whose scale is not
    one-dimensional or is empty, which the constructor never builds. *)
Theorem to_copy_drops_k (self : OptimStateFp8) :
  match to_copy self with
  | Ok out =>
      k out = None /\ codes out = codes self /\ scale out = scale self /\
      forall rt rt' dt, dequantize rt out dt = dequantize rt' out dt
  | Raise _ => ndim (scale self) <> 1%nat \/ numel (scale self) = 0%Z
  end.
Proof.
  unfold to_copy, OptimStateFp8_init.
  destruct (Nat.eqb (ndim (scale self)) 1) eqn:E1; cbn [negb].
  - destruct (numel (scale self) =? 0)%Z eqn:E2.
    + right. apply Z.eqb_eq. exact E2.
    + repeat split. 
  - left. apply Nat.eqb_neq. exact E1.
Qed.

(** * Further properties of the code *)

Import F32Facts E4M3Facts E4M3Cast BlockFacts.

(** ** What [dequantize] returns and raises *)

Lemma broadcast_rows_raises {A B C : Type} (f : A -> B -> C)
    (rows : list (list A)) (col : list B) (e : exn) :
  broadcast_rows f rows col = Raise e -> e = RuntimeError.
Proof.
  unfold broadcast_rows. destruct (Nat.eqb (length rows) (length col)); [discriminate | ].
  destruct col as [ | b [ | b' col]]; destruct rows as [ | r [ | r' rows]];
    congruence.
Qed.

Lemma view_shape_outcome {A : Type} (rows : list (list A)) (sh : list nat) (n : Z) :
  match view_shape rows sh n with
  | Ok t => shape t = sh /\ numel t = n /\ data t = concat rows
  | Raise e => e = RuntimeError
  end.
Proof.
  unfold view_shape. destruct (Z.of_nat (length (concat rows)) =? n)%Z eqn:E.
  - apply Z.eqb_eq in E. repeat split. exact E.
  - reflexivity.
Qed.

Lemma truth_raises (kk : option (tensor f32)) (e : exn) :
  truth kk = Raise e -> e = RuntimeError.
Proof.
  unfold truth. destruct kk as [t | ]; [ | discriminate].
  destruct (data t) as [ | x [ | y l]]; [congruence | | destruct x; congruence].
  destruct x; discriminate.
Qed.

Lemma dequantize_shape (rt : Runtime) (st : OptimStateFp8)
    (dt : option (f32 -> f32)) :
  match dequantize rt st dt with
  | Ok t => shape t = shape (codes st) /\ numel t = numel (codes st)
  | Raise e => e = RuntimeError
  end.
Proof.
  unfold dequantize.
  destruct (view_rows (map E4M3.to_f32 (data (codes st))) (block_size st))
    as [rows | e] eqn:Ev; [ | exact (view_rows_raises _ _ _ Ev)].
  cbn [bind].
  destruct (broadcast_rows F32.mul rows (data (scale st))) as [rows1 | e] eqn:Eb;
    [ | exact (broadcast_rows_raises _ _ _ _ Eb)].
  cbn [bind].
  destruct (truth (k st)) as [b | e] eqn:Et; [ | exact (truth_raises _ _ Et)].
  cbn [bind].
  assert (Hfin : forall rows2 : list (list f32),
             match view_shape
                     (match dt with
                      | Some cast => map (map cast) rows2
                      | None => rows2
                      end) (shape (codes st)) (numel (codes st)) with
             | Ok t => shape t = shape (codes st) /\ numel t = numel (codes st)
             | Raise e => e = RuntimeError
             end).
  { intros rows2.
    pose proof (view_shape_outcome
                  (match dt with
                   | Some cast => map (map cast) rows2
                   | None => rows2
                   end) (shape (codes st)) (numel (codes st))) as H.
    destruct (view_shape _ _ _); [tauto | exact H]. }
  destruct b; [ | cbn [bind]; apply Hfin].
  destruct (k st) as [kt | ]; [ | cbn [bind]; apply Hfin].
  destruct (view_rows (concat rows1) (block_size st)) as [rows2 | e] eqn:Ev2;
    [ | exact (view_rows_raises _ _ _ Ev2)].
  cbn [bind].
  destruct (broadcast_rows (torch_pow rt) rows2 (map (F32.div F32.one) (data kt)))
    as [rows3 | e] eqn:Eb2; [ | exact (broadcast_rows_raises _ _ _ _ Eb2)].
  cbn [bind]. apply Hfin.
Qed.

(** X8.  [dequantize] returns a tensor of the shape and size of the codes,
    or raises [RuntimeError] and nothing else. *)
Theorem dequantize_outcome (rt : Runtime) (st : OptimStateFp8)
    (dt : option (f32 -> f32)) :
  match dequantize rt st dt with
  | Ok t => shape t = shape (codes st) /\ numel t = numel (codes st)
  | Raise e => e = RuntimeError
  end.
Proof. exact (dequantize_shape rt st dt). Qed.


(** X12.  A [k] that does not hold exactly one element makes [dequantize] raise. *)
Theorem dequantize_multi_element_k_raises (rt : Runtime) (qc : tensor fp8)
    (qs kt : tensor f32) (bs : Z) (dt : option (f32 -> f32)) :
  length (data kt) <> 1%nat ->
  dequantize rt (mkOptimStateFp8 qc qs (Some kt) bs) dt = Raise RuntimeError.
Proof.
  intros Hk. unfold dequantize. cbn [codes scale k block_size].
  destruct (view_rows (map E4M3.to_f32 (data qc)) bs) as [rows | e] eqn:Ev;
    [ | rewrite (view_rows_raises _ _ _ Ev); reflexivity].
  cbn [bind].
  destruct (broadcast_rows F32.mul rows (data qs)) as [rows1 | e] eqn:Eb;
    [ | rewrite (broadcast_rows_raises _ _ _ _ Eb); reflexivity].
  cbn [bind].
  assert (Ht : truth (Some kt) = Raise RuntimeError).
  { unfold truth. destruct (data kt) as [ | x [ | y l]];
      [reflexivity | cbn in Hk; congruence | destruct x; reflexivity]. }
  rewrite Ht. reflexivity.
Qed.

(** X12 at a [k] of two elements. *)
Lemma dequantize_multi_element_k_witness :
  length (data (vec [Fin 1; Fin 2])) <> 1%nat /\
  forall rt,
    dequantize rt
      (mkOptimStateFp8 (vec [56; 192]%Z) (vec [Fin 1]) (Some (vec [Fin 1; Fin 2])) 2)
      None
    = Raise RuntimeError.
Proof.
  split; [discriminate | ]. intros rt.
  apply (dequantize_multi_element_k_raises rt (vec [56; 192]%Z) (vec [Fin 1])
           (vec [Fin 1; Fin 2]) 2 None).
  discriminate.
Defined.


(** X13.  A [k] holding the single element zero is treated as an absent [k]. *)
Theorem dequantize_zero_k_ignored (rt : Runtime) (qc : tensor fp8)
    (qs : tensor f32) (sh : list nat) (bs : Z) (dt : option (f32 -> f32)) :
  dequantize rt (mkOptimStateFp8 qc qs (Some (mkTensor sh [F32.zero])) bs) dt
  = dequantize rt (mkOptimStateFp8 qc qs None bs) dt.
Proof.
  unfold dequantize. cbn [codes scale k block_size].
  destruct (view_rows (map E4M3.to_f32 (data qc)) bs) as [rows | e]; [ | reflexivity].
  cbn [bind].
  destruct (broadcast_rows F32.mul rows (data qs)) as [rows1 | e]; reflexivity.
Qed.

(** X21.  [_to_copy] returns a state it maps to itself. *)
Theorem to_copy_idempotent (self out : OptimStateFp8) :
  to_copy self = Ok out -> to_copy out = Ok out.
Proof.
  unfold to_copy, OptimStateFp8_init.
  destruct (negb (Nat.eqb (ndim (scale self)) 1)) eqn:E1; [discriminate | ].
  destruct (numel (scale self) =? 0)%Z eqn:E2; [discriminate | ].
  intros H. injection H as <-. cbn [codes scale]. rewrite E1, E2. reflexivity.
Qed.

(** X21 at a state with a [k] and a stale block size. *)
Lemma to_copy_idempotent_witness :
  let x := mkOptimStateFp8 (vec [56; 192]%Z) (vec [Fin 1]) (Some (vec [Fin 3])) 7 in
  let y := mkOptimStateFp8 (vec [56; 192]%Z) (vec [Fin 1]) None 2 in
  to_copy x = Ok y /\ to_copy y = Ok y.
Proof.
  intros x y. split; [reflexivity | ].
  apply (to_copy_idempotent x y). reflexivity.
Defined.


(** ** [quantize_fp8], block by block *)

Lemma view_rows_app {A : Type} (a b : list A) (bs : Z) (ra rb : list (list A)) :
  view_rows a bs = Ok ra -> view_rows b bs = Ok rb ->
  view_rows (a ++ b) bs = Ok (ra ++ rb).
Proof.
  intros Ha Hb.
  destruct (view_rows_spec _ _ _ Ha) as (Hbs & _ & Hra & Hca).
  destruct (view_rows_spec _ _ _ Hb) as (_ & _ & Hrb & Hcb).
  rewrite <- Hca, <- Hcb, <- concat_app.
  apply view_rows_concat; [exact Hbs | ].
  apply Forall_app. split; assumption.
Qed.



(** X2.  Blocks are encoded independently of one another. *)
Theorem quantize_fp8_blockwise (rt : Runtime) (a b : list f32) (bs : Z)
    (qa qb : tensor fp8) (sa sb : tensor f32) (ka kb : option (tensor f32)) :
  quantize_fp8 rt (vec a) bs false = Ok (qa, sa, ka) ->
  quantize_fp8 rt (vec b) bs false = Ok (qb, sb, kb) ->
  quantize_fp8 rt (vec (a ++ b)) bs false
  = Ok (vec (data qa ++ data qb), vec (data sa ++ data sb), None).
Proof.
  intros Ha Hb.
  destruct (view_rows a bs) as [ra | e] eqn:Hva;
    [ | unfold quantize_fp8 in Ha; cbn [vec data] in Ha; rewrite Hva in Ha;
        discriminate].
  destruct (view_rows b bs) as [rb | e] eqn:Hvb;
    [ | unfold quantize_fp8 in Hb; cbn [vec data] in Hb; rewrite Hvb in Hb;
        discriminate].
  rewrite (quantize_fp8_plain rt (vec a) bs ra Hva) in Ha.
  rewrite (quantize_fp8_plain rt (vec b) bs rb Hvb) in Hb.
  injection Ha as <- <- _. injection Hb as <- <- _.
  rewrite (quantize_fp8_plain rt (vec (a ++ b)) bs (ra ++ rb)
             (view_rows_app a b bs ra rb Hva Hvb)).
  cbn [vec data shape].
  rewrite !map_app, concat_app, map_app.
  unfold vec. rewrite !length_app, !length_map.
  destruct (view_rows_spec _ _ _ Hva) as (Hbs & _ & Hra & Hca).
  destruct (view_rows_spec _ _ _ Hvb) as (_ & _ & Hrb & Hcb).
  assert (Hl : forall rows : list (list f32),
             Forall (fun row => length row = Z.to_nat bs) rows ->
             length (concat (map (fun row => map (fun x => F32.div x (block_scale row)) row)
                               rows))
             = length (concat rows)).
  { intros rows Hrows.
    rewrite (length_concat_rows (Z.to_nat bs)), (length_concat_rows _ _ Hrows),
      length_map; [reflexivity | ].
    apply Forall_map_length; [ | exact Hrows]. intros row. apply length_map. }
  rewrite (Hl ra Hra), (Hl rb Hrb), Hca, Hcb. reflexivity.
Qed.

(** X2 at the blocks [1.0, -2.0] and [3.0, 4.0], [0.0, 0.5]. *)
Lemma quantize_fp8_blockwise_witness :
  let a := [Fin 1; Fin (-2)] in
  let b := [Fin 3; Fin 4; Fin 0; Fin (1 # 2)] in
  exists qa qb sa sb,
  forall rt,
    quantize_fp8 rt (vec a) 2 false = Ok (qa, sa, None) /\
    quantize_fp8 rt (vec b) 2 false = Ok (qb, sb, None) /\
    quantize_fp8 rt (vec (a ++ b)) 2 false
    = Ok (vec (data qa ++ data qb), vec (data sa ++ data sb), None).
Proof.
  intros a b. eexists _, _, _, _. intros rt.
  assert (Ea : quantize_fp8 rt (vec a) 2 false = Ok (_, _, None))
    by (vm_compute; reflexivity).
  assert (Eb : quantize_fp8 rt (vec b) 2 false = Ok (_, _, None))
    by (vm_compute; reflexivity).
  split; [exact Ea | ]. split; [exact Eb | ].
  exact (quantize_fp8_blockwise rt a b 2 _ _ _ _ None None Ea Eb).
Defined.

(** ** [dequantize], block by block *)

Lemma map2_app {A B C : Type} (f : A -> B -> C) (l1 l2 : list A) (m1 m2 : list B) :
  length l1 = length m1 ->
  map2 f (l1 ++ l2) (m1 ++ m2) = map2 f l1 m1 ++ map2 f l2 m2.
Proof.
  revert m1. induction l1 as [ | a l1 IH]; intros [ | b m1] H; try discriminate.
  - reflexivity.
  - cbn. f_equal. apply IH. cbn in H. lia.
Qed.

Lemma map2_repeat {A B C : Type} (f : A -> B -> C) (a : A) (b : B) (n : nat) :
  map2 f (repeat a n) (repeat b n) = repeat (f a b) n.
Proof. induction n as [ | n IH]; [reflexivity | ]. cbn. f_equal. exact IH. Qed.

Lemma map2_rows_length {A B C : Type} (f : A -> B -> C) (n : nat)
    (rows : list (list A)) (col : list B) :
  length rows = length col ->
  Forall (fun row => length row = n) rows ->
  length (map2 (fun row b => map (fun a => f a b) row) rows col) = length rows /\
  Forall (fun row => length row = n)
    (map2 (fun row b => map (fun a => f a b) row) rows col).
Proof.
  intros Hlen Hrows. revert col Hlen.
  induction Hrows as [ | row rows Hrow _ IH]; intros [ | b col] Hlen;
    try discriminate.
  - split; [reflexivity | constructor].
  - cbn in Hlen. destruct (IH col) as (H1 & H2); [lia | ].
    cbn. split; [rewrite H1; reflexivity | ].
    constructor; [rewrite length_map; exact Hrow | exact H2].
Qed.

Lemma view_rows_of_length {A : Type} (l : list A) (r : nat) (bs : Z) :
  (0 < bs)%Z -> length l = (r * Z.to_nat bs)%nat ->
  view_rows l bs = Ok (rows_of r (Z.to_nat bs) l) /\
  length (rows_of r (Z.to_nat bs) l) = r /\
  Forall (fun row => length row = Z.to_nat bs) (rows_of r (Z.to_nat bs) l).
Proof.
  intros Hbs Hl. destruct (rows_of_spec r (Z.to_nat bs) l Hl) as (H1 & H2 & H3).
  split; [ | split; assumption].
  rewrite <- H3 at 1. apply view_rows_concat; assumption.
Qed.

Lemma dequantize_wellformed (rt : Runtime) (st : OptimStateFp8) :
  k st = None -> (0 < block_size st)%Z ->
  length (data (codes st))
  = (length (data (scale st)) * Z.to_nat (block_size st))%nat ->
  dequantize rt st None
  = Ok (mkTensor (shape (codes st)) (concat (decoded_rows st))).
Proof.
  intros Hk Hbs Hl.
  destruct (view_rows_of_length (map E4M3.to_f32 (data (codes st)))
              (length (data (scale st))) (block_size st) Hbs) as (Hv & Hr & Hrows).
  { rewrite length_map. exact Hl. }
  rewrite (dequantize_plain rt st _ Hk Hv Hr).
  fold (decoded_rows st).
  destruct (map2_rows_length F32.mul _ _ _ Hr Hrows) as (H1 & H2).
  unfold view_shape. fold (decoded_rows st) in H1, H2.
  rewrite (length_concat_rows _ _ H2), H1, Hr. unfold numel. rewrite Hl.
  rewrite Z.eqb_refl. reflexivity.
Qed.

(** X9.  Blocks are decoded independently of one another. *)
Theorem dequantize_blockwise (rt : Runtime) (ca cb : list fp8) (sa sb : list f32)
    (bs : Z) :
  (0 < bs)%Z ->
  length ca = (length sa * Z.to_nat bs)%nat ->
  length cb = (length sb * Z.to_nat bs)%nat ->
  exists da db,
    dequantize rt (mkOptimStateFp8 (vec ca) (vec sa) None bs) None = Ok (vec da) /\
    dequantize rt (mkOptimStateFp8 (vec cb) (vec sb) None bs) None = Ok (vec db) /\
    dequantize rt (mkOptimStateFp8 (vec (ca ++ cb)) (vec (sa ++ sb)) None bs) None
    = Ok (vec (da ++ db)).
Proof.
  intros Hbs Ha Hb. set (n := Z.to_nat bs) in *.
  assert (Hab : length (ca ++ cb) = (length (sa ++ sb) * n)%nat)
    by (rewrite !length_app; lia).
  rewrite !dequantize_wellformed by (try reflexivity; assumption).
  unfold decoded_rows. cbn [codes scale block_size vec data shape]. fold n.
  set (f := fun (row : list f32) (s : f32) => map (fun a => F32.mul a s) row).
  set (ra := rows_of (length sa) n (map E4M3.to_f32 ca)).
  set (rb := rows_of (length sb) n (map E4M3.to_f32 cb)).
  destruct (rows_of_spec (length sa) n (map E4M3.to_f32 ca)) as (A1 & A2 & A3);
    [rewrite length_map; exact Ha | ].
  destruct (rows_of_spec (length sb) n (map E4M3.to_f32 cb)) as (B1 & B2 & B3);
    [rewrite length_map; exact Hb | ].
  fold ra in A1, A2, A3. fold rb in B1, B2, B3.
  assert (E : rows_of (length (sa ++ sb)) n (map E4M3.to_f32 (ca ++ cb)) = ra ++ rb).
  { rewrite map_app, <- A3, <- B3, <- concat_app.
    replace (length (sa ++ sb)) with (length (ra ++ rb))
      by (rewrite !length_app, A1, B1; reflexivity).
    apply rows_of_concat. apply Forall_app. split; assumption. }
  rewrite E, (map2_app f ra rb sa sb A1), concat_app.
  destruct (map2_rows_length F32.mul n ra sa A1 A2) as (LA1 & LA2).
  destruct (map2_rows_length F32.mul n rb sb B1 B2) as (LB1 & LB2).
  fold f in LA1, LA2, LB1, LB2.
  exists (concat (map2 f ra sa)), (concat (map2 f rb sb)).
  unfold vec. rewrite !length_app.
  rewrite (length_concat_rows _ _ LA2), (length_concat_rows _ _ LB2), LA1, LB1, A1, B1.
  rewrite Ha, Hb. repeat split.
Qed.

(** X9 at a state of one block followed by a state of two. *)
Lemma dequantize_blockwise_witness :
  let ca := [56; 192]%Z in
  let cb := [48; 72; 0; 126]%Z in
  let sa := [Fin 2] in
  let sb := [Fin 1; Fin (1 # 2)] in
  ((0 < 2)%Z /\ length ca = (length sa * Z.to_nat 2)%nat /\
   length cb = (length sb * Z.to_nat 2)%nat) /\
  forall rt,
  exists da db,
    dequantize rt (mkOptimStateFp8 (vec ca) (vec sa) None 2) None = Ok (vec da) /\
    dequantize rt (mkOptimStateFp8 (vec cb) (vec sb) None 2) None = Ok (vec db) /\
    dequantize rt (mkOptimStateFp8 (vec (ca ++ cb)) (vec (sa ++ sb)) None 2) None
    = Ok (vec (da ++ db)).
Proof.
  intros ca cb sa sb.
  split; [split; [reflexivity | split; reflexivity] | ].
  intros rt.
  apply (dequantize_blockwise rt ca cb sa sb 2); reflexivity.
Defined.

(** The size hypotheses matter: a scale of one entry is broadcast over the
    blocks, so that a state of two blocks and one scale decodes; followed by
    a state of one block, it does not. *)
Remark dequantize_broadcast_not_blockwise :
  forall rt,
    dequantize rt (mkOptimStateFp8 (vec [56; 56]%Z) (vec [Fin 2]) None 1) None
    = Ok (vec [Fin 2; Fin 2]) /\
    dequantize rt (mkOptimStateFp8 (vec [56]%Z) (vec [Fin 3]) None 1) None
    = Ok (vec [Fin 3]) /\
    dequantize rt
      (mkOptimStateFp8 (vec [56; 56; 56]%Z) (vec [Fin 2; Fin 3]) None 1) None
    = Raise RuntimeError.
Proof. intros rt. split; [ | split]; vm_compute; reflexivity. Qed.

(** X10.  [output_dtype] is applied last, element by element. *)
Theorem dequantize_output_dtype (rt : Runtime) (st : OptimStateFp8)
    (cast : f32 -> f32) :
  dequantize rt st (Some cast)
  = match dequantize rt st None with
    | Ok t => Ok (mkTensor (shape t) (map cast (data t)))
    | Raise e => Raise e
    end.
Proof.
  unfold dequantize.
  destruct (view_rows (map E4M3.to_f32 (data (codes st))) (block_size st))
    as [rows | e]; [ | reflexivity].
  cbn [bind].
  destruct (broadcast_rows F32.mul rows (data (scale st))) as [rows1 | e];
    [ | reflexivity].
  cbn [bind].
  destruct (truth (k st)) as [b | e]; [ | reflexivity].
  cbn [bind].
  assert (Hfin : forall rows2 : list (list f32),
             view_shape (map (map cast) rows2) (shape (codes st)) (numel (codes st))
             = match view_shape rows2 (shape (codes st)) (numel (codes st)) with
               | Ok t => Ok (mkTensor (shape t) (map cast (data t)))
               | Raise e => Raise e
               end).
  { intros rows2. unfold view_shape. rewrite <- concat_map, length_map.
    destruct (Z.of_nat (length (concat rows2)) =? numel (codes st))%Z; reflexivity. }
  destruct b; [ | cbn [bind]; apply Hfin].
  destruct (k st) as [kt | ]; [ | cbn [bind]; apply Hfin].
  destruct (view_rows (concat rows1) (block_size st)) as [rows2 | e];
    [ | reflexivity].
  cbn [bind].
  destruct (broadcast_rows (torch_pow rt) rows2 (map (F32.div F32.one) (data kt)))
    as [rows3 | e]; [ | reflexivity].
  cbn [bind]. apply Hfin.
Qed.

(** X22.  Decoding a view of a state the constructor built is viewing the decoded
    tensor. *)
Theorem view_then_dequantize (rt : Runtime) (x y : OptimStateFp8) (sh : list nat)
    (dt : option (f32 -> f32)) :
  k x = None -> block_size x = (numel (codes x) / numel (scale x))%Z ->
  view x sh = Ok y ->
  dequantize rt y dt
  = match dequantize rt x dt with
    | Ok t => Ok (mkTensor sh (data t))
    | Raise e => Raise e
    end.
Proof.
  intros Hk Hbs Hv. unfold view, OptimStateFp8_init in Hv.
  destruct (Z.of_nat (fold_right Nat.mul 1%nat sh) =? numel (codes x))%Z;
    [ | discriminate].
  destruct (negb (Nat.eqb (ndim (scale x)) 1)); [discriminate | ].
  destruct (numel (scale x) =? 0)%Z; [discriminate | ].
  injection Hv as <-.
  unfold dequantize. cbn [codes scale k block_size data shape].
  change (numel (mkTensor sh (data (codes x)))) with (numel (codes x)).
  rewrite <- Hbs, Hk.
  destruct (view_rows (map E4M3.to_f32 (data (codes x))) (block_size x))
    as [rows | e]; [ | reflexivity].
  cbn [bind].
  destruct (broadcast_rows F32.mul rows (data (scale x))) as [rows1 | e];
    [ | reflexivity].
  cbn [bind truth]. unfold view_shape.
  match goal with
  | |- context [(?a =? ?b)%Z] => destruct (a =? b)%Z
  end; reflexivity.
Qed.

(** X22 at four codes viewed as [(2, 2)]. *)
Lemma view_then_dequantize_witness :
  let x := mkOptimStateFp8 (vec [56; 192; 48; 72]%Z) (vec [Fin 2; Fin 1]) None 2 in
  let y := mkOptimStateFp8 (mkTensor [2; 2]%nat [56; 192; 48; 72]%Z)
             (vec [Fin 2; Fin 1]) None 2 in
  (k x = None /\ block_size x = (numel (codes x) / numel (scale x))%Z /\
   view x [2; 2]%nat = Ok y) /\
  forall rt,
    dequantize rt y None
    = match dequantize rt x None with
      | Ok t => Ok (mkTensor [2; 2]%nat (data t))
      | Raise e => Raise e
      end.
Proof.
  intros x y. split; [split; [reflexivity | split; reflexivity] | ].
  intros rt.
  apply (view_then_dequantize rt x y [2; 2]%nat None); reflexivity.
Defined.

(** ** [OptimStateFp8.zeros] *)

(** X14.  [OptimStateFp8.zeros]: when it returns and what it raises. *)
Theorem zeros_outcome (sh : list nat) (bs : Z) :
  let n := fold_right Nat.mul 1%nat sh in
  let N := Z.of_nat n in
  match zeros sh bs with
  | Ok st =>
      (0 < bs <= N)%Z /\
      codes st = mkTensor sh (repeat (0%Z : fp8) n) /\
      scale st = vec (repeat F32.zero (Z.to_nat (N / bs))) /\
      k st = None /\
      block_size st = (N / (N / bs))%Z /\ (bs <= block_size st)%Z
  | Raise e =>
      (e = ZeroDivisionError /\ (bs = 0 \/ N = 0 \/ N < bs)%Z) \/
      (e = RuntimeError /\ (bs < 0)%Z /\ (0 < N)%Z)
  end.
Proof.
  intros n N. unfold zeros. fold n.
  assert (Hnum : numel (mkTensor sh (repeat (0%Z : fp8) n)) = N)
    by (unfold numel; cbn [data]; rewrite repeat_length; reflexivity).
  rewrite Hnum.
  destruct (bs =? 0)%Z eqn:E0; [left; split; [reflexivity | left; lia] | ].
  apply Z.eqb_neq in E0.
  destruct (N / bs <? 0)%Z eqn:Em.
  - apply Z.ltb_lt in Em. right. split; [reflexivity | ].
    assert (0 <= N)%Z by lia.
    destruct (Z_lt_le_dec 0 bs) as [Hp | Hp];
      [assert (0 <= N / bs)%Z by (apply Z.div_pos; lia); lia | ].
    split; [lia | ].
    destruct (Z.eq_dec N 0) as [-> | ]; [rewrite Z.div_0_l in Em; lia | lia].
  - apply Z.ltb_ge in Em. unfold OptimStateFp8_init.
    cbn [ndim vec shape length Nat.eqb negb].
    assert (Hs : numel (vec (repeat F32.zero (Z.to_nat (N / bs)))) = (N / bs)%Z)
      by (unfold numel, vec; cbn [data]; rewrite repeat_length, Z2Nat.id; lia).
    rewrite Hs, Hnum.
    destruct (N / bs =? 0)%Z eqn:Ez.
    + apply Z.eqb_eq in Ez. left. split; [reflexivity | right].
      assert (0 <= N)%Z by lia.
      destruct (Z_lt_le_dec 0 bs) as [Hp | Hp].
      * apply Z.div_small_iff in Ez; lia.
      * left. apply Z.div_small_iff in Ez; lia.
    + apply Z.eqb_neq in Ez. cbn [codes scale k block_size].
      assert (Hm : (0 < N / bs)%Z) by lia.
      assert (Hbs : (0 < bs)%Z).
      { destruct (Z_lt_le_dec 0 bs) as [Hp | Hp]; [exact Hp | ].
        assert (0 <= N)%Z by lia.
        pose proof (Z.div_mod N bs E0) as Hd.
        pose proof (Z.mod_neg_bound N bs) as Hr. nia. }
      assert (HN : (bs <= N)%Z).
      { destruct (Z_lt_le_dec N bs) as [Hp | Hp]; [ | exact Hp].
        rewrite Z.div_small in Hm; lia. }
      repeat split; try lia.
      apply Z.div_le_lower_bound; [lia | ].
      rewrite Z.mul_comm. apply Z.mul_div_le. lia.
Qed.

(** A scale whose length does not divide the number of codes leaves no
    block size that [dequantize] can use. *)
Lemma dequantize_uneven_raises (rt : Runtime) (qc : tensor fp8) (qs : tensor f32)
    (kk : option (tensor f32)) (dt : option (f32 -> f32)) :
  numel qs <> 0%Z -> (numel qc mod numel qs)%Z <> 0%Z ->
  dequantize rt (mkOptimStateFp8 qc qs kk (numel qc / numel qs)) dt
  = Raise RuntimeError.
Proof.
  intros Hm Hmod. unfold dequantize. cbn [codes scale k block_size].
  set (bs := (numel qc / numel qs)%Z).
  destruct (view_rows (map E4M3.to_f32 (data qc)) bs) as [rows | e] eqn:Ev;
    [ | rewrite (view_rows_raises _ _ _ Ev); reflexivity].
  destruct (view_rows_spec _ _ _ Ev) as (Hbs & Hlen & Hrows & Hcat).
  apply (f_equal (@length _)) in Hcat.
  rewrite (length_concat_rows _ _ Hrows), length_map in Hcat.
  assert (Hn : numel qc = (Z.of_nat (length rows) * bs)%Z).
  { unfold numel. rewrite <- Hcat, Nat2Z.inj_mul, Z2Nat.id by lia. reflexivity. }
  unfold numel in Hm, Hmod, Hn, bs. cbn [bind]. unfold broadcast_rows.
  set (n := Z.of_nat (length (data qc))) in *.
  set (m := Z.of_nat (length (data qs))) in *.
  assert (Hm0 : (0 < m)%Z) by lia.
  destruct (Nat.eqb (length rows) (length (data qs))) eqn:El.
  - exfalso. apply Nat.eqb_eq in El. apply Hmod.
    rewrite Hn, El. fold m. rewrite Z.mul_comm. apply Z.mod_mul. lia.
  - destruct (data qs) as [ | b [ | b' col]] eqn:Eqs.
    + cbn in m. lia.
    + exfalso. apply Hmod. subst m. cbn. apply Z.mod_1_r.
    + destruct rows as [ | row [ | row' rows]]; try reflexivity.
      exfalso. cbn [length] in Hn. rewrite Z.mul_1_l in Hn.
      assert (Hn0 : (0 < n)%Z) by lia.
      assert (H2 : (2 <= m)%Z) by (subst m; cbn [length]; lia).
      assert (n / m < n)%Z by (apply Z.div_lt; lia). lia.
Qed.

Lemma zeros_ok (sh : list nat) (bs : Z) :
  let n := fold_right Nat.mul 1%nat sh in
  let N := Z.of_nat n in
  (0 < bs <= N)%Z ->
  zeros sh bs
  = Ok (mkOptimStateFp8 (mkTensor sh (repeat (0%Z : fp8) n))
          (vec (repeat F32.zero (Z.to_nat (N / bs)))) None (N / (N / bs))) /\
  numel (mkTensor sh (repeat (0%Z : fp8) n)) = N /\
  numel (vec (repeat F32.zero (Z.to_nat (N / bs)))) = (N / bs)%Z /\
  (0 < N / bs)%Z.
Proof.
  intros n N Hbs.
  assert (Hm : (0 < N / bs)%Z) by (apply Z.div_str_pos; lia).
  assert (Hnum : numel (mkTensor sh (repeat (0%Z : fp8) n)) = N)
    by (unfold numel; cbn [data]; rewrite repeat_length; reflexivity).
  assert (Hs : numel (vec (repeat F32.zero (Z.to_nat (N / bs)))) = (N / bs)%Z)
    by (unfold numel, vec; cbn [data]; rewrite repeat_length, Z2Nat.id; lia).
  split; [ | split; [exact Hnum | split; [exact Hs | exact Hm]]].
  unfold zeros. fold n. rewrite Hnum.
  replace (bs =? 0)%Z with false by (symmetry; apply Z.eqb_neq; lia).
  replace (N / bs <? 0)%Z with false by (symmetry; apply Z.ltb_ge; lia).
  unfold OptimStateFp8_init.
  change (ndim (vec (repeat F32.zero (Z.to_nat (N / bs))))) with 1%nat.
  cbn [Nat.eqb negb]. rewrite Hs, Hnum.
  replace (N / bs =? 0)%Z with false by (symmetry; apply Z.eqb_neq; lia).
  reflexivity.
Qed.

Lemma decoded_rows_zeros (sh : list nat) (m b : nat) (B : Z) :
  Z.to_nat B = b ->
  concat (decoded_rows
            (mkOptimStateFp8 (mkTensor sh (repeat (0%Z : fp8) (m * b)))
               (vec (repeat F32.zero m)) None B))
  = repeat F32.zero (m * b).
Proof.
  intros HB. unfold decoded_rows. cbn [codes scale block_size vec data].
  rewrite HB, repeat_length, map_repeat.
  replace (E4M3.to_f32 0%Z) with F32.zero by (vm_compute; reflexivity).
  rewrite <- (concat_repeat F32.zero b m) at 1.
  replace m with (length (repeat (repeat F32.zero b) m)) at 1
    by apply repeat_length.
  rewrite rows_of_concat.
  - rewrite map2_repeat, map_repeat.
    replace (F32.mul F32.zero F32.zero) with F32.zero by (vm_compute; reflexivity).
    apply concat_repeat.
  - apply Forall_forall. intros row Hin. apply repeat_spec in Hin. subst row.
    apply repeat_length.
Qed.

(** X15.  [zeros] with a block size that fits: the state decodes to zeros, with
    the block size asked for when it divides the element count. *)
Theorem zeros_decodes_to_zero (rt : Runtime) (sh : list nat) (bs : Z) :
  let n := fold_right Nat.mul 1%nat sh in
  let N := Z.of_nat n in
  (0 < bs <= N)%Z -> (N mod (N / bs) = 0)%Z ->
  exists st,
    zeros sh bs = Ok st /\
    ((N mod bs = 0)%Z -> block_size st = bs) /\
    dequantize rt st None = Ok (mkTensor sh (repeat F32.zero n)).
Proof.
  intros n N Hbs Hdiv.
  destruct (zeros_ok sh bs Hbs) as (Hz & Hnum & Hs & Hm).
  fold n N in Hz, Hnum, Hs, Hm.
  eexists. split; [exact Hz | ]. cbn [block_size]. split.
  - intros Hmod. apply Z.div_exact in Hmod; [ | lia].
    set (M := (N / bs)%Z) in *. rewrite Hmod. apply Z.div_mul. lia.
  - set (M := (N / bs)%Z) in *. set (B := (N / M)%Z).
    assert (HN : N = (M * B)%Z) by (apply Z.div_exact; lia).
    assert (HB : (0 < B)%Z) by nia.
    assert (Hn : n = (Z.to_nat M * Z.to_nat B)%nat).
    { rewrite <- Z2Nat.inj_mul, <- HN by lia. unfold N. rewrite Nat2Z.id.
      reflexivity. }
    rewrite dequantize_wellformed.
    + cbn [codes shape]. rewrite Hn at 1.
      rewrite (decoded_rows_zeros sh (Z.to_nat M) (Z.to_nat B) B eq_refl), <- Hn.
      reflexivity.
    + reflexivity.
    + exact HB.
    + cbn [codes scale block_size vec data]. rewrite !repeat_length. exact Hn.
Qed.

(** X15 at the shape [(2, 3)] and the block size 2. *)
Lemma zeros_decodes_to_zero_witness :
  ((0 < 2 <= Z.of_nat (fold_right Nat.mul 1%nat [2; 3]%nat))%Z /\
   (Z.of_nat (fold_right Nat.mul 1%nat [2; 3]%nat) mod
      (Z.of_nat (fold_right Nat.mul 1%nat [2; 3]%nat) / 2) = 0)%Z) /\
  forall rt,
  exists st,
    zeros [2; 3]%nat 2 = Ok st /\
    ((Z.of_nat (fold_right Nat.mul 1%nat [2; 3]%nat) mod 2 = 0)%Z ->
     block_size st = 2%Z) /\
    dequantize rt st None = Ok (mkTensor [2; 3]%nat (repeat F32.zero 6)).
Proof.
  split; [split; [split; [reflexivity | discriminate] | reflexivity] | ].
  intros rt.
  apply (zeros_decodes_to_zero rt [2; 3]%nat 2);
    [split; [reflexivity | discriminate] | reflexivity].
Defined.

(** X16.  [zeros] with a block size that leaves a partial block: the state is
    built, and cannot be decoded. *)
Theorem zeros_partial_block_undecodable (rt : Runtime) (sh : list nat) (bs : Z)
    (dt : option (f32 -> f32)) :
  let N := Z.of_nat (fold_right Nat.mul 1%nat sh) in
  (0 < bs <= N)%Z -> (N mod (N / bs) <> 0)%Z ->
  exists st,
    zeros sh bs = Ok st /\ dequantize rt st dt = Raise RuntimeError.
Proof.
  intros N Hbs Hdiv.
  destruct (zeros_ok sh bs Hbs) as (Hz & Hnum & Hs & Hm).
  fold N in Hz, Hnum, Hs, Hm.
  eexists. split; [exact Hz | ].
  rewrite <- Hnum at 2. rewrite <- Hs at 2.
  apply dequantize_uneven_raises.
  - rewrite Hs. lia.
  - rewrite Hnum, Hs. exact Hdiv.
Qed.

(** X16 at seven elements and the block size 2. *)
Lemma zeros_partial_block_witness :
  ((0 < 2 <= Z.of_nat (fold_right Nat.mul 1%nat [7]%nat))%Z /\
   (Z.of_nat (fold_right Nat.mul 1%nat [7]%nat) mod
      (Z.of_nat (fold_right Nat.mul 1%nat [7]%nat) / 2) <> 0)%Z) /\
  forall rt,
  exists st,
    zeros [7]%nat 2 = Ok st /\ dequantize rt st None = Raise RuntimeError.
Proof.
  split; [split; [split; [reflexivity | discriminate] | discriminate] | ].
  intros rt.
  apply (zeros_partial_block_undecodable rt [7]%nat 2 None);
    [split; [reflexivity | discriminate] | discriminate].
Defined.

(** ** The copy handler *)

Lemma shape_eqb_eq (s t : list nat) : shape_eqb s t = true <-> s = t.
Proof.
  unfold shape_eqb. destruct (list_eq_dec Nat.eq_dec s t); split; congruence.
Qed.

Lemma tensor_copy_shape {A : Type} (dst src t : tensor A) :
  tensor_copy_ dst src = Ok t -> shape t = shape dst.
Proof.
  unfold tensor_copy_. destruct (shape_eqb (shape src) (shape dst)).
  - intros H. injection H as <-. reflexivity.
  - destruct (Nat.ltb (ndim dst) (ndim src)); [discriminate | ].
    destruct (expand _ _ _); [ | discriminate].
    intros H. injection H as <-. reflexivity.
Qed.

Lemma tensor_copy_same_shape {A : Type} (dst src : tensor A) :
  shape src = shape dst -> tensor_copy_ dst src = Ok src.
Proof.
  intros H. unfold tensor_copy_.
  rewrite (proj2 (shape_eqb_eq _ _) H), <- H. destruct src; reflexivity.
Qed.

Lemma tensor_copy_raises {A : Type} (dst src : tensor A) (e : exn) :
  tensor_copy_ dst src = Raise e -> e = RuntimeError.
Proof.
  unfold tensor_copy_. destruct (shape_eqb (shape src) (shape dst)); [discriminate | ].
  destruct (Nat.ltb (ndim dst) (ndim src)); [congruence | ].
  destruct (expand _ _ _); congruence.
Qed.

(** X17.  The copy handler never changes the kind of its destination, the shapes
    of its tensors, its block size, or whether it has a [k]. *)
Theorem copy_preserves_layout (rt : Runtime) (dst src : pyarg) :
  same_layout dst (fst (copy_ rt dst src)).
Proof.
  destruct dst as [d | d]; destruct src as [s | s]; unfold copy_.
  - unfold_mut. cbn [block_size codes scale k fst].
    assert (Hk : match k d with Some kd => shape kd = shape kd | None => True end)
      by (destruct (k d); reflexivity).
    destruct (block_size d =? block_size s)%Z;
      [ | cbn; destruct (k d); repeat split; reflexivity].
    case_copy; [ | cbn; destruct (k d); repeat split; reflexivity].
    apply tensor_copy_shape in E.
    case_copy; [ | cbn; destruct (k d); repeat split; try reflexivity; exact E].
    apply tensor_copy_shape in E0.
    destruct (k d) as [kd | ] eqn:Ekd;
      [ | cbn; rewrite Ekd; repeat split; assumption].
    destruct (k s) as [ks | ];
      [ | cbn; rewrite Ekd; repeat split; assumption].
    case_copy; [ | cbn; rewrite Ekd; repeat split; assumption].
    apply tensor_copy_shape in E1.
    cbn. rewrite Ekd. repeat split; assumption.
  - cbn. destruct (k d); repeat split; reflexivity.
  - unfold_mut. destruct (dequantize rt s None) as [t | e]; [ | reflexivity].
    case_copy; [ | reflexivity].
    cbn. exact (tensor_copy_shape _ _ _ E).
  - reflexivity.
Qed.

(** X18.  Between two states that both have a [k], of the same block size and
    shapes, the copy makes the destination equal to the source. *)
Theorem copy_between_states_with_k (rt : Runtime) (d s : OptimStateFp8)
    (kd ks : tensor f32) :
  k d = Some kd -> k s = Some ks -> block_size d = block_size s ->
  shape (codes s) = shape (codes d) -> shape (scale s) = shape (scale d) ->
  shape ks = shape kd ->
  copy_ rt (Quantized d) (Quantized s) = (Quantized s, Ok tt).
Proof.
  intros Hkd Hks Hbs Hc Hs Hk. unfold copy_. unfold_mut.
  cbn [block_size codes scale k].
  rewrite Hbs, Z.eqb_refl.
  rewrite (tensor_copy_same_shape (codes d) (codes s) Hc).
  cbn [block_size codes scale k].
  rewrite (tensor_copy_same_shape (scale d) (scale s) Hs).
  cbn [block_size codes scale k].
  rewrite Hkd, Hks, (tensor_copy_same_shape kd ks Hk).
  rewrite ?Hbs, <- Hks. destruct s; reflexivity.
Qed.

(** X18 at two states of one block of two elements. *)
Lemma copy_between_states_with_k_witness :
  let d := mkOptimStateFp8 (vec [0; 0]%Z) (vec [Fin 0]) (Some (vec [Fin 1])) 2 in
  let s := mkOptimStateFp8 (vec [56; 192]%Z) (vec [Fin 2]) (Some (vec [Fin 3])) 2 in
  (k d = Some (vec [Fin 1]) /\ k s = Some (vec [Fin 3]) /\
   block_size d = block_size s) /\
  forall rt, copy_ rt (Quantized d) (Quantized s) = (Quantized s, Ok tt).
Proof.
  intros d s. split; [split; [reflexivity | split; reflexivity] | ].
  intros rt.
  apply (copy_between_states_with_k rt d s (vec [Fin 1]) (vec [Fin 3]));
    reflexivity.
Defined.

(** X19.  The copy between two states returns only when both have a [k] and their
    block sizes agree. *)
Theorem copy_between_states_needs_k (rt : Runtime) (d s : OptimStateFp8)
    (dst' : pyarg) :
  copy_ rt (Quantized d) (Quantized s) = (dst', Ok tt) ->
  k d <> None /\ k s <> None /\ block_size d = block_size s.
Proof.
  unfold copy_. unfold_mut. cbn [block_size codes scale k].
  destruct (block_size d =? block_size s)%Z eqn:Eb; [ | discriminate].
  apply Z.eqb_eq in Eb.
  case_copy; [ | discriminate].
  case_copy; [ | discriminate].
  destruct (k d); [ | discriminate].
  destruct (k s); [ | discriminate].
  intros _. repeat split; [discriminate | discriminate | exact Eb].
Qed.

(** X19 at the same two states. *)
Lemma copy_between_states_needs_k_witness :
  let d := mkOptimStateFp8 (vec [0; 0]%Z) (vec [Fin 0]) (Some (vec [Fin 1])) 2 in
  let s := mkOptimStateFp8 (vec [56; 192]%Z) (vec [Fin 2]) (Some (vec [Fin 3])) 2 in
  (forall rt, copy_ rt (Quantized d) (Quantized s) = (Quantized s, Ok tt)) /\
  k d <> None /\ k s <> None /\ block_size d = block_size s.
Proof.
  intros d s. split; [intros rt; reflexivity | ].
  apply (copy_between_states_needs_k
           (mkRuntime (fun _ => Raise RuntimeError) (fun x => x) (fun x _ => x))
           d s (Quantized s)).
  reflexivity.
Defined.

(** X20.  A copy into a plain tensor of the shape of the codes stores the decoded
    tensor; when decoding raises, the destination is left as it was. *)
Theorem copy_to_plain_stores_decoded (rt : Runtime) (d : tensor f32)
    (s : OptimStateFp8) :
  shape d = shape (codes s) ->
  copy_ rt (Plain d) (Quantized s)
  = match dequantize rt s None with
    | Ok t => (Plain t, Ok tt)
    | Raise _ => (Plain d, Raise RuntimeError)
    end.
Proof.
  intros Hsh. unfold copy_. unfold_mut.
  pose proof (dequantize_shape rt s None) as H.
  destruct (dequantize rt s None) as [t | e]; [ | subst e; reflexivity].
  destruct H as (H & _).
  rewrite (tensor_copy_same_shape d t); [reflexivity | congruence].
Qed.

(** X20 at a state of one block of two elements. *)
Lemma copy_to_plain_stores_decoded_witness :
  let d := vec [Fin 0; Fin 0] in
  let s := mkOptimStateFp8 (vec [56; 192]%Z) (vec [Fin 2]) None 2 in
  shape d = shape (codes s) /\
  forall rt,
    copy_ rt (Plain d) (Quantized s)
    = match dequantize rt s None with
      | Ok t => (Plain t, Ok tt)
      | Raise _ => (Plain d, Raise RuntimeError)
      end.
Proof.
  intros d s. split; [reflexivity | ].
  intros rt. apply (copy_to_plain_stores_decoded rt d s). reflexivity.
Defined.

(** ** Infinities and NaN *)









(** The block [1.0, -inf] decodes to NaN twice, and the block after it is
    decoded as usual. *)
Remark nonfinite_block_example :
  forall rt,
    quantize_fp8 rt (vec [Fin 1; Inf true; Fin 2; Fin 4]) 2 false
    = Ok (vec [0; 127; 118; 126]%Z,
          vec [Inf false; Fin (9586981 # 1073741824)], None) /\
    dequantize rt
      (mkOptimStateFp8 (vec [0; 127; 118; 126]%Z)
         (vec [Inf false; Fin (9586981 # 1073741824)]) None 2) None
    = Ok (vec [NaN; NaN; Fin 2; Fin 4]).
Proof. intros rt. split; vm_compute; reflexivity. Qed.

(** ** Signs, codes and errors of a finite input *)


(** The cast of a value of magnitude at most 464 keeps its sign, with a
    relative error of [2 ^ -4] above the subnormal codes and an absolute one
    of [2 ^ -10] below. *)
Lemma cast_signed_spec (y : Q) :
  Qabs y <= 464 ->
  exists w, E4M3.to_f32 (E4M3.of_f32 (Fin y)) = Fin w /\
            Qabs w <= E4M3.finfo_max /\
            (0 <= y -> 0 <= w) /\ (y <= 0 -> w <= 0) /\
            Qabs (w - y) <= Qabs y * (1 # 16) + (1 # 1024).
Proof.
  intros Hy. unfold E4M3.of_f32.
  set (a := Qabs y) in *.
  assert (Ha0 : 0 <= a) by apply Qabs_nonneg.
  pose proof (round_fmt_le_grid E4M3.prec E4M3.emin eq_refl a 464 14 5 Ha0 Hy)
    as Hle.
  assert (Hv : grid_value (round_fmt E4M3.prec E4M3.emin a) <= E4M3.finfo_max).
  { apply Hle; [reflexivity | unfold E4M3.emin; lia | vm_compute; reflexivity
               | vm_compute; discriminate]. }
  clear Hle.
  pose proof (round_fmt_nonneg E4M3.prec E4M3.emin a Ha0) as Hv0.
  pose proof (round_fmt_error E4M3.prec E4M3.emin a Ha0) as Herr.
  change (2 ^ (- E4M3.prec)) with (1 # 16) in Herr.
  change (2 ^ (E4M3.emin - 1)) with (1 # 1024) in Herr.
  destruct (round_fmt E4M3.prec E4M3.emin a) as [m e] eqn:Erf.
  pose proof Hv as Hvb. apply Qle_bool_iff in Hvb. rewrite Hvb. clear Hvb.
  assert (Hw : exists v, E4M3.to_f32 (E4M3.pack (F32.is_neg y) m e)
                         = Fin (Qred (if F32.is_neg y then - v else v)) /\
                         0 <= v <= E4M3.finfo_max /\ (a <= 0 -> v == 0) /\
                         Qabs (v - a) <= a * (1 # 16) + (1 # 1024)).
  { destruct (Qlt_le_dec 0 a) as [Hpos | Hz].
    - exists (grid_value (m, e)).
      pose proof (round_fmt_significand_le E4M3.prec E4M3.emin eq_refl a Hpos) as Hm1.
      pose proof (round_fmt_significand_ge E4M3.prec E4M3.emin eq_refl a Hpos) as Hm2.
      pose proof (ulp_exp_le_5 a Hpos Hy) as He5.
      pose proof (ulp_exp_ge_emin E4M3.prec E4M3.emin a) as He9.
      assert (Hm0 : (0 <= m)%Z).
      { replace m with (fst (round_fmt E4M3.prec E4M3.emin a)) by (rewrite Erf; reflexivity).
        unfold round_fmt. cbn [fst]. apply rne_nonneg.
        apply Qmult_le_0_compat; [exact Ha0 | apply Qlt_le_weak, pow2_pos]. }
      assert (Ee : ulp_exp E4M3.prec E4M3.emin a = e).
      { unfold round_fmt in Erf. congruence. }
      rewrite Erf in Hm1, Hm2. cbn [fst] in Hm1, Hm2. rewrite Ee in *.
      unfold E4M3.prec, E4M3.emin in *.
      split; [ | split; [split; assumption | split; [intros; lra | exact Herr]]].
      change (2 ^ (4 - 1))%Z with 8%Z in Hm2. change (2 ^ 4)%Z with 16%Z in Hm1.
      apply to_f32_pack; [lia | lia | lia | assumption].
    - exists 0. assert (Ea : a == 0) by lra.
      assert (Em : m = 0%Z).
      { replace m with (fst (round_fmt E4M3.prec E4M3.emin a)) by (rewrite Erf; reflexivity).
        unfold round_fmt. cbn [fst]. rewrite <- (rne_Z 0). apply rne_compat.
        transitivity (0 * 2 ^ (- ulp_exp E4M3.prec E4M3.emin a)); [ | ring].
        apply Qmult_comp; [exact Ea | reflexivity]. }
      subst m. split; [ | split; [ | split]].
      + destruct (F32.is_neg y); reflexivity.
      + unfold E4M3.finfo_max. lra.
      + intros _. reflexivity.
      + apply Qabs_Qle_condition. lra. }
  destruct Hw as (v & Hw & Hvr & Hva & Hve). subst a.
  exists (Qred (if F32.is_neg y then - v else v)). split; [exact Hw | ].
  rewrite Qred_correct. unfold F32.is_neg.
  destruct (Qle_bool 0 y) eqn:E; cbn [negb].
  - apply Qle_bool_iff in E. rewrite (Qabs_pos y E) in Hve, Hva.
    split; [rewrite Qabs_pos; lra | ]. split; [lra | ].
    split; [ | rewrite (Qabs_pos y E); exact Hve].
    intros Hy0. rewrite (Hva Hy0). lra.
  - assert (Hq : y < 0).
    { apply Qnot_le_lt; intro Hc. apply Qle_bool_iff in Hc. congruence. }
    rewrite (Qabs_neg y) in Hve by lra.
    split; [rewrite Qabs_opp, Qabs_pos; lra | ]. split; [lra | ].
    split; [lra | ]. rewrite (Qabs_neg y) by lra.
    apply Qabs_Qle_condition in Hve. apply Qabs_Qle_condition. lra.
Qed.

(** One element through [quantize_fp8] and [dequantize]: the code is not
    NaN, the sign is kept, and the error is a sixteenth of the element plus
    half the smallest subnormal code at the block's scale, but for the
    binary32 roundings. *)
Lemma element_round_trip_signed (C S x : Q) :
  (1 # 500000000000000) <= S -> 448 * S <= F32.max_value ->
  C <= (448 + (1 # 10000)) * S -> Qabs x <= C ->
  exists y w d,
    F32.div (Fin x) (Fin S) = Fin y /\
    E4M3.to_f32 (E4M3.of_f32 (Fin y)) = Fin w /\
    Qabs w <= E4M3.finfo_max /\
    F32.mul (Fin w) (Fin S) = Fin d /\
    (0 <= x -> 0 <= d) /\ (x <= 0 -> d <= 0) /\
    Qabs (d - x) <= Qabs x * (1 # 16) + ((1 # 1024) + (1 # 10000)) * S.
Proof.
  intros HS Hmax HC Hx.
  assert (HSpos : 0 < S) by lra.
  assert (Em : F32.max_value == 340282346638528859811704183484516925440) by reflexivity.
  unfold F32.div. rewrite (is_zero_pos S HSpos).
  assert (Hq : Qabs (x / S) <= 448 + (1 # 10000)).
  { unfold Qdiv. rewrite Qabs_Qmult, Qabs_Qinv, (Qabs_pos S) by lra.
    apply Qle_shift_div_r; [exact HSpos | lra]. }
  destruct (round_finite (x / S)) as (y & Ey & _ & Hy & Hyp & Hyn).
  { rewrite Em. lra. }
  rewrite u_eq, eta_eq in Hy.
  assert (Hy464 : Qabs y <= 464).
  { pose proof Hq as Hq'. apply Qabs_Qle_condition in Hq'.
    apply Qabs_Qle_condition in Hy. apply Qabs_Qle_condition.
    set (t := x / S) in *. lra. }
  destruct (cast_signed_spec y Hy464) as (w & Ew & Hw & Hwp & Hwn & Hwy).
  pose proof Hw as Hw'. unfold E4M3.finfo_max in Hw'.
  assert (Hws : Qabs (w * S) <= 448 * S) by (apply Qabs_mult_le; lra).
  destruct (round_finite (w * S)) as (d & Ed & _ & Hd & Hdp & Hdn).
  { lra. }
  rewrite u_eq, eta_eq in Hd.
  exists y, w, d. rewrite Ey, Ew. cbn [F32.mul]. rewrite Ed.
  split; [reflexivity | ]. split; [reflexivity | ]. split; [exact Hw | ].
  split; [reflexivity | ]. split; [ | split]; [intros Hx0 | intros Hx0 | ].
  - apply Hdp. apply Qmult_le_0_compat; [ | lra]. apply Hwp, Hyp.
    apply Qle_shift_div_l; [exact HSpos | lra].
  - apply Hdn.
    assert (Hw0 : w <= 0).
    { apply Hwn, Hyn. apply Qle_shift_div_r; [exact HSpos | lra]. }
    nra.
  - assert (H3 : Qabs ((y - x / S) * S)
                 <= ((448 + (1 # 10000)) * (1 # 16777216)
                     + (1 # 1427247692705959881058285969449495136382746624)) * S).
    { apply Qabs_mult_le; [ | lra]. set (t := x / S) in *. lra. }
    assert (Hys : Qabs (y * S) <= Qabs x + Qabs ((y - x / S) * S)).
    { assert (E : y * S == x + (y - x / S) * S) by (field; lra).
      rewrite E. apply Qabs_triangle. }
    assert (H2 : Qabs ((w - y) * S)
                 <= Qabs (y * S) * (1 # 16) + (1 # 1024) * S).
    { rewrite (Qabs_Qmult y S), (Qabs_pos S) by lra.
      eapply Qle_trans; [apply (Qabs_mult_le _ S _ Hwy); lra | ]. lra. }
    assert (E : d - x == (d - w * S) + (w - y) * S + (y - x / S) * S)
      by (field; lra).
    rewrite E.
    pose proof (Qabs_nonneg x) as Hx0.
    apply Qabs_Qle_condition in Hd, H2, H3. apply Qabs_Qle_condition.
    set (e1 := d - w * S) in *. set (e2 := (w - y) * S) in *.
    set (e3 := (y - x / S) * S) in *. set (ws := Qabs (w * S)) in *.
    set (ys := Qabs (y * S)) in *. set (ax := Qabs x) in *.
    assert (He3 : Qabs e3
                  <= ((448 + (1 # 10000)) * (1 # 16777216)
                      + (1 # 1427247692705959881058285969449495136382746624)) * S)
      by (apply Qabs_Qle_condition; lra).
    set (a3 := Qabs e3) in *.
    lra.
Qed.

(** A finite input is encoded without NaN codes, and every decoded element
    has the sign of the input element. *)
Lemma round_trip_signs (rt : Runtime) (input : tensor f32) (bs : Z) :
  (0 < bs)%Z -> (0 < numel input)%Z -> (numel input mod bs = 0)%Z ->
  Forall finite32 (data input) ->
  exists qc qs st out,
    quantize_fp8 rt input bs false = Ok (qc, qs, None) /\
    OptimStateFp8_init qc qs = Ok st /\
    dequantize rt st None = Ok out /\
    forall (i : nat) (x : Q),
      nth_error (data input) i = Some (Fin x) ->
      exists c w d s,
        nth_error (data qc) i = Some c /\
        E4M3.to_f32 c = Fin w /\ Qabs w <= E4M3.finfo_max /\
        nth_error (data out) i = Some (Fin d) /\
        (0 <= x -> 0 <= d) /\ (x <= 0 -> d <= 0) /\
        nth_error (data qs) (i / Z.to_nat bs) = Some (Fin s) /\
        Qabs (d - x) <= Qabs x * (1 # 16) + ((1 # 1024) + (1 # 10000)) * s.
Proof.
  intros Hbs Hpos Hmod Hfin.
  destruct (view_rows_ok (data input) bs Hbs Hmod) as (rows & Hv).
  destruct (view_rows_spec _ _ _ Hv) as (_ & Hlen & Hrows & Hcat).
  assert (Hne : rows <> []).
  { intros ->. cbn in Hcat. unfold numel in Hpos. rewrite <- Hcat in Hpos.
    cbn in Hpos. lia. }
  destruct (round_trip_rows rt input bs rows Hv Hne) as (Hq & Hi & Hd).
  eexists _, _, _, _. split; [exact Hq | ]. split; [exact Hi | ].
  split; [exact Hd | ].
  intros i x Hx. cbn [data vec].
  assert (Hn : (0 < Z.to_nat bs)%nat) by lia.
  set (n := Z.to_nat bs) in *.
  rewrite <- Hcat, (nth_error_concat_rows n rows i Hn Hrows) in Hx.
  destruct (nth_error rows (i / n)) as [row | ] eqn:Erow; [ | discriminate].
  pose proof (rows_finite _ _ _ Hv Hfin) as Hrf.
  rewrite Forall_forall in Hrf.
  destruct (Hrf row (nth_error_In _ _ Erow)) as (Hrne & Hrow).
  destruct (block_scale_spec row Hrne Hrow) as (S & ES & HS & HM & HB).
  rewrite Forall_forall in HB.
  destruct (HB _ (nth_error_In _ _ Hx)) as (q & Eq & Hq').
  injection Eq as <-.
  destruct (element_round_trip_signed _ S x HS HM (Qle_refl _) Hq')
    as (y & w & d & Ey & Ew & Hw & Ed & Hp & Hn' & Hrel).
  exists (E4M3.of_f32 (Fin y)), w, d, S.
  split; [ | split; [exact Ew | split; [exact Hw | split;
    [ | split; [exact Hp | split; [exact Hn' | split; [ | exact Hrel]]]]]]];
    [ | | rewrite (map_nth_error block_scale _ _ Erow), ES; reflexivity].
  - rewrite nth_error_map, nth_error_concat_rows with (n := n);
      [ | exact Hn | apply Forall_map_length; [ | exact Hrows];
                     intros r; apply length_map ].
    rewrite nth_error_map, Erow. cbn [option_map].
    rewrite nth_error_map, Hx. cbn [option_map]. rewrite ES, Ey. reflexivity.
  - rewrite nth_error_concat_rows with (n := n);
      [ | exact Hn | apply Forall_map_length; [ | exact Hrows];
                     intros r; apply length_map ].
    rewrite nth_error_map, Erow. cbn [option_map].
    rewrite nth_error_map, Hx. cbn [option_map].
    unfold round_trip_elem. rewrite ES, Ey, Ew, Ed. reflexivity.
Qed.

(** X4.  Under the hypotheses of C1 every decoded element has the sign of
    the input element; in particular a zero is decoded as zero. *)
Theorem round_trip_keeps_sign (rt : Runtime) (input : tensor f32) (bs : Z) :
  (0 < bs)%Z -> (0 < numel input)%Z -> (numel input mod bs = 0)%Z ->
  Forall finite32 (data input) ->
  exists qc qs st out,
    quantize_fp8 rt input bs false = Ok (qc, qs, None) /\
    OptimStateFp8_init qc qs = Ok st /\
    dequantize rt st None = Ok out /\
    forall (i : nat) (x : Q),
      nth_error (data input) i = Some (Fin x) ->
      exists d,
        nth_error (data out) i = Some (Fin d) /\
        (0 <= x -> 0 <= d) /\ (x <= 0 -> d <= 0) /\ (x == 0 -> d == 0).
Proof.
  intros Hbs Hpos Hmod Hfin.
  destruct (round_trip_signs rt input bs Hbs Hpos Hmod Hfin)
    as (qc & qs & st & out & Hq & Hi & Hd & H).
  exists qc, qs, st, out. repeat (split; [assumption | ]).
  intros i x Hx.
  destruct (H i x Hx) as (c & w & d & s & _ & _ & _ & Ho & Hp & Hn & _).
  exists d. split; [exact Ho | ]. split; [exact Hp | ]. split; [exact Hn | ].
  intros Hz. assert (0 <= d) by (apply Hp; lra). assert (d <= 0) by (apply Hn; lra).
  lra.
Qed.

(** X4 at the block [1.0, -2.0, 0.5, 4.0]. *)
Lemma round_trip_keeps_sign_witness :
  ((0 < 4)%Z /\ (0 < numel spec_block)%Z /\
   (numel spec_block mod 4 = 0)%Z /\ Forall finite32 (data spec_block)) /\
  forall rt : Runtime,
  exists qc qs st out,
    quantize_fp8 rt spec_block 4 false = Ok (qc, qs, None) /\
    OptimStateFp8_init qc qs = Ok st /\
    dequantize rt st None = Ok out /\
    forall (i : nat) (x : Q),
      nth_error (data spec_block) i = Some (Fin x) ->
      exists d,
        nth_error (data out) i = Some (Fin d) /\
        (0 <= x -> 0 <= d) /\ (x <= 0 -> d <= 0) /\ (x == 0 -> d == 0).
Proof.
  split.
  - split; [reflexivity | ]. split; [reflexivity | ].
    split; [reflexivity | exact spec_block_finite].
  - intros rt.
    apply (round_trip_keeps_sign rt spec_block 4%Z);
      [reflexivity | reflexivity | reflexivity | exact spec_block_finite].
Defined.

(** X5.  A finite input is encoded without NaN codes: every code widens to
    a finite value of magnitude at most 448. *)
Theorem finite_input_has_no_nan_code (rt : Runtime) (input : tensor f32)
    (bs : Z) (qc : tensor fp8) (qs : tensor f32) (kk : option (tensor f32)) :
  Forall finite32 (data input) ->
  quantize_fp8 rt input bs false = Ok (qc, qs, kk) ->
  Forall (fun c => bounded_by E4M3.finfo_max (E4M3.to_f32 c)) (data qc).
Proof.
  intros Hfin Hq.
  destruct (view_rows (data input) bs) as [rows | e] eqn:Hv;
    [ | unfold quantize_fp8 in Hq; rewrite Hv in Hq; discriminate].
  rewrite (quantize_fp8_plain rt input bs rows Hv) in Hq.
  injection Hq as <- _ _. cbn [data].
  pose proof (rows_finite _ _ _ Hv Hfin) as Hrf.
  apply Forall_map, Forall_concat, Forall_map.
  eapply Forall_impl; [ | exact Hrf].
  intros row (Hne & Hrow).
  destruct (block_scale_spec row Hne Hrow) as (S & ES & HS & HM & HB).
  apply Forall_map. eapply Forall_impl; [ | exact HB].
  intros x (q & -> & Hq). rewrite ES.
  destruct (element_round_trip_signed _ S q HS HM (Qle_refl _) Hq)
    as (y & w & d & Ey & Ew & Hw & _).
  rewrite Ey, Ew. exists w. split; [reflexivity | exact Hw].
Qed.

(** X5 at the block [1.0, -2.0, 0.5, 4.0]. *)
Lemma finite_input_has_no_nan_code_witness :
  Forall finite32 (data spec_block) /\
  exists qc qs,
    (forall rt, quantize_fp8 rt spec_block 4 false = Ok (qc, qs, None)) /\
    Forall (fun c => bounded_by E4M3.finfo_max (E4M3.to_f32 c)) (data qc).
Proof.
  split; [exact spec_block_finite | ].
  eexists _, _.
  assert (Hq : forall rt, quantize_fp8 rt spec_block 4 false = Ok (_, _, None))
    by (intros rt; vm_compute; reflexivity).
  split; [exact Hq | ].
  exact (finite_input_has_no_nan_code
           (mkRuntime (fun _ => Raise RuntimeError) (fun x => x) (fun x _ => x))
           spec_block 4 _ _ None spec_block_finite (Hq _)).
Defined.

(** X24.  Under the hypotheses of C1 the error of a decoded element is at
    most a sixteenth of the element, the relative precision of E4M3, plus
    [(1/1024 + 1/10000)] scales: half the smallest subnormal code at the
    block's scale, and the binary32 roundings. *)
Theorem round_trip_relative_error (rt : Runtime) (input : tensor f32) (bs : Z) :
  (0 < bs)%Z -> (0 < numel input)%Z -> (numel input mod bs = 0)%Z ->
  Forall finite32 (data input) ->
  exists qc qs st out,
    quantize_fp8 rt input bs false = Ok (qc, qs, None) /\
    OptimStateFp8_init qc qs = Ok st /\
    dequantize rt st None = Ok out /\
    forall (i : nat) (x : Q),
      nth_error (data input) i = Some (Fin x) ->
      exists s d,
        nth_error (data qs) (i / Z.to_nat bs) = Some (Fin s) /\
        nth_error (data out) i = Some (Fin d) /\
        Qabs (d - x) <= Qabs x * (1 # 16) + ((1 # 1024) + (1 # 10000)) * s.
Proof.
  intros Hbs Hpos Hmod Hfin.
  destruct (round_trip_signs rt input bs Hbs Hpos Hmod Hfin)
    as (qc & qs & st & out & Hq & Hi & Hd & H).
  exists qc, qs, st, out. repeat (split; [assumption | ]).
  intros i x Hx.
  destruct (H i x Hx) as (c & w & d & s & _ & _ & _ & Ho & _ & _ & Hs & Hrel).
  exists s, d. split; [exact Hs | ]. split; [exact Ho | exact Hrel].
Qed.

(** X24 at the block [1.0, -2.0, 0.5, 4.0]. *)
Lemma round_trip_relative_error_witness :
  ((0 < 4)%Z /\ (0 < numel spec_block)%Z /\
   (numel spec_block mod 4 = 0)%Z /\ Forall finite32 (data spec_block)) /\
  forall rt : Runtime,
  exists qc qs st out,
    quantize_fp8 rt spec_block 4 false = Ok (qc, qs, None) /\
    OptimStateFp8_init qc qs = Ok st /\
    dequantize rt st None = Ok out /\
    forall (i : nat) (x : Q),
      nth_error (data spec_block) i = Some (Fin x) ->
      exists s d,
        nth_error (data qs) (i / Z.to_nat 4) = Some (Fin s) /\
        nth_error (data out) i = Some (Fin d) /\
        Qabs (d - x) <= Qabs x * (1 # 16) + ((1 # 1024) + (1 # 10000)) * s.
Proof.
  split.
  - split; [reflexivity | ]. split; [reflexivity | ].
    split; [reflexivity | exact spec_block_finite].
  - intros rt.
    apply (round_trip_relative_error rt spec_block 4%Z);
      [reflexivity | reflexivity | reflexivity | exact spec_block_finite].
Defined.


(** ** Underflow *)

(** A value of magnitude at most [2 ^ -10], half the smallest subnormal of
    E4M3, is cast to a zero. *)
Lemma cast_small (y : Q) :
  Qabs y <= 1 # 1024 ->
  E4M3.of_f32 (Fin y) = (if F32.is_neg y then 128 else 0)%Z.
Proof.
  intros Hy. unfold E4M3.of_f32.
  set (a := Qabs y) in *.
  assert (Ha0 : 0 <= a) by apply Qabs_nonneg.
  assert (Hm : fst (round_fmt E4M3.prec E4M3.emin a) = 0%Z).
  { unfold round_fmt. cbn [fst].
    set (e := ulp_exp E4M3.prec E4M3.emin a).
    pose proof (ulp_exp_ge_emin E4M3.prec E4M3.emin a) as He. fold e in He.
    assert (Hp : 2 ^ (- e) <= 512).
    { change 512 with (2 ^ 9). apply pow2_le. unfold E4M3.emin in He. lia. }
    pose proof (pow2_pos (- e)) as Hp0.
    apply Z.le_antisymm.
    - change 0%Z with (rne (1 # 2)). apply rne_mono.
      assert (a * 2 ^ (- e) <= (1 # 1024) * 2 ^ (- e))
        by (apply Qmult_le_compat_r; lra).
      hide_pow2. lra.
    - apply rne_nonneg. apply Qmult_le_0_compat; lra. }
  destruct (round_fmt E4M3.prec E4M3.emin a) as [m e] eqn:Erf.
  cbn [fst] in Hm. subst m.
  assert (Hv : grid_value (0%Z, e) <= E4M3.finfo_max).
  { rewrite grid_value_eq. unfold E4M3.finfo_max.
    setoid_replace (inject_Z 0 * 2 ^ e) with 0 by ring. discriminate. }
  apply Qle_bool_iff in Hv. rewrite Hv.
  destruct (F32.is_neg y); reflexivity.
Qed.

(** Binary32 rounding does not step over [2 ^ -10]. *)
Lemma round_small (q : Q) :
  Qabs q <= 1 # 1024 ->
  exists y, F32.round q = Fin y /\ Qabs y <= 1 # 1024.
Proof.
  intros Hq.
  assert (Hmax : Qabs q <= F32.max_value).
  { eapply Qle_trans; [exact Hq | ]. vm_compute. discriminate. }
  destruct (round_finite q Hmax) as (y & Ey & _).
  exists y. split; [exact Ey | ].
  unfold F32.round in Ey.
  destruct (round_nearest_spec F32.prec F32.emin q) as (Ha & _).
  destruct (Qle_bool _ _) in Ey; [ | discriminate]. injection Ey as <-.
  rewrite Ha.
  assert (E : inject_Z 8388608 * 2 ^ (-33) == 1 # 1024) by reflexivity.
  rewrite <- E.
  apply (round_fmt_le_grid F32.prec F32.emin eq_refl (Qabs q) (1 # 1024)
           8388608 (-33)).
  - apply Qabs_nonneg.
  - exact Hq.
  - reflexivity.
  - unfold F32.emin. lia.
  - vm_compute. reflexivity.
  - vm_compute. discriminate.
Qed.

(** An element below a 1024th of its block's scale is stored as a zero and
    decoded as zero. *)
Lemma element_flush (S x : Q) :
  0 < S -> 448 * S <= F32.max_value -> 1024 * Qabs x <= S ->
  exists c d,
    E4M3.of_f32 (F32.div (Fin x) (Fin S)) = c /\ (c = 0%Z \/ c = 128%Z) /\
    round_trip_elem (Fin S) (Fin x) = Fin d /\ d == 0.
Proof.
  intros HS Hmax Hx.
  unfold round_trip_elem, F32.div. rewrite (is_zero_pos S HS).
  assert (Hq : Qabs (x / S) <= 1 # 1024).
  { unfold Qdiv. rewrite Qabs_Qmult, Qabs_Qinv, (Qabs_pos S) by lra.
    apply Qle_shift_div_r; [exact HS | lra]. }
  destruct (round_small (x / S) Hq) as (y & Ey & Hy).
  rewrite Ey, (cast_small y Hy).
  assert (Hw : E4M3.to_f32 (if F32.is_neg y then 128 else 0)%Z = Fin 0)
    by (destruct (F32.is_neg y); vm_compute; reflexivity).
  rewrite Hw. cbn [F32.mul].
  destruct (round_finite (0 * S)) as (d & Ed & _ & _ & Hp & Hn).
  { setoid_replace (0 * S) with 0 by ring. vm_compute. discriminate. }
  exists (if F32.is_neg y then 128 else 0)%Z, d.
  split; [reflexivity | ].
  split; [destruct (F32.is_neg y); [right | left]; reflexivity | ].
  split; [exact Ed | ].
  assert (0 <= d) by (apply Hp; lra). assert (d <= 0) by (apply Hn; lra). lra.
Qed.

(** X25.  Under the hypotheses of C1 an element whose magnitude is at most
    a 1024th of its block's scale underflows: its code is a zero (0, or 128
    with the sign bit) and it is decoded as zero. *)
Theorem small_elements_flush_to_zero (rt : Runtime) (input : tensor f32)
    (bs : Z) :
  (0 < bs)%Z -> (0 < numel input)%Z -> (numel input mod bs = 0)%Z ->
  Forall finite32 (data input) ->
  exists qc qs st out,
    quantize_fp8 rt input bs false = Ok (qc, qs, None) /\
    OptimStateFp8_init qc qs = Ok st /\
    dequantize rt st None = Ok out /\
    forall (i : nat) (x s : Q),
      nth_error (data input) i = Some (Fin x) ->
      nth_error (data qs) (i / Z.to_nat bs) = Some (Fin s) ->
      1024 * Qabs x <= s ->
      (nth_error (data qc) i = Some 0%Z \/ nth_error (data qc) i = Some 128%Z) /\
      exists d, nth_error (data out) i = Some (Fin d) /\ d == 0.
Proof.
  intros Hbs Hpos Hmod Hfin.
  destruct (view_rows_ok (data input) bs Hbs Hmod) as (rows & Hv).
  destruct (view_rows_spec _ _ _ Hv) as (_ & Hlen & Hrows & Hcat).
  assert (Hne : rows <> []).
  { intros ->. cbn in Hcat. unfold numel in Hpos. rewrite <- Hcat in Hpos.
    cbn in Hpos. lia. }
  destruct (round_trip_rows rt input bs rows Hv Hne) as (Hq & Hi & Hd).
  eexists _, _, _, _. split; [exact Hq | ]. split; [exact Hi | ].
  split; [exact Hd | ].
  intros i x s Hx Hs Hsmall. cbn [data vec] in *.
  assert (Hn : (0 < Z.to_nat bs)%nat) by lia.
  set (n := Z.to_nat bs) in *.
  rewrite <- Hcat, (nth_error_concat_rows n rows i Hn Hrows) in Hx.
  destruct (nth_error rows (i / n)) as [row | ] eqn:Erow; [ | discriminate].
  pose proof (rows_finite _ _ _ Hv Hfin) as Hrf.
  rewrite Forall_forall in Hrf.
  destruct (Hrf row (nth_error_In _ _ Erow)) as (Hrne & Hrow).
  destruct (block_scale_spec row Hrne Hrow) as (S & ES & HS & HM & _).
  rewrite (map_nth_error block_scale _ _ Erow), ES in Hs. injection Hs as <-.
  destruct (element_flush S x) as (c & d & Ec & Hc & Ed & Hd0);
    [lra | exact HM | exact Hsmall | ].
  assert (Hcode : nth_error
                    (map E4M3.of_f32
                       (concat (map (fun row0 => map (fun x0 => F32.div x0 (block_scale row0)) row0)
                                  rows))) i = Some c).
  { rewrite nth_error_map, nth_error_concat_rows with (n := n);
      [ | exact Hn | apply Forall_map_length; [ | exact Hrows];
                     intros r; apply length_map ].
    rewrite nth_error_map, Erow. cbn [option_map].
    rewrite nth_error_map, Hx. cbn [option_map]. rewrite ES, Ec. reflexivity. }
  split.
  - rewrite Hcode. destruct Hc as [-> | ->]; [left | right]; reflexivity.
  - exists d. split; [ | exact Hd0].
    rewrite nth_error_concat_rows with (n := n);
      [ | exact Hn | apply Forall_map_length; [ | exact Hrows];
                     intros r; apply length_map ].
    rewrite nth_error_map, Erow. cbn [option_map].
    rewrite nth_error_map, Hx. cbn [option_map]. rewrite ES, Ed. reflexivity.
Qed.

(** X25 at the block [448.0, 0.0005]: the scale is 1. *)
Lemma small_elements_flush_witness :
  let input := vec [Fin 448; Fin (1 # 2000)] in
  ((0 < 2)%Z /\ (0 < numel input)%Z /\ (numel input mod 2 = 0)%Z /\
   Forall finite32 (data input)) /\
  forall rt : Runtime,
  exists qc qs st out,
    quantize_fp8 rt input 2 false = Ok (qc, qs, None) /\
    OptimStateFp8_init qc qs = Ok st /\
    dequantize rt st None = Ok out /\
    forall (i : nat) (x s : Q),
      nth_error (data input) i = Some (Fin x) ->
      nth_error (data qs) (i / Z.to_nat 2) = Some (Fin s) ->
      1024 * Qabs x <= s ->
      (nth_error (data qc) i = Some 0%Z \/ nth_error (data qc) i = Some 128%Z) /\
      exists d, nth_error (data out) i = Some (Fin d) /\ d == 0.
Proof.
  intros input.
  assert (Hfin : Forall finite32 (data input))
    by (repeat constructor; vm_compute; discriminate).
  split; [split; [reflexivity | split; [reflexivity | split;
    [reflexivity | exact Hfin]]] | ].
  intros rt.
  apply (small_elements_flush_to_zero rt input 2);
    [reflexivity | reflexivity | reflexivity | exact Hfin].
Defined.

(** In the block [448.0, 0.0005] the second element is lost. *)
Remark small_elements_flush_example :
  forall rt,
    quantize_fp8 rt (vec [Fin 448; Fin (1 # 2000)]) 2 false
    = Ok (vec [126; 0]%Z, vec [Fin 1], None) /\
    dequantize rt (mkOptimStateFp8 (vec [126; 0]%Z) (vec [Fin 1]) None 2) None
    = Ok (vec [Fin 448; Fin 0]).
Proof. intros rt. split; vm_compute; reflexivity. Qed.

(** ** The largest element of a block *)

(** The values that round to the largest E4M3 value. *)
Lemma round_fmt_top (a : Q) :
  432 <= a -> a <= 464 -> round_fmt E4M3.prec E4M3.emin a = (14, 5)%Z.
Proof.
  intros Hlo Hhi. assert (Ha : 0 < a) by lra.
  destruct (Qlog2_spec a Ha) as [H1 H2].
  assert (Hl : Qlog2 a = 8%Z).
  { assert (Qlog2 a < 9)%Z by (apply Qlog2_lt; [exact Ha | ];
      apply Qle_lt_trans with (1 := Hhi); reflexivity).
    assert (8 < Qlog2 a + 1)%Z.
    { apply pow2_lt_inv. apply Qle_lt_trans with (2 := H2).
      apply Qle_trans with (2 := Hlo). vm_compute. discriminate. }
    lia. }
  unfold round_fmt, ulp_exp. rewrite (Qabs_nonneg_eq a) by lra. rewrite Hl.
  change (Z.max (8 - (E4M3.prec - 1)) E4M3.emin) with 5%Z.
  f_equal. change (2 ^ (- (5))) with (1 # 32).
  apply Z.le_antisymm.
  - change 14%Z with (rne (29 # 2)). apply rne_mono. lra.
  - change 14%Z with (rne (27 # 2)). apply rne_mono. lra.
Qed.

Lemma cast_top (y : Q) :
  432 <= Qabs y -> Qabs y <= 464 ->
  E4M3.of_f32 (Fin y) = (if F32.is_neg y then 254 else 126)%Z.
Proof.
  intros Hlo Hhi. unfold E4M3.of_f32. rewrite (round_fmt_top _ Hlo Hhi).
  destruct (F32.is_neg y); vm_compute; reflexivity.
Qed.

(** The scale of a block whose maximum [C] is not clipped: [C] is 448
    scales, but for rounding. *)
Lemma scale_two_sided (C : Q) :
  clip_min_value <= C -> C <= F32.max_value ->
  exists S, F32.div (Fin C) (F32.of_pyfloat E4M3.finfo_max) = Fin S /\
            0 < S /\
            (448 - (1 # 10000)) * S <= C /\
            C <= (448 + (1 # 10000)) * S.
Proof.
  intros Hc0 Hmax. rewrite of_pyfloat_max. unfold F32.div.
  rewrite (is_zero_pos 448) by reflexivity.
  assert (Hq : 0 <= C / 448).
  { change (C / 448) with (C * (1 # 448)). unfold clip_min_value in Hc0. lra. }
  unfold F32.round.
  destruct (round_nearest_spec F32.prec F32.emin (C / 448)) as (Ha & He & Hs & _).
  set (r := round_nearest F32.prec F32.emin (C / 448)) in *.
  specialize (Hs Hq).
  assert (Hr : r <= 759558809461001919222553980992225280).
  { rewrite <- (Qabs_pos r Hs), Ha, (Qabs_nonneg_eq _ Hq).
    assert (E : inject_Z 9586980 * 2 ^ 96 == 759558809461001919222553980992225280)
      by reflexivity.
    rewrite <- E.
    apply (round_fmt_le_grid F32.prec F32.emin eq_refl (C / 448)
             759558809461001919222553980992225280 9586980 96).
    - exact Hq.
    - unfold F32.max_value in Hmax.
      assert (Em : (2 ^ 24 - 1) * 2 ^ 104 == 340282346638528859811704183484516925440)
        by reflexivity.
      rewrite Em in Hmax. change (C / 448) with (C * (1 # 448)). lra.
    - reflexivity.
    - unfold F32.emin. lia.
    - vm_compute. reflexivity.
    - vm_compute. discriminate. }
  assert (Em : F32.max_value == 340282346638528859811704183484516925440) by reflexivity.
  assert (Hrm : Qabs r <= F32.max_value) by (rewrite (Qabs_pos r Hs), Em; lra).
  exists r. apply Qle_bool_iff in Hrm. rewrite Hrm. split; [reflexivity | ].
  rewrite (Qabs_pos _ Hq) in He. apply Qabs_Qle_condition in He.
  change (2 ^ (- F32.prec)) with F32.u in He.
  change (2 ^ (F32.emin - 1)) with F32.eta in He.
  rewrite u_eq, eta_eq in He. unfold clip_min_value in Hc0.
  change (C / 448) with (C * (1 # 448)) in *.
  repeat split; lra.
Qed.

Lemma is_neg_pos (q : Q) : 0 <= q -> F32.is_neg q = false.
Proof.
  intros H. unfold F32.is_neg. apply Qle_bool_iff in H. rewrite H. reflexivity.
Qed.

Lemma is_neg_neg (q : Q) : q < 0 -> F32.is_neg q = true.
Proof.
  intros H. unfold F32.is_neg. destruct (Qle_bool 0 q) eqn:E; [ | reflexivity].
  apply Qle_bool_iff in E. lra.
Qed.

(** The element whose magnitude is the block's maximum is encoded as 448 or
    as -448. *)
Lemma element_top_code (C S x : Q) :
  0 < S -> 448 * S <= F32.max_value ->
  (448 - (1 # 10000)) * S <= C -> C <= (448 + (1 # 10000)) * S ->
  Qabs x <= C -> C <= Qabs x ->
  E4M3.of_f32 (F32.div (Fin x) (Fin S)) = (if F32.is_neg x then 254 else 126)%Z.
Proof.
  intros HS Hmax Hlo Hhi Hx1 Hx2.
  assert (Em : F32.max_value == 340282346638528859811704183484516925440) by reflexivity.
  unfold F32.div. rewrite (is_zero_pos S HS).
  set (t := x / S).
  assert (Ht : x == t * S) by (unfold t; field; lra).
  destruct (Qlt_le_dec x 0) as [Hneg | Hpos].
  - rewrite (Qabs_neg x) in Hx1, Hx2 by lra.
    assert (Ht1 : t <= - (448 - (1 # 10000))).
    { unfold t. apply Qle_shift_div_r; [exact HS | lra]. }
    assert (Ht2 : - (448 + (1 # 10000)) <= t).
    { unfold t. apply Qle_shift_div_l; [exact HS | lra]. }
    destruct (round_finite t) as (y & Ey & _ & Hy & _ & _).
    { rewrite Em. apply Qabs_Qle_condition. lra. }
    rewrite u_eq, eta_eq in Hy. rewrite (Qabs_neg t) in Hy by lra.
    apply Qabs_Qle_condition in Hy.
    rewrite Ey, cast_top.
    + rewrite (is_neg_neg y), (is_neg_neg x) by lra. reflexivity.
    + rewrite (Qabs_neg y) by lra. lra.
    + rewrite (Qabs_neg y) by lra. lra.
  - rewrite (Qabs_pos x) in Hx1, Hx2 by lra.
    assert (Ht1 : 448 - (1 # 10000) <= t).
    { unfold t. apply Qle_shift_div_l; [exact HS | lra]. }
    assert (Ht2 : t <= 448 + (1 # 10000)).
    { unfold t. apply Qle_shift_div_r; [exact HS | lra]. }
    destruct (round_finite t) as (y & Ey & _ & Hy & _ & _).
    { rewrite Em. apply Qabs_Qle_condition. lra. }
    rewrite u_eq, eta_eq in Hy. rewrite (Qabs_pos t) in Hy by lra.
    apply Qabs_Qle_condition in Hy.
    rewrite Ey, cast_top.
    + rewrite (is_neg_pos y), (is_neg_pos x) by lra. reflexivity.
    + rewrite (Qabs_pos y) by lra. lra.
    + rewrite (Qabs_pos y) by lra. lra.
Qed.

Lemma fold_max_le (r : list f32) (a B : Q) :
  Forall (bounded_by B) r -> a <= B ->
  exists A, fold_left F32.max (map F32.abs r) (Fin a) = Fin A /\ A <= B.
Proof.
  intros Hr. revert a. induction Hr as [ | x r Hx _ IH]; intros a Ha.
  - exists a. split; [reflexivity | exact Ha].
  - destruct Hx as (q & -> & Hq). cbn [map fold_left F32.abs]. rewrite max_fin.
    destruct (Qle_bool (Qred (Qabs q)) a); apply IH; [exact Ha | ].
    rewrite Qred_correct. exact Hq.
Qed.

(** The scale of a block of finite elements whose largest magnitude [|x|]
    is not clipped. *)
Lemma block_scale_of_maximum (row : list f32) (x : Q) :
  Forall finite32 row -> In (Fin x) row -> Forall (bounded_by (Qabs x)) row ->
  clip_min_value <= Qabs x ->
  exists C S, block_scale row = Fin S /\ 0 < S /\ 448 * S <= F32.max_value /\
              (448 - (1 # 10000)) * S <= C /\ C <= (448 + (1 # 10000)) * S /\
              Qabs x <= C /\ C <= Qabs x.
Proof.
  intros Hfin Hin Hb Hclip.
  assert (Hne : row <> []) by (intros ->; contradiction).
  destruct (amax_abs_spec row Hne Hfin) as (A & EA & HA0 & HAM & HA).
  assert (HxA : Qabs x <= A).
  { rewrite Forall_forall in HA. destruct (HA _ Hin) as (q & Eq & Hq).
    injection Eq as <-. exact Hq. }
  assert (HAx : A <= Qabs x).
  { destruct row as [ | x0 r]; [contradiction | ].
    inversion Hb as [ | ? ? Hx0 Hr]; subst.
    destruct Hx0 as (q0 & -> & Hq0).
    unfold amax, reduce in EA. cbn [map F32.abs] in EA.
    destruct (fold_max_le r (Qred (Qabs q0)) (Qabs x) Hr) as (A' & EA' & HA').
    { rewrite Qred_correct. exact Hq0. }
    rewrite EA in EA'. injection EA' as <-. exact HA'. }
  destruct (block_scale_spec row Hne Hfin) as (S0 & ES0 & HS0 & HM0 & _).
  assert (Hc : clip (Fin A) = Fin A).
  { unfold clip. rewrite clip_min_eq, max_fin.
    assert (H : clip_min_value <= A) by lra.
    apply Qle_bool_iff in H. rewrite H. reflexivity. }
  destruct (scale_two_sided A) as (S & ES & HS & Hlo & Hhi); [lra | exact HAM | ].
  exists A, S. unfold block_scale in *. rewrite EA, Hc in *.
  rewrite ES in ES0. injection ES0 as <-.
  repeat split; assumption.
Qed.

Lemma nth_error_row_index {A : Type} (n : nat) (rows : list (list A))
    (b p : nat) (row : list A) (z : A) :
  (0 < n)%nat -> Forall (fun row => length row = n) rows ->
  nth_error rows b = Some row -> nth_error row p = Some z ->
  nth_error (concat rows) (b * n + p) = Some z /\ ((b * n + p) / n = b)%nat.
Proof.
  intros Hn Hrows Hrow Hz.
  assert (Hp : (p < n)%nat).
  { rewrite Forall_forall in Hrows.
    rewrite <- (Hrows row (nth_error_In _ _ Hrow)).
    apply nth_error_Some. congruence. }
  assert (Hd : ((b * n + p) / n = b)%nat).
  { rewrite Nat.add_comm, Nat.div_add by lia. rewrite Nat.div_small by lia.
    reflexivity. }
  assert (Hm : ((b * n + p) mod n = p)%nat).
  { rewrite Nat.add_comm, Nat.Div0.mod_add. apply Nat.mod_small. exact Hp. }
  split; [ | exact Hd].
  rewrite (nth_error_concat_rows n rows _ Hn Hrows), Hd, Hrow, Hm. exact Hz.
Qed.

(** X3.  The element of largest magnitude of a block gets the code of 448 or of
    -448, unless it is below the floor [1e-12]. *)
Theorem block_maximum_gets_top_code (rt : Runtime) (input : tensor f32) (bs : Z) :
  (0 < bs)%Z -> (numel input mod bs = 0)%Z -> Forall finite32 (data input) ->
  exists qc qs,
    quantize_fp8 rt input bs false = Ok (qc, qs, None) /\
    forall (i : nat) (x : Q),
      nth_error (data input) i = Some (Fin x) ->
      clip_min_value <= Qabs x ->
      (forall (j : nat) (y : Q),
          (j / Z.to_nat bs = i / Z.to_nat bs)%nat ->
          nth_error (data input) j = Some (Fin y) -> Qabs y <= Qabs x) ->
      nth_error (data qc) i
      = Some (if F32.is_neg x then 254 else 126)%Z.
Proof.
  intros Hbs Hmod Hfin.
  destruct (view_rows_ok (data input) bs Hbs Hmod) as (rows & Hv).
  destruct (view_rows_spec _ _ _ Hv) as (_ & Hlen & Hrows & Hcat).
  eexists _, _. split; [exact (quantize_fp8_plain rt input bs rows Hv) | ].
  intros i x Hx Hclip Hmax. cbn [data].
  assert (Hn : (0 < Z.to_nat bs)%nat) by lia.
  set (n := Z.to_nat bs) in *.
  pose proof Hx as Hx'.
  rewrite <- Hcat, (nth_error_concat_rows n rows i Hn Hrows) in Hx'.
  destruct (nth_error rows (i / n)) as [row | ] eqn:Erow; [ | discriminate].
  pose proof (rows_finite _ _ _ Hv Hfin) as Hrf.
  rewrite Forall_forall in Hrf.
  destruct (Hrf row (nth_error_In _ _ Erow)) as (Hrne & Hrow).
  assert (Hb : Forall (bounded_by (Qabs x)) row).
  { apply Forall_forall. intros z Hz.
    destruct (In_nth_error _ _ Hz) as (p & Hp).
    destruct (nth_error_row_index n rows (i / n) p row z Hn Hrows Erow Hp)
      as (Hj & Hd).
    rewrite Hcat in Hj.
    rewrite Forall_forall in Hrow. pose proof (Hrow z Hz) as Hzf.
    destruct z as [y | | ]; try contradiction.
    exists y. split; [reflexivity | ]. exact (Hmax _ y Hd Hj). }
  destruct (block_scale_of_maximum row x Hrow (nth_error_In _ _ Hx') Hb Hclip)
    as (C & S & ES & HS & HM & Hlo & Hhi & H1 & H2).
  rewrite nth_error_map, nth_error_concat_rows with (n := n);
    [ | exact Hn | apply Forall_map_length; [ | exact Hrows];
                   intros r; apply length_map ].
  rewrite nth_error_map, Erow. cbn [option_map].
  rewrite nth_error_map, Hx'. cbn [option_map]. rewrite ES.
  rewrite (element_top_code C S x HS HM Hlo Hhi H1 H2). reflexivity.
Qed.

(** X3 at the block [1.0, -2.0, 0.5, 4.0]. *)
Lemma block_maximum_witness :
  ((0 < 4)%Z /\ (numel spec_block mod 4 = 0)%Z /\
   Forall finite32 (data spec_block)) /\
  forall rt,
  exists qc qs,
    quantize_fp8 rt spec_block 4 false = Ok (qc, qs, None) /\
    forall (i : nat) (x : Q),
      nth_error (data spec_block) i = Some (Fin x) ->
      clip_min_value <= Qabs x ->
      (forall (j : nat) (y : Q),
          (j / Z.to_nat 4 = i / Z.to_nat 4)%nat ->
          nth_error (data spec_block) j = Some (Fin y) -> Qabs y <= Qabs x) ->
      nth_error (data qc) i
      = Some (if F32.is_neg x then 254 else 126)%Z.
Proof.
  split; [split; [reflexivity | split; [reflexivity | exact spec_block_finite]] | ].
  intros rt.
  apply (block_maximum_gets_top_code rt spec_block 4);
    [reflexivity | reflexivity | exact spec_block_finite].
Defined.

(** In the block [1.0, -2.0, 0.5, 4.0] the element 4.0 is the maximum and
    gets the code of 448; with -4.0 in its place, the code of -448. *)
Remark block_maximum_example :
  forall rt,
    (exists qs, quantize_fp8 rt spec_block 4 false
                = Ok (vec [110; 246; 102; 126]%Z, qs, None)) /\
    (exists qs, quantize_fp8 rt (vec [Fin 1; Fin (-4); Fin (1 # 2); Fin 2]) 4 false
                = Ok (vec [110; 254; 102; 118]%Z, qs, None)).
Proof. intros rt. split; eexists; vm_compute; reflexivity. Qed.

(** ** The constructor and the exponent [k] *)

(** X7.  The constructor on the output of [quantize_fp8]: the block size is
    recovered, unless the input is empty. *)
Theorem constructor_recovers_block_size (rt : Runtime) (input : tensor f32)
    (bs : Z) (qc : tensor fp8) (qs : tensor f32) (kk : option (tensor f32)) :
  quantize_fp8 rt input bs false = Ok (qc, qs, kk) ->
  OptimStateFp8_init qc qs
  = if (numel input =? 0)%Z then Raise ZeroDivisionError
    else Ok (mkOptimStateFp8 qc qs None bs).
Proof.
  intros Hq.
  destruct (view_rows (data input) bs) as [rows | e] eqn:Hv;
    [ | unfold quantize_fp8 in Hq; rewrite Hv in Hq; discriminate].
  destruct (view_rows_spec _ _ _ Hv) as (Hbs & Hlen & Hrows & Hcat).
  destruct rows as [ | row rows'] eqn:Erows.
  - rewrite (quantize_fp8_plain rt input bs [] Hv) in Hq.
    injection Hq as <- <- _. cbn in Hcat. unfold numel at 1.
    rewrite <- Hcat. reflexivity.
  - rewrite <- Erows in *.
    assert (Hne : rows <> []) by (rewrite Erows; discriminate).
    destruct (round_trip_rows rt input bs rows Hv Hne) as (Hq' & Hi & _).
    rewrite Hq' in Hq. injection Hq as <- <- _.
    replace (numel input =? 0)%Z with false; [exact Hi | ].
    symmetry. apply Z.eqb_neq. unfold numel.
    rewrite <- Hcat, (length_concat_rows _ _ Hrows), Erows. cbn [length]. lia.
Qed.

(** X7 at the block [1.0, -2.0, 0.5, 4.0]. *)
Lemma constructor_recovers_block_size_witness :
  exists qc qs,
    (forall rt, quantize_fp8 rt spec_block 4 false = Ok (qc, qs, None)) /\
    OptimStateFp8_init qc qs = Ok (mkOptimStateFp8 qc qs None 4).
Proof.
  eexists _, _.
  assert (Hq : forall rt, quantize_fp8 rt spec_block 4 false = Ok (_, _, None))
    by (intros rt; vm_compute; reflexivity).
  split; [exact Hq | ].
  exact (constructor_recovers_block_size
           (mkRuntime (fun _ => Raise RuntimeError) (fun x => x) (fun x _ => x))
           spec_block 4 _ _ None (Hq _)).
Defined.

Lemma broadcast_rows_lengths {A B C : Type} (f : A -> B -> C) (n : nat)
    (rows : list (list A)) (col : list B) (out : list (list C)) :
  broadcast_rows f rows col = Ok out ->
  Forall (fun row => length row = n) rows ->
  Forall (fun row => length row = n) out.
Proof.
  intros H Hrows. unfold broadcast_rows in H.
  assert (H2 : Forall (fun row => length row = n)
                 (map2 (fun row b => map (fun a => f a b) row) rows col)).
  { clear H. revert col. induction Hrows as [ | row rows Hrow _ IH];
      intros [ | b col]; cbn; constructor.
    - rewrite length_map. exact Hrow.
    - apply IH. }
  assert (H1 : forall b, Forall (fun row => length row = n)
                           (map (map (fun a => f a b)) rows)).
  { intros b. apply Forall_map_length; [ | exact Hrows].
    intros row. apply length_map. }
  destruct (Nat.eqb (length rows) (length col)); [injection H as <-; exact H2 | ].
  destruct col as [ | b [ | b' col]].
  - destruct rows as [ | row [ | row' rows]]; try discriminate.
    injection H as <-. constructor.
  - injection H as <-. apply H1.
  - destruct rows as [ | row [ | row' rows]]; try discriminate.
    injection H as <-. inversion Hrows as [ | ? ? Hrow _]; subst.
    apply Forall_forall. intros r Hin.
    change (In r (map (fun b0 => map (fun a => f a b0) row) (b :: b' :: col))) in Hin.
    apply in_map_iff in Hin. destruct Hin as (b0 & <- & _).
    apply length_map.
Qed.

Lemma broadcast_rows_scalar {A B C : Type} (f : A -> B -> C)
    (rows : list (list A)) (b : B) :
  broadcast_rows f rows [b] = Ok (map (map (fun a => f a b)) rows).
Proof.
  unfold broadcast_rows. destruct rows as [ | row [ | row' rows]]; reflexivity.
Qed.

(** X11.  With a [k] of one non-zero element, [dequantize] raises every element
    it decodes without [k] to the power [1 / k]. *)
Theorem dequantize_applies_power_last (rt : Runtime) (qc : tensor fp8)
    (qs : tensor f32) (shk : list nat) (kv : f32) (bs : Z) :
  nonzero kv = true ->
  dequantize rt (mkOptimStateFp8 qc qs (Some (mkTensor shk [kv])) bs) None
  = match dequantize rt (mkOptimStateFp8 qc qs None bs) None with
    | Ok t =>
        Ok (mkTensor (shape t)
              (map (fun x => torch_pow rt x (F32.div F32.one kv)) (data t)))
    | Raise e => Raise e
    end.
Proof.
  intros Hk. unfold dequantize. cbn [codes scale k block_size data].
  destruct (view_rows (map E4M3.to_f32 (data qc)) bs) as [rows | e] eqn:Hv;
    [ | reflexivity].
  destruct (view_rows_spec _ _ _ Hv) as (Hbs & _ & Hrows & _).
  cbn [bind].
  destruct (broadcast_rows F32.mul rows (data qs)) as [rows1 | e] eqn:Hb;
    [ | reflexivity].
  cbn [bind].
  assert (Ht : truth (Some (mkTensor shk [kv])) = Ok true).
  { unfold truth. cbn [data]. destruct kv as [q | s | ]; try reflexivity.
    cbn in Hk. rewrite Hk. reflexivity. }
  rewrite Ht. cbn [bind truth].
  pose proof (broadcast_rows_lengths _ _ _ _ _ Hb Hrows) as Hrows1.
  rewrite (view_rows_concat rows1 bs Hbs Hrows1). cbn [bind map].
  rewrite broadcast_rows_scalar. cbn [bind].
  unfold view_shape. rewrite <- concat_map, length_map.
  destruct (Z.of_nat (length (concat rows1)) =? numel qc)%Z; reflexivity.
Qed.

(** X11 at two blocks of one element and [k = 0.5]. *)
Lemma dequantize_applies_power_last_witness :
  nonzero (Fin (1 # 2)) = true /\
  forall rt,
    dequantize rt
      (mkOptimStateFp8 (vec [56; 192]%Z) (vec [Fin 1; Fin 2])
         (Some (vec [Fin (1 # 2)])) 1) None
    = Ok (vec [torch_pow rt (Fin 1) (Fin 2); torch_pow rt (Fin (-4)) (Fin 2)]).
Proof.
  split; [reflexivity | ]. intros rt.
  exact (dequantize_applies_power_last rt (vec [56; 192]%Z) (vec [Fin 1; Fin 2])
           [1%nat] (Fin (1 # 2)) 1 eq_refl).
Defined.

(** ** The handler of the collectives *)

(** X23.  A collective that returns [w] times as many codes and [w] times as many
    scales, as a gather over [w] ranks does, gives a state of the block size
    the constructor computes from the local state; a plain tensor is
    refused; and a collective that returns its argument, as [wait_tensor]
    does, makes the handler that of [_to_copy]. *)
Theorem gathered_keeps_block_size :
  (forall func_codes func_scale t,
      gathered func_codes func_scale (Plain t) = inl ValueError) /\
  (forall func_codes func_scale (x : OptimStateFp8) c sc (w : Z),
      func_codes (codes x) = Ok c -> func_scale (scale x) = Ok sc ->
      (0 < w)%Z -> numel c = (w * numel (codes x))%Z ->
      numel sc = (w * numel (scale x))%Z -> ndim sc = 1%nat ->
      numel (scale x) <> 0%Z ->
      gathered func_codes func_scale (Quantized x)
      = inr (mkOptimStateFp8 c sc None (numel (codes x) / numel (scale x)))) /\
  (forall x,
      gathered (fun t => Ok t) (fun t => Ok t) (Quantized x)
      = match to_copy x with
        | Ok out => inr out
        | Raise e => inl (Raised e)
        end).
Proof.
  split; [reflexivity | ]. split; [ | reflexivity].
  intros fc fs x c sc w Hc Hs Hw Hnc Hns Hnd Hm.
  unfold gathered. rewrite Hc, Hs. unfold OptimStateFp8_init.
  rewrite Hnd. cbn [Nat.eqb negb]. rewrite Hnc, Hns.
  replace (w * numel (scale x) =? 0)%Z with false
    by (symmetry; apply Z.eqb_neq; nia).
  rewrite Z.div_mul_cancel_l by lia. reflexivity.
Qed.

(** X23 at a collective that returns its argument twice. *)
Lemma gathered_keeps_block_size_witness :
  let x := mkOptimStateFp8 (vec [56; 192; 48; 72]%Z) (vec [Fin 2; Fin 1]) None 2 in
  let twice (A : Type) (t : tensor A) := Ok (vec (data t ++ data t)) in
  gathered (twice fp8) (twice f32) (Quantized x)
  = inr (mkOptimStateFp8 (vec [56; 192; 48; 72; 56; 192; 48; 72]%Z)
           (vec [Fin 2; Fin 1; Fin 2; Fin 1]) None 2).
Proof.
  intros x twice.
  exact (proj1 (proj2 gathered_keeps_block_size) (twice fp8) (twice f32) x
           (vec [56; 192; 48; 72; 56; 192; 48; 72]%Z)
           (vec [Fin 2; Fin 1; Fin 2; Fin 1]) 2%Z eq_refl eq_refl eq_refl eq_refl
           eq_refl eq_refl ltac:(discriminate)).
Defined.

(** ** The two casts *)

Lemma all_codes_check : forallb code_checks all_codes = true.
Proof. vm_compute. reflexivity. Qed.

Lemma in_all_codes (c : fp8) : (0 <= c < 256)%Z -> In c all_codes.
Proof.
  intros H. unfold all_codes. apply in_map_iff.
  exists (Z.to_nat c). split; [lia | ]. apply in_seq. lia.
Qed.

(** X26.  [codes.float()] and [.to(DTYPE)] on the 256 codes: a code widens
    to NaN exactly when it is one of the two NaN patterns; any other code
    widens to a finite value of magnitude at most 448, never to an infinity,
    and casting that value gives the code back, but for the zero with the
    sign bit, which the embedding does not tell from zero. *)
Theorem widen_then_cast (c : fp8) :
  (0 <= c < 256)%Z ->
  (E4M3.to_f32 c = NaN <-> c = 127%Z \/ c = 255%Z) /\
  (c <> 127%Z -> c <> 255%Z ->
   bounded_by E4M3.finfo_max (E4M3.to_f32 c) /\
   (c <> 128%Z -> E4M3.of_f32 (E4M3.to_f32 c) = c)).
Proof.
  intros Hc.
  pose proof (proj1 (forallb_forall _ _) all_codes_check c (in_all_codes c Hc)) as H.
  unfold code_checks in H.
  destruct (E4M3.to_f32 c) as [w | s | ] eqn:E.
  - apply andb_true_iff in H. destruct H as (Hw & Hr).
    apply Qle_bool_iff in Hw. split.
    + split; [discriminate | ].
      intros [-> | ->]; vm_compute in E; discriminate.
    + intros _ _. split; [exists w; split; [reflexivity | exact Hw] | ].
      intros H128. apply orb_true_iff in Hr. destruct Hr as [Hr | Hr].
      * apply Z.eqb_eq in Hr. contradiction.
      * apply Z.eqb_eq in Hr. exact Hr.
  - discriminate.
  - apply orb_true_iff in H. split.
    + split; [intros _ | reflexivity].
      destruct H as [H | H]; apply Z.eqb_eq in H; auto.
    + intros H127 H255. destruct H as [H | H]; apply Z.eqb_eq in H; contradiction.
Qed.

(** X26 at the code of 448. *)
Lemma widen_then_cast_witness :
  (0 <= 126 < 256)%Z /\
  E4M3.to_f32 126%Z = Fin 448 /\
  E4M3.of_f32 (E4M3.to_f32 126%Z) = 126%Z.
Proof.
  split; [lia | ]. split; [vm_compute; reflexivity | ].
  apply (proj2 (widen_then_cast 126%Z ltac:(lia))); discriminate.
Defined.
